(** * Pynesweeper: the rule engine of [Minesweeper.py]

    A shallow embedding of the game logic of [src/Minesweeper.py] (board
    generation, adjacency counts, the recursive reveal, flag toggling and
    the win / loss dialogs) together with the properties of the
    specification that concern it.

    The Tk widgets are not modelled.  What the program keeps at module
    scope (the board dimensions, the mine total, [spaces], [pieces_left],
    [babymode]) is the record [State]; the calls that open a dialog or
    print a diagnostic are recorded, in order, in its [trace].

    A function of the program is given twice where it recurses: with
    fuel, which says how deep the recursion has to go, and with the
    recursion limit of the interpreter, beyond which the call raises
    [RecursionError] and leaves the globals as they are at that moment. *)

From Stdlib Require Import ZArith Lia String.
From stdpp Require Import base list.

Local Open Scope Z_scope.

(** ** Data *)

(** [class Piece(Enum)] *)
Inductive Piece := HIDDEN | EMPTY | MINE.

Global Instance Piece_eq_dec : EqDecision Piece.
Proof. solve_decision. Defined.

(** One entry of [spaces]: the dict [{"type": .., "count": .., "flag": ..}]. *)
Record Space := { type : Piece; count : Z; flag : bool }.

Definition set_type (v : Piece) (s : Space) : Space :=
  {| type := v; count := count s; flag := flag s |}.
Definition set_flag (v : bool) (s : Space) : Space :=
  {| type := type s; count := count s; flag := v |}.
Definition incr_count (s : Space) : Space :=
  {| type := type s; count := count s + 1; flag := flag s |}.

(** What the program shows or prints, as far as the properties below need
    it: the two dialogs, the placement line of the debug output and the
    two messages about an oversized mine total. *)
Inductive Event :=
| EvGameOver (x y : Z)
| EvGameWin
| EvPlaced (x y : Z)
| EvStartupClamp (mines width height size : Z)
| EvNewGameClamp (mines width height shown : Z).

Global Instance Event_eq_dec : EqDecision Event.
Proof. solve_decision. Defined.

(** The module-level variables.  [draws] counts the calls made to
    [randint] so far. *)
Record State := {
  BOARD_WIDTH : Z;
  BOARD_HEIGHT : Z;
  TOTAL_MINES : Z;
  PRINT_DEBUG_INFO : bool;
  spaces : list (list Space);
  pieces_left : Z;
  babymode : bool;
  draws : nat;
  trace : list Event
}.

Definition with_spaces (sp : list (list Space)) (st : State) : State :=
  {| BOARD_WIDTH := BOARD_WIDTH st; BOARD_HEIGHT := BOARD_HEIGHT st;
     TOTAL_MINES := TOTAL_MINES st; PRINT_DEBUG_INFO := PRINT_DEBUG_INFO st;
     spaces := sp; pieces_left := pieces_left st; babymode := babymode st;
     draws := draws st; trace := trace st |}.
Definition with_pieces_left (n : Z) (st : State) : State :=
  {| BOARD_WIDTH := BOARD_WIDTH st; BOARD_HEIGHT := BOARD_HEIGHT st;
     TOTAL_MINES := TOTAL_MINES st; PRINT_DEBUG_INFO := PRINT_DEBUG_INFO st;
     spaces := spaces st; pieces_left := n; babymode := babymode st;
     draws := draws st; trace := trace st |}.
Definition with_babymode (b : bool) (st : State) : State :=
  {| BOARD_WIDTH := BOARD_WIDTH st; BOARD_HEIGHT := BOARD_HEIGHT st;
     TOTAL_MINES := TOTAL_MINES st; PRINT_DEBUG_INFO := PRINT_DEBUG_INFO st;
     spaces := spaces st; pieces_left := pieces_left st; babymode := b;
     draws := draws st; trace := trace st |}.
Definition with_draws (d : nat) (st : State) : State :=
  {| BOARD_WIDTH := BOARD_WIDTH st; BOARD_HEIGHT := BOARD_HEIGHT st;
     TOTAL_MINES := TOTAL_MINES st; PRINT_DEBUG_INFO := PRINT_DEBUG_INFO st;
     spaces := spaces st; pieces_left := pieces_left st;
     babymode := babymode st; draws := d; trace := trace st |}.
Definition emit (e : Event) (st : State) : State :=
  {| BOARD_WIDTH := BOARD_WIDTH st; BOARD_HEIGHT := BOARD_HEIGHT st;
     TOTAL_MINES := TOTAL_MINES st; PRINT_DEBUG_INFO := PRINT_DEBUG_INFO st;
     spaces := spaces st; pieces_left := pieces_left st;
     babymode := babymode st; draws := draws st;
     trace := trace st ++ [e] |}.
Definition with_config (w h m : Z) (st : State) : State :=
  {| BOARD_WIDTH := w; BOARD_HEIGHT := h; TOTAL_MINES := m;
     PRINT_DEBUG_INFO := PRINT_DEBUG_INFO st;
     spaces := spaces st; pieces_left := pieces_left st;
     babymode := babymode st; draws := draws st; trace := trace st |}.

(** ** Results of a call

    A call returns, raises, or is still running when the fuel given to
    the model is used up. *)
Inductive exn := IndexError | ValueError | RecursionError.

Inductive outcome (A : Type) :=
| Done (a : A)
| Raised (e : exn)
| OutOfFuel.
Arguments Done {A} a.
Arguments Raised {A} e.
Arguments OutOfFuel {A}.

Global Instance outcome_ret : MRet outcome := fun A a => Done a.
Global Instance outcome_bind : MBind outcome := fun A B f m =>
  match m with
  | Done a => f a
  | Raised e => Raised e
  | OutOfFuel => OutOfFuel
  end.

(** ** Subscripts

    [l[i]] in Python: a negative [i] counts from the end, anything outside
    [-len(l) .. len(l)-1] raises [IndexError]. *)
Definition index {A} (l : list A) (i : Z) : option nat :=
  let n := Z.of_nat (length l) in
  if (0 <=? i) && (i <? n) then Some (Z.to_nat i)
  else if (- n <=? i) && (i <? 0) then Some (Z.to_nat (i + n))
  else None.

Definition getitem {A} (l : list A) (i : Z) : outcome (nat * A) :=
  match index l i with
  | Some k => match l !! k with
              | Some a => Done (k, a)
              | None => Raised IndexError
              end
  | None => Raised IndexError
  end.

(** [piece = spaces[x][y]]: the dict found there and where it lives, so
    that a later [piece[..] = ..] updates the board itself. *)
Definition piece_at (sp : list (list Space)) (x y : Z)
  : outcome (nat * nat * Space) :=
  '(i, col) ← getitem sp x;
  '(j, piece) ← getitem col y;
  Done (i, j, piece).

Definition update (r : nat * nat) (f : Space → Space)
    (sp : list (list Space)) : list (list Space) :=
  alter (alter f r.2) r.1 sp.

Definition assign (r : nat * nat) (f : Space → Space) (st : State) : State :=
  with_spaces (update r f (spaces st)) st.

(** The bounds test shared by [RevealEmpty] and [AddCount]. *)
Definition in_board (st : State) (x y : Z) : bool :=
  (0 <=? x) && (x <? BOARD_WIDTH st) && (0 <=? y) && (y <? BOARD_HEIGHT st).

(** The eight calls that follow a reveal or a placement, in the order of
    the source. *)
Definition around (x y : Z) : list (Z * Z) :=
  [ (x-1, y-1); (x-1, y); (x-1, y+1); (x, y-1);
    (x, y+1); (x+1, y-1); (x+1, y); (x+1, y+1) ].

Fixpoint each (f : Z → Z → State → outcome State) (l : list (Z * Z))
    (st : State) : outcome State :=
  match l with
  | [] => Done st
  | (a, b) :: l' => st' ← f a b st; each f l' st'
  end.

(** ** The functions of the program *)

(** [ClearBoard]: a fresh grid, [BOARD_WIDTH] columns of [BOARD_HEIGHT]
    hidden spaces. *)
Definition blank : Space := {| type := HIDDEN; count := 0; flag := false |}.

Definition ClearBoard (st : State) : list (list Space) :=
  replicate (Z.to_nat (BOARD_WIDTH st)) (replicate (Z.to_nat (BOARD_HEIGHT st)) blank).

Definition SetBabyMode (st : State) : State := with_babymode true st.

Definition GameOver (x y : Z) (st : State) : State := emit (EvGameOver x y) st.

Definition GameWin (st : State) : State := emit EvGameWin st.

(** [RevealEmpty]; [fuel] bounds the depth of the recursion. *)
Fixpoint RevealEmpty (fuel : nat) (x y : Z) (st : State) : outcome State :=
  match fuel with
  | O => OutOfFuel
  | S fuel' =>
    if in_board st x y then
      '(i, j, piece) ← piece_at (spaces st) x y;
      if decide (type piece = HIDDEN) then
        let st1 := if flag piece then assign (i, j) (set_flag false) st else st in
        let st2 := assign (i, j) (set_type EMPTY) st1 in
        st3 ← (if 0 <? count piece then Done st2
               else each (RevealEmpty fuel') (around x y) st2);
        let st4 := with_pieces_left (pieces_left st3 - 1) st3 in
        if pieces_left st4 <=? 0 then Done (GameWin st4) else Done st4
      else Done st
    else Done st
  end.

(** [ClickSpace], for a click on the frame in column [x], row [y]. *)
Definition ClickSpace (fuel : nat) (x y : Z) (st : State) : outcome State :=
  '(_, _, piece) ← piece_at (spaces st) x y;
  if flag piece then Done st
  else if decide (type piece = MINE) then Done (GameOver x y st)
  else if decide (type piece = HIDDEN) then RevealEmpty fuel x y st
  else Done st.

(** [RightClickSpace], for a right click on the frame in column [x], row [y]. *)
Definition RightClickSpace (x y : Z) (st : State) : outcome State :=
  '(i, j, piece) ← piece_at (spaces st) x y;
  if decide (type piece = MINE ∨ type piece = HIDDEN) then
    if flag piece then Done (assign (i, j) (set_flag false) st)
    else Done (assign (i, j) (set_flag true) st)
  else Done st.

(** [AddCount] *)
Definition AddCount (x y : Z) (st : State) : outcome State :=
  if in_board st x y then
    '(i, j, _) ← piece_at (spaces st) x y;
    Done (assign (i, j) incr_count st)
  else Done st.

Section Random.

(** The values behind [random]: the [k]-th call of [randint] is served
    from [rng k]. *)
Variable rng : nat → Z.

(** [randint(a, b)]: some integer of [a .. b]; an empty range raises. *)
Definition randint (a b : Z) (st : State) : outcome (Z * State) :=
  if b <? a then Raised ValueError
  else Done (a + rng (draws st) `mod` (b - a + 1), with_draws (S (draws st)) st).

(** The inner [while] of [GenerateBoard]: draw again as long as the
    space drawn is a mine.  [fuel] bounds the number of tests. *)
Fixpoint redraw (fuel : nat) (x y : Z) (st : State) : outcome (Z * Z * State) :=
  match fuel with
  | O => OutOfFuel
  | S fuel' =>
    '(_, _, piece) ← piece_at (spaces st) x y;
    if decide (type piece = MINE) then
      '(y', st1) ← randint 0 (BOARD_HEIGHT st - 1) st;
      '(x', st2) ← randint 0 (BOARD_WIDTH st1 - 1) st1;
      redraw fuel' x' y' st2
    else Done (x, y, st)
  end.

(** One round of the [for] loop of [GenerateBoard]. *)
Definition place_mine (fuel : nat) (st : State) : outcome State :=
  '(y, st1) ← randint 0 (BOARD_HEIGHT st - 1) st;
  '(x, st2) ← randint 0 (BOARD_WIDTH st1 - 1) st1;
  '(x, y, st3) ← redraw fuel x y st2;
  '(i, j, _) ← piece_at (spaces st3) x y;
  let st4 := assign (i, j) (set_type MINE) st3 in
  let st5 := if PRINT_DEBUG_INFO st4 then emit (EvPlaced x y) st4 else st4 in
  each AddCount (around x y) st5.

(** [for i in range(n)] *)
Fixpoint place_mines (n : nat) (fuel : nat) (st : State) : outcome State :=
  match n with
  | O => Done st
  | S n' => st' ← place_mine fuel st; place_mines n' fuel st'
  end.

(** [GenerateBoard] *)
Definition GenerateBoard (fuel : nat) (st : State) : outcome State :=
  let st1 := with_spaces (ClearBoard st) st in
  let st2 := with_pieces_left (BOARD_HEIGHT st1 * BOARD_WIDTH st1 - TOTAL_MINES st1) st1 in
  let st3 := with_babymode false st2 in
  place_mines (Z.to_nat (TOTAL_MINES st3)) fuel st3.

(** [NewGame], with the three values read from the spin boxes. *)
Definition NewGame_config (new_w new_h new_m : Z) (st : State) : State :=
  let st1 := with_config new_w new_h (TOTAL_MINES st) st in
  if new_m <=? new_w * new_h then
    with_config new_w new_h new_m st1
  else if PRINT_DEBUG_INFO st1 then
    with_config new_w new_h (new_m * new_h)
      (emit (EvNewGameClamp new_m new_w new_h (new_m * new_h)) st1)
  else st1.

Definition NewGame (fuel : nat) (new_w new_h new_m : Z) (st : State)
  : outcome State :=
  GenerateBoard fuel (NewGame_config new_w new_h new_m st).

End Random.

(** The module body up to the first [GenerateBoard], [spaces = ClearBoard()]
    included: [args] are the numeric launch arguments [sys.argv[1..3]]
    after [int(..)], as many as were given, and [debug] is [sys.argv[4]]
    when present. *)
Definition startup (args : list Z) (debug : option string) : State :=
  let w := default 20 (args !! 0%nat) in
  let h := default 20 (args !! 1%nat) in
  let m := default 60 (args !! 2%nat) in
  let boardsize := h * w in
  let clamp := boardsize <? m in
  let m' := if clamp then boardsize else m in
  let st :=
    {| BOARD_WIDTH := w; BOARD_HEIGHT := h; TOTAL_MINES := m';
       PRINT_DEBUG_INFO :=
         match debug with Some s => String.eqb s "True" | None => false end;
       spaces := [];
       pieces_left := h * w - m';
       babymode := false;
       draws := 0;
       trace := if clamp then [EvStartupClamp m w h boardsize] else [] |} in
  with_spaces (ClearBoard st) st.

(** A sequence of clicks on the board. *)
Inductive Action :=
| LeftClick (x y : Z)
| RightClick (x y : Z).

Definition act (fuel : nat) (a : Action) (st : State) : outcome State :=
  match a with
  | LeftClick x y => ClickSpace fuel x y st
  | RightClick x y => RightClickSpace x y st
  end.

Fixpoint play (fuel : nat) (acts : list Action) (st : State) : outcome State :=
  match acts with
  | [] => Done st
  | a :: acts' => st' ← act fuel a st; play fuel acts' st'
  end.

(** ** Notions the properties are stated with *)

(** The space in column [x], row [y], when the board has one there. *)
Definition cell (sp : list (list Space)) (x y : Z) : option Space :=
  if (0 <=? x) && (0 <=? y) then col ← sp !! Z.to_nat x; col !! Z.to_nat y
  else None.

Definition space_at (st : State) (x y : Z) : option Space :=
  if in_board st x y then cell (spaces st) x y else None.

Definition type_at (st : State) (x y : Z) : option Piece :=
  type <$> space_at st x y.

Definition count_at (st : State) (x y : Z) : option Z :=
  count <$> space_at st x y.

Definition is_hidden (c : Space) : bool :=
  match type c with HIDDEN => true | _ => false end.
Definition is_empty (c : Space) : bool :=
  match type c with EMPTY => true | _ => false end.
Definition is_mine (c : Space) : bool :=
  match type c with MINE => true | _ => false end.

Definition mine_at (st : State) (x y : Z) : bool :=
  from_option is_mine false (space_at st x y).

(** The board is a grid of the recorded dimensions. *)
Definition rect (st : State) : Prop :=
  length (spaces st) = Z.to_nat (BOARD_WIDTH st) ∧
  Forall (λ col, length col = Z.to_nat (BOARD_HEIGHT st)) (spaces st).

(** Counting the spaces that satisfy a test. *)
Fixpoint count_if (p : Space → bool) (l : list Space) : nat :=
  match l with
  | [] => 0
  | c :: l' => (if p c then 1 else 0) + count_if p l'
  end.

Fixpoint tally (p : Space → bool) (sp : list (list Space)) : nat :=
  match sp with
  | [] => 0
  | col :: sp' => count_if p col + tally p sp'
  end.

Definition hidden_count (st : State) : nat := tally is_hidden (spaces st).
Definition mine_count (st : State) : nat := tally is_mine (spaces st).

(** The spaces that are revealed in [sp'] and were not in [sp]. *)
Definition fresh (a b : Space) : bool := negb (is_empty a) && is_empty b.

Fixpoint fresh_in_column (l l' : list Space) : nat :=
  match l, l' with
  | a :: l, b :: l' => (if fresh a b then 1 else 0) + fresh_in_column l l'
  | _, _ => 0
  end.

Fixpoint newly_revealed (sp sp' : list (list Space)) : nat :=
  match sp, sp' with
  | c :: sp, c' :: sp' => fresh_in_column c c' + newly_revealed sp sp'
  | _, _ => 0
  end.

(** The number of mines among the up to eight neighbours on the board. *)
Definition mines_around (st : State) (x y : Z) : Z :=
  foldr (λ p n, (if mine_at st p.1 p.2 then 1 else 0) + n) 0 (around x y).

Definition counts_ok (st : State) : Prop :=
  ∀ x y c, space_at st x y = Some c → count c = mines_around st x y.

(** [pieces_left] is the number of hidden spaces that are not mines. *)
Definition pieces_ok (st : State) : Prop :=
  pieces_left st = Z.of_nat (hidden_count st).

(** Every revealed space without a positive count has no hidden neighbour. *)
Definition closed (st : State) : Prop :=
  ∀ x y c p, space_at st x y = Some c → type c = EMPTY → count c <= 0 →
    p ∈ around x y → type_at st p.1 p.2 ≠ Some HIDDEN.

(** What holds of every board the program plays on. *)
Record wf (st : State) : Prop := {
  wf_rect : rect st;
  wf_counts : counts_ok st;
  wf_pieces : pieces_ok st;
  wf_closed : closed st
}.

(** The hidden spaces [RevealEmpty x y] walks to: from a hidden space
    whose count is not positive it moves on to each hidden neighbour. *)
Inductive reach (st : State) (x y : Z) : Z → Z → Prop :=
| reach_here :
    type_at st x y = Some HIDDEN → reach st x y x y
| reach_next a b c p :
    reach st x y a b → space_at st a b = Some c → count c <= 0 →
    p ∈ around a b → type_at st p.1 p.2 = Some HIDDEN →
    reach st x y p.1 p.2.

(** The connected region of spaces with count 0 that contains [(x, y)],
    and the spaces with a positive count that border it. *)
Inductive zero_region (st : State) (x y : Z) : Z → Z → Prop :=
| zero_start c :
    space_at st x y = Some c → count c = 0 → zero_region st x y x y
| zero_next a b c p :
    zero_region st x y a b → p ∈ around a b →
    space_at st p.1 p.2 = Some c → count c = 0 →
    zero_region st x y p.1 p.2.

Definition border (st : State) (x y a b : Z) : Prop :=
  ∃ a0 b0 c, zero_region st x y a0 b0 ∧ (a, b) ∈ around a0 b0 ∧
    space_at st a b = Some c ∧ 0 < count c.

Definition cascade (st : State) (x y a b : Z) : Prop :=
  zero_region st x y a b ∨ border st x y a b.

(** One reveal step on a space, and on a board. *)
Definition space_step (a b : Space) : Prop :=
  b = a ∨ (type a = HIDDEN ∧ b = {| type := EMPTY; count := count a; flag := false |}).

Definition board_step (sp sp' : list (list Space)) : Prop :=
  Forall2 (Forall2 space_step) sp sp'.

(** What a reveal may change: spaces go from hidden to revealed,
    [pieces_left] drops by their number, and only win dialogs open. *)
Record reveals (st st' : State) : Prop := {
  rv_width : BOARD_WIDTH st' = BOARD_WIDTH st;
  rv_height : BOARD_HEIGHT st' = BOARD_HEIGHT st;
  rv_mines : TOTAL_MINES st' = TOTAL_MINES st;
  rv_debug : PRINT_DEBUG_INFO st' = PRINT_DEBUG_INFO st;
  rv_baby : babymode st' = babymode st;
  rv_draws : draws st' = draws st;
  rv_board : board_step (spaces st) (spaces st');
  rv_pieces :
    pieces_left st' = pieces_left st - Z.of_nat (hidden_count st) + Z.of_nat (hidden_count st');
  rv_trace : ∃ k, trace st' = trace st ++ replicate k EvGameWin
}.

(** The draws of [rng] from call [d] on, taken in pairs as
    [GenerateBoard] does (row first), name every space of a
    [w] by [h] board again and again. *)
Definition fair (rng : nat → Z) (d : nat) (w h : Z) : Prop :=
  ∀ (k : nat) x y, 0 <= x < w → 0 <= y < h →
    ∃ j : nat, (k <= j)%nat ∧
      rng (d + 2 * j)%nat `mod` h = y ∧ rng (d + 2 * j + 1)%nat `mod` w = x.

(** A source of draws that walks through the spaces of a [w] by [h] board
    in turn. *)
Definition round_robin (w h : Z) (n : nat) : Z :=
  let i := Z.of_nat (n / 2) in
  if Nat.even n then (i / w) `mod` h else i `mod` w.

(** The board of [st'] is that of [st] after some reveal steps. *)
Definition grows (st st' : State) : Prop :=
  BOARD_WIDTH st' = BOARD_WIDTH st ∧ BOARD_HEIGHT st' = BOARD_HEIGHT st ∧
  board_step (spaces st) (spaces st').

(** The space at [(a, b)] is hidden in [st] and revealed in [st']. *)
Definition revealed_by (st st' : State) (a b : Z) : Prop :=
  type_at st a b = Some HIDDEN ∧ type_at st' a b = Some EMPTY.

(** What a run of reveals over the spaces of [l] has done. *)
Definition walked (st : State) (l : list (Z * Z)) (st' : State) : Prop :=
  (∀ p, p ∈ l → type_at st' p.1 p.2 ≠ Some HIDDEN) ∧
  (∀ a b, revealed_by st st' a b → ∃ p, p ∈ l ∧ reach st p.1 p.2 a b) ∧
  (∀ a b c p, revealed_by st st' a b → space_at st a b = Some c →
     count c <= 0 → p ∈ around a b → type_at st' p.1 p.2 ≠ Some HIDDEN).

(** Same settings, same dialogs and messages: only the board differs. *)
Definition same_settings (st st' : State) : Prop :=
  BOARD_WIDTH st' = BOARD_WIDTH st ∧ BOARD_HEIGHT st' = BOARD_HEIGHT st ∧
  TOTAL_MINES st' = TOTAL_MINES st ∧ PRINT_DEBUG_INFO st' = PRINT_DEBUG_INFO st ∧
  pieces_left st' = pieces_left st ∧ babymode st' = babymode st ∧
  draws st' = draws st ∧ trace st' = trace st.

(** What [AddCount] over the spaces of [l] does to the board. *)
Definition counted (l : list (Z * Z)) (st st' : State) : Prop :=
  same_settings st st' ∧
  (rect st → rect st') ∧
  (∀ p, (∀ c, p (incr_count c) = p c) →
        tally p (spaces st') = tally p (spaces st)) ∧
  (∀ a b, space_at st' a b =
          if decide ((a, b) ∈ l) then incr_count <$> space_at st a b
          else space_at st a b).

(** What holds of the board while [GenerateBoard] places mines. *)
Record placing (st : State) : Prop := {
  pl_rect : rect st;
  pl_counts : counts_ok st;
  pl_no_empty : tally is_empty (spaces st) = 0%nat
}.

(** One round of the placement loop put a mine on [(x, y)]. *)
Record placed (x y : Z) (st st' : State) : Prop := {
  pd_width : BOARD_WIDTH st' = BOARD_WIDTH st;
  pd_height : BOARD_HEIGHT st' = BOARD_HEIGHT st;
  pd_mines : TOTAL_MINES st' = TOTAL_MINES st;
  pd_debug : PRINT_DEBUG_INFO st' = PRINT_DEBUG_INFO st;
  pd_pieces : pieces_left st' = pieces_left st;
  pd_baby : babymode st' = babymode st;
  pd_draws : ∃ k, draws st' = (draws st + 2 * S k)%nat;
  pd_trace : trace st' = trace st ++
               (if PRINT_DEBUG_INFO st then [EvPlaced x y] else []);
  pd_in_board : in_board st x y = true;
  pd_fresh : mine_at st x y = false;
  pd_mine_at : ∀ a b, mine_at st' a b =
                 if decide ((a, b) = (x, y)) then true else mine_at st a b;
  pd_count : mine_count st' = S (mine_count st);
  pd_placing : placing st → placing st'
}.

(** The debug lines for mines placed on the spaces of [l], in order. *)
Definition placements (debug : bool) (l : list (Z * Z)) : list Event :=
  if debug then map (λ p, EvPlaced p.1 p.2) l else [].

(** A run of the placement loop put its mines on the spaces of [l]. *)
Record all_placed (l : list (Z * Z)) (st st' : State) : Prop := {
  ap_width : BOARD_WIDTH st' = BOARD_WIDTH st;
  ap_height : BOARD_HEIGHT st' = BOARD_HEIGHT st;
  ap_mines : TOTAL_MINES st' = TOTAL_MINES st;
  ap_debug : PRINT_DEBUG_INFO st' = PRINT_DEBUG_INFO st;
  ap_pieces : pieces_left st' = pieces_left st;
  ap_baby : babymode st' = babymode st;
  ap_draws : ∃ k, draws st' = (draws st + 2 * k)%nat;
  ap_trace : trace st' = trace st ++ placements (PRINT_DEBUG_INFO st) l;
  ap_NoDup : NoDup l;
  ap_mine_at : ∀ a b, mine_at st' a b = true ↔
                 mine_at st a b = true ∨ (a, b) ∈ l;
  ap_fresh : ∀ a b, (a, b) ∈ l → mine_at st a b = false;
  ap_count : mine_count st' = (mine_count st + length l)%nat;
  ap_placing : placing st → placing st'
}.

(** The state in which [GenerateBoard] starts to place mines. *)
Definition cleared (st : State) : State :=
  with_babymode false
    (with_pieces_left (BOARD_HEIGHT st * BOARD_WIDTH st - TOTAL_MINES st)
       (with_spaces (ClearBoard st) st)).

(** Counts and mines are where they were. *)
Definition keeps (st st' : State) : Prop :=
  ∀ a b, count_at st' a b = count_at st a b ∧ mine_at st' a b = mine_at st a b.

Definition b2z (b : bool) : Z := if b then 1 else 0.

(** ** Boards used as examples *)

Definition is_done {A} (o : outcome A) : bool :=
  match o with Done _ => true | _ => false end.

Definition state_of (o : outcome State) (d : State) : State :=
  match o with Done s => s | _ => d end.

(** The program started as [Minesweeper.py 3 3 2], and the board it then
    generates when the draws walk through the spaces in turn: mines on
    [(0, 0)] and [(1, 0)]. *)
Definition demo_start : State := startup [3; 3; 2] None.

Definition demo_board : State :=
  Eval vm_compute in
    state_of (GenerateBoard (round_robin 3 3) 1 demo_start) demo_start.

(** One column of two spaces without a mine, the lower space flagged. *)
Definition flag_start : State := startup [1; 2; 0] None.

Definition flag_fresh : State :=
  Eval vm_compute in
    state_of (GenerateBoard (round_robin 1 2) 1 flag_start) flag_start.

Definition flag_board : State :=
  Eval vm_compute in state_of (RightClickSpace 0 1 flag_fresh) flag_fresh.

(** A single space, which is a mine, flagged. *)
Definition mine_start : State := startup [1; 1; 1] None.

Definition mine_fresh : State :=
  Eval vm_compute in
    state_of (GenerateBoard (round_robin 1 1) 1 mine_start) mine_start.

Definition mine_board : State :=
  Eval vm_compute in state_of (RightClickSpace 0 0 mine_fresh) mine_fresh.

(** One row of two spaces with a mine on the left one, and the same board
    after a click on the right one, which wins the game. *)
Definition pair_start : State := startup [2; 1; 1] None.

Definition pair_board : State :=
  Eval vm_compute in
    state_of (GenerateBoard (round_robin 2 1) 1 pair_start) pair_start.

Definition won_board : State :=
  Eval vm_compute in state_of (ClickSpace 2 1 0 pair_board) pair_board.

(** [demo_board] after a left click on [(0, 2)] and a right click on the
    mine at [(0, 0)]. *)
Definition demo_played : State :=
  Eval vm_compute in
    state_of (play 8 [LeftClick 0 2; RightClick 0 0] demo_board) demo_board.

(** The program started without arguments, with and without debug output. *)
Definition debug_start : State := startup [] (Some "True"%string).
Definition plain_start : State := startup [] None.

(** ** Further notions *)

(** No revealed space carries a flag. *)
Definition flags_ok (st : State) : Prop :=
  ∀ x y c, space_at st x y = Some c → type c = EMPTY → flag c = false.

Definition is_flagged (c : Space) : bool := flag c.

Definition revealed_count (st : State) : nat := tally is_empty (spaces st).

(** The number of win dialogs among some events. *)
Fixpoint wins (tr : list Event) : nat :=
  match tr with
  | [] => 0
  | EvGameWin :: tr' => S (wins tr')
  | _ :: tr' => wins tr'
  end.

(** What clicks may change: revealed spaces stay revealed, nothing gets
    hidden again, mines and dimensions stay. *)
Record progress (st st' : State) : Prop := {
  pg_width : BOARD_WIDTH st' = BOARD_WIDTH st;
  pg_height : BOARD_HEIGHT st' = BOARD_HEIGHT st;
  pg_mines : TOTAL_MINES st' = TOTAL_MINES st;
  pg_revealed : ∀ x y, type_at st x y = Some EMPTY → type_at st' x y = Some EMPTY;
  pg_hidden : (hidden_count st' <= hidden_count st)%nat;
  pg_pieces : pieces_left st' <= pieces_left st;
  pg_mine_count : mine_count st' = mine_count st
}.

(** The label [RevealEmpty] packs into the frame of a space it reveals:
    none when the count is not positive, else the count in the colour
    chosen branch by branch as in the source.  The widgets are outside
    [State], which is why [RevealEmpty] above does not mention it. *)
Definition label_color (n : Z) : option string :=
  if 0 <? n then
    Some (if n =? 1 then "blue"%string
          else if n =? 2 then "green"%string
          else if n =? 2 then "yellow"%string
          else if n =? 3 then "red"%string
          else if n =? 4 then "#571100"%string
          else if n =? 5 then "magenta"%string
          else "black"%string)
  else None.

(** One column of [n] spaces without a mine, as [Minesweeper.py 1 n 0]
    starts with, and the same board with its first [y] spaces revealed. *)
Definition column_start (n : nat) : State := startup [1; Z.of_nat n; 0] None.

Definition revealed_blank : Space := {| type := EMPTY; count := 0; flag := false |}.

Definition column_below (n y : nat) : State :=
  with_spaces [replicate y revealed_blank ++ replicate (n - y) blank]
    (column_start n).

(** [demo_board] after [RevealEmpty] on the space [(0, 2)]. *)
Definition demo_revealed : State :=
  Eval vm_compute in state_of (RevealEmpty 8 0 2 demo_board) demo_board.

(** Left clicks on the spaces of [l], one after the other. *)
Definition clicks (l : list (Z * Z)) : list Action :=
  map (λ p, LeftClick p.1 p.2) l.

(** No hidden space that is not a mine carries a flag. *)
Definition no_hidden_flag (st : State) : Prop :=
  ∀ x y c, space_at st x y = Some c → type c = HIDDEN → flag c = false.

Definition is_raised {A} (o : outcome A) : bool :=
  match o with Raised _ => true | _ => false end.

(** What [GenerateBoard] returns when the mines fit: a board of the
    recorded size with [TOTAL_MINES] mines, every other space hidden,
    no flag, baby mode off, and [pieces_left] set to the number of spaces
    without a mine. *)
Record new_game (st st' : State) : Prop := {
  ng_width : BOARD_WIDTH st' = BOARD_WIDTH st;
  ng_height : BOARD_HEIGHT st' = BOARD_HEIGHT st;
  ng_mines : TOTAL_MINES st' = TOTAL_MINES st;
  ng_wf : wf st';
  ng_mine_count : Z.of_nat (mine_count st') = TOTAL_MINES st;
  ng_hidden : Z.of_nat (hidden_count st') =
                BOARD_WIDTH st * BOARD_HEIGHT st - TOTAL_MINES st;
  ng_pieces : pieces_left st' =
                BOARD_WIDTH st * BOARD_HEIGHT st - TOTAL_MINES st;
  ng_revealed : revealed_count st' = 0%nat;
  ng_flags : ∀ x y c, space_at st' x y = Some c → flag c = false;
  ng_baby : babymode st' = false;
  ng_trace : ∃ l, Z.of_nat (length l) = TOTAL_MINES st ∧
               trace st' = trace st ++ placements (PRINT_DEBUG_INFO st) l
}.

(** [pieces_left] is above the number of hidden spaces and the board has
    no mine: no reveal can bring [pieces_left] down to 0. *)
Definition unwinnable (st : State) : Prop :=
  mine_count st = 0%nat ∧ Z.of_nat (hidden_count st) < pieces_left st.

(** The space at [(x, y)] carries no flag. *)
Definition unflagged (st : State) (x y : Z) : Prop :=
  ∃ c, space_at st x y = Some c ∧ flag c = false.

(** The hidden spaces that left clicks on the spaces of [l] get to: those
    [RevealEmpty] walks to from a space of [l] that carries no flag. *)
Definition swept (st : State) (l : list (Z * Z)) (a b : Z) : Prop :=
  ∃ p, p ∈ l ∧ unflagged st p.1 p.2 ∧ reach st p.1 p.2 a b.

(** The space an action is aimed at. *)
Definition target (a : Action) : Z * Z :=
  match a with LeftClick x y => (x, y) | RightClick x y => (x, y) end.

(** ** The recursion limit

    The interpreter allows a bounded number of nested calls and raises
    [RecursionError] on the call that would exceed it.  Nothing in the
    program catches the exception: the calls of [RevealEmpty] under way
    are abandoned where they stand, after their space was marked and
    before [pieces_left] is decremented, and the main loop of Tk, which
    called the handler, reports the error and goes on with the globals as
    they are.  [limit] is the number of nested calls of [RevealEmpty] there
    is room for when a handler calls it; the calls that [RevealEmpty]
    makes into Tk are taken to fit wherever the call itself fits.  What
    a call does within that room is what [RevealEmpty] does with that
    much fuel. *)
Inductive limited :=
| Returns (st : State)
| Raises (e : exn) (st : State).

(** The globals after the call, returned or abandoned. *)
Definition settle (r : limited) : State :=
  match r with Returns st => st | Raises _ st => st end.

Fixpoint each_limited (f : Z → Z → State → limited) (l : list (Z * Z))
    (st : State) : limited :=
  match l with
  | [] => Returns st
  | (a, b) :: l' =>
    match f a b st with
    | Returns st' => each_limited f l' st'
    | Raises e st' => Raises e st'
    end
  end.

(** [RevealEmpty] with room for [limit] nested calls. *)
Fixpoint RevealEmpty_limited (limit : nat) (x y : Z) (st : State) : limited :=
  match limit with
  | O => Raises RecursionError st
  | S limit' =>
    if in_board st x y then
      match piece_at (spaces st) x y with
      | Done (i, j, piece) =>
        if decide (type piece = HIDDEN) then
          let st1 := if flag piece then assign (i, j) (set_flag false) st else st in
          let st2 := assign (i, j) (set_type EMPTY) st1 in
          match (if 0 <? count piece then Returns st2
                 else each_limited (RevealEmpty_limited limit') (around x y) st2) with
          | Returns st3 =>
            let st4 := with_pieces_left (pieces_left st3 - 1) st3 in
            if pieces_left st4 <=? 0 then Returns (GameWin st4) else Returns st4
          | Raises e st3 => Raises e st3
          end
        else Returns st
      | _ => Raises IndexError st
      end
    else Returns st
  end.

(** [ClickSpace] and [RightClickSpace] as Tk calls them. *)
Definition ClickSpace_limited (limit : nat) (x y : Z) (st : State) : limited :=
  match piece_at (spaces st) x y with
  | Done (_, _, piece) =>
    if flag piece then Returns st
    else if decide (type piece = MINE) then Returns (GameOver x y st)
    else if decide (type piece = HIDDEN) then RevealEmpty_limited limit x y st
    else Returns st
  | _ => Raises IndexError st
  end.

Definition act_limited (limit : nat) (a : Action) (st : State) : limited :=
  match a with
  | LeftClick x y => ClickSpace_limited limit x y st
  | RightClick x y =>
    match RightClickSpace x y st with
    | Done st' => Returns st'
    | _ => Raises IndexError st
    end
  end.

(** A sequence of clicks: after a click that raised, the next one finds
    the globals as the abandoned call left them. *)
Fixpoint play_limited (limit : nat) (acts : list Action) (st : State) : State :=
  match acts with
  | [] => st
  | a :: acts' => play_limited limit acts' (settle (act_limited limit a st))
  end.

(** Every click of the sequence returned. *)
Fixpoint all_return (limit : nat) (acts : list Action) (st : State) : Prop :=
  match acts with
  | [] => True
  | a :: acts' =>
    (∃ st', act_limited limit a st = Returns st') ∧
    all_return limit acts' (settle (act_limited limit a st))
  end.

(** A call within its room does what the same call does on that much
    fuel: the same return, the same exception, and [RecursionError] where
    the fuel runs out. *)
Definition agrees (o : outcome State) (r : limited) : Prop :=
  match o with
  | Done st' => r = Returns st'
  | Raised e => ∃ s, r = Raises e s
  | OutOfFuel => ∃ s, r = Raises RecursionError s
  end.

(** By how much [pieces_left] is above the number of hidden spaces that
    are not mines. *)
Definition surplus (st : State) : Z :=
  pieces_left st - Z.of_nat (hidden_count st).

(** What holds of the state an abandoned call leaves. *)
Definition abandoned (st st' : State) : Prop :=
  grows st st' ∧ surplus st <= surplus st' ∧ pieces_left st' <= pieces_left st.

(** ** Leaving a dialog

    Both dialogs take the grab ([grab_set]): as long as one is open the
    board gets no click.  [GameOver] binds its three buttons and, with
    [top.protocol('WM_DELETE_WINDOW', ...)], the close button of its
    window; [GameWin] binds its two buttons and nothing else, so that the
    close button of its window does what Tk does on its own: it destroys
    the dialog, which ends the grab.  The result is the game that goes
    on, if any: [None] stands for [sys.exit()]. *)
Inductive GameOverExit := Retry | GiveUp | BabyMode | CloseGameOver.
Inductive GameWinExit := NewGameButton | Quit | CloseGameWin.

Definition leave_GameOver (rng : nat → Z) (fuel : nat) (e : GameOverExit)
    (st : State) : outcome (option State) :=
  match e with
  | Retry | CloseGameOver => st' ← GenerateBoard rng fuel st; Done (Some st')
  | GiveUp => Done None
  | BabyMode => Done (Some (SetBabyMode st))
  end.

Definition leave_GameWin (rng : nat → Z) (fuel : nat) (e : GameWinExit)
    (st : State) : outcome (option State) :=
  match e with
  | NewGameButton => st' ← GenerateBoard rng fuel st; Done (Some st')
  | Quit => Done None
  | CloseGameWin => Done (Some st)
  end.

(** * Properties *)

Arguments each : simpl never.
Arguments around : simpl never.

(** ** Subscripts and updates *)

Lemma bind_Done {A B} (m : outcome A) (f : A → outcome B) b :
  m ≫= f = Done b → ∃ a, m = Done a ∧ f a = Done b.
Proof. destruct m; simpl; intros; eauto; discriminate. Qed.

Lemma index_Some {A} (l : list A) i :
  0 <= i < Z.of_nat (length l) → index l i = Some (Z.to_nat i).
Proof.
  intros H. unfold index.
  destruct (0 <=? i) eqn:E1; [|lia].
  destruct (i <? Z.of_nat (length l)) eqn:E2; [done|lia].
Qed.

Lemma getitem_lookup {A} (l : list A) i k a :
  getitem l i = Done (k, a) → l !! k = Some a.
Proof.
  unfold getitem. destruct (index l i) as [n|]; [|done].
  destruct (l !! n) eqn:E; [|done]. by intros [= <- <-].
Qed.

Lemma getitem_nonneg {A} (l : list A) i a :
  0 <= i → l !! Z.to_nat i = Some a → getitem l i = Done (Z.to_nat i, a).
Proof.
  intros Hi Hl. unfold getitem. rewrite index_Some.
  - by rewrite Hl.
  - apply lookup_lt_Some in Hl. lia.
Qed.

Lemma piece_at_lookup sp x y i j c :
  piece_at sp x y = Done (i, j, c) →
  ∃ col, sp !! i = Some col ∧ col !! j = Some c.
Proof.
  unfold piece_at. intros H.
  apply bind_Done in H as ([i' col] & H1 & H).
  apply bind_Done in H as ([j' c'] & H2 & H).
  injection H as <- <- <-.
  exists col. split; eapply getitem_lookup; eauto.
Qed.

Lemma cell_Some sp x y c :
  cell sp x y = Some c →
  0 <= x ∧ 0 <= y ∧ piece_at sp x y = Done (Z.to_nat x, Z.to_nat y, c).
Proof.
  unfold cell. destruct (0 <=? x) eqn:Ex; [|done].
  destruct (0 <=? y) eqn:Ey; [|done]. simpl.
  destruct (sp !! Z.to_nat x) as [col|] eqn:Ec; [|done]. simpl. intros Hc.
  split; [lia|]. split; [lia|].
  unfold piece_at. rewrite (getitem_nonneg sp x col) by (done || lia). simpl.
  by rewrite (getitem_nonneg col y c) by (done || lia).
Qed.

Lemma space_at_Some st x y c :
  space_at st x y = Some c →
  in_board st x y = true ∧ 0 <= x ∧ 0 <= y ∧
  piece_at (spaces st) x y = Done (Z.to_nat x, Z.to_nat y, c).
Proof.
  unfold space_at. destruct (in_board st x y); [|done].
  intros H. split; [done|]. by apply cell_Some.
Qed.

Lemma in_board_bounds st x y :
  in_board st x y = true ↔
  0 <= x < BOARD_WIDTH st ∧ 0 <= y < BOARD_HEIGHT st.
Proof.
  unfold in_board. rewrite !andb_true_iff. lia.
Qed.

Lemma rect_space_at st x y :
  rect st → in_board st x y = true → is_Some (space_at st x y).
Proof.
  intros [Hw Hh] Hb. unfold space_at. rewrite Hb.
  apply in_board_bounds in Hb. unfold cell.
  destruct (0 <=? x) eqn:Ex; [|lia]. destruct (0 <=? y) eqn:Ey; [|lia]. simpl.
  destruct (lookup_lt_is_Some_2 (spaces st) (Z.to_nat x)) as [col Hc]; [lia|].
  rewrite Hc. simpl. apply lookup_lt_is_Some_2.
  rewrite Forall_lookup in Hh. rewrite (Hh _ _ Hc). lia.
Qed.

Lemma cell_update sp x y f a b :
  0 <= x → 0 <= y →
  cell (update (Z.to_nat x, Z.to_nat y) f sp) a b =
  if decide (a = x ∧ b = y) then f <$> cell sp a b else cell sp a b.
Proof.
  intros Hx Hy. unfold cell, update. simpl.
  destruct (0 <=? a) eqn:Ea; [|by case_decide].
  destruct (0 <=? b) eqn:Eb; [|by case_decide]. simpl.
  destruct (decide (Z.to_nat a = Z.to_nat x)) as [E|E].
  - rewrite E, list_lookup_alter_eq.
    destruct (sp !! Z.to_nat x) as [col|]; simpl; [|by case_decide].
    destruct (decide (Z.to_nat b = Z.to_nat y)) as [E'|E'].
    + rewrite E', list_lookup_alter_eq.
      rewrite decide_True by lia. done.
    + rewrite list_lookup_alter_ne by done.
      rewrite decide_False by lia. done.
  - rewrite list_lookup_alter_ne by done.
    rewrite decide_False by lia. done.
Qed.

Lemma update_length r f sp : length (update r f sp) = length sp.
Proof. apply length_alter. Qed.

Lemma update_columns r f sp n :
  Forall (λ col, length col = n) sp →
  Forall (λ col, length col = n) (update r f sp).
Proof.
  unfold update. rewrite !Forall_lookup. intros H i col.
  destruct (decide (r.1 = i)) as [<-|E].
  - rewrite list_lookup_alter_eq.
    destruct (sp !! r.1) as [col'|] eqn:Ec; [|done]. simpl.
    intros [= <-]. rewrite length_alter. eauto.
  - rewrite list_lookup_alter_ne by done. eauto.
Qed.

(** ** Counting *)

Lemma count_if_alter p f (l : list Space) j c :
  l !! j = Some c →
  Z.of_nat (count_if p (alter f j l)) =
  Z.of_nat (count_if p l) - b2z (p c) + b2z (p (f c)).
Proof.
  revert j. induction l as [|a l IH]; intros [|j] H; simplify_eq/=.
  - destruct (p c), (p (f c)); simpl; lia.
  - specialize (IH _ H). destruct (p a); lia.
Qed.

Lemma tally_update p f sp i j col c :
  sp !! i = Some col → col !! j = Some c →
  Z.of_nat (tally p (update (i, j) f sp)) =
  Z.of_nat (tally p sp) - b2z (p c) + b2z (p (f c)).
Proof.
  unfold update. simpl. revert i.
  induction sp as [|a sp IH]; intros [|i] H Hc; simplify_eq/=.
  - pose proof (count_if_alter p f col j c Hc). lia.
  - specialize (IH _ H Hc). lia.
Qed.

Lemma count_if_le p l : (count_if p l <= length l)%nat.
Proof. induction l as [|a l IH]; simpl; [lia|]. destruct (p a); lia. Qed.

Lemma tally_le p sp n :
  Forall (λ col, length col = n) sp → (tally p sp <= length sp * n)%nat.
Proof.
  induction 1 as [|col sp Hc _ IH]; simpl; [lia|].
  pose proof (count_if_le p col). lia.
Qed.

(** ** Reveal steps *)

Lemma space_step_refl a : space_step a a.
Proof. by left. Qed.

Lemma space_step_trans a b c : space_step a b → space_step b c → space_step a c.
Proof.
  intros [->|[Ha ->]] [->|[Hb ->]]; unfold space_step; auto.
Qed.

Lemma board_step_refl sp : board_step sp sp.
Proof.
  unfold board_step. apply Forall_Forall2_diag, Forall_forall. intros col _.
  apply Forall_Forall2_diag, Forall_forall. intros c _. apply space_step_refl.
Qed.

Lemma board_step_trans sp1 sp2 sp3 :
  board_step sp1 sp2 → board_step sp2 sp3 → board_step sp1 sp3.
Proof.
  unfold board_step. intros H12 H23.
  eapply Forall2_trans; [|exact H12|exact H23].
  intros c1 c2 c3 Ha Hb. eapply Forall2_trans; [|exact Ha|exact Hb].
  apply space_step_trans.
Qed.

Lemma board_step_update sp i j col c f :
  sp !! i = Some col → col !! j = Some c → space_step c (f c) →
  board_step sp (update (i, j) f sp).
Proof.
  intros Hi Hj Hs. unfold board_step, update. simpl.
  apply Forall2_alter_r.
  - apply board_step_refl.
  - intros c1 c2 H1 H2 _. simplify_eq.
    apply Forall2_alter_r.
    + apply Forall_Forall2_diag, Forall_forall. intros ? _. apply space_step_refl.
    + intros a1 a2 Ha1 Ha2 _. simplify_eq. done.
Qed.

Lemma board_step_cell sp sp' a b :
  board_step sp sp' → option_Forall2 space_step (cell sp a b) (cell sp' a b).
Proof.
  intros H. unfold cell.
  destruct ((0 <=? a) && (0 <=? b)); [|constructor].
  destruct (sp !! Z.to_nat a) as [col|] eqn:E.
  - destruct (Forall2_lookup_l _ _ _ _ _ H E) as (col' & E' & Hc).
    rewrite E'. simpl.
    destruct (col !! Z.to_nat b) as [c|] eqn:F.
    + destruct (Forall2_lookup_l _ _ _ _ _ Hc F) as (c' & F' & Hs).
      rewrite F'. by constructor.
    + apply lookup_ge_None in F. rewrite (Forall2_length _ _ _ Hc) in F.
      apply lookup_ge_None in F. rewrite F. constructor.
  - apply lookup_ge_None in E. rewrite (Forall2_length _ _ _ H) in E.
    apply lookup_ge_None in E. rewrite E. constructor.
Qed.

Lemma fresh_hidden_column l l' :
  Forall2 space_step l l' →
  (fresh_in_column l l' + count_if is_hidden l' = count_if is_hidden l)%nat ∧
  count_if is_mine l' = count_if is_mine l.
Proof.
  induction 1 as [|a b l l' Hs _ [IH1 IH2]]; simpl; [done|].
  rewrite IH2. destruct Hs as [->|[Ha ->]].
  - split; [|done]. destruct a as [[] n f]; cbn; lia.
  - destruct a as [[] n f]; simplify_eq/=. cbn. split; lia.
Qed.

Lemma newly_revealed_hidden sp sp' :
  board_step sp sp' →
  (newly_revealed sp sp' + tally is_hidden sp' = tally is_hidden sp)%nat ∧
  tally is_mine sp' = tally is_mine sp.
Proof.
  induction 1 as [|a b l l' Hs _ [IH1 IH2]]; simpl; [done|].
  destruct (fresh_hidden_column _ _ Hs) as [H1 H2]. lia.
Qed.

Lemma board_step_rect st st' :
  BOARD_WIDTH st' = BOARD_WIDTH st → BOARD_HEIGHT st' = BOARD_HEIGHT st →
  board_step (spaces st) (spaces st') → rect st → rect st'.
Proof.
  intros Hw Hh Hb [Hl Hc]. split.
  - rewrite Hw, <- Hl. symmetry. eapply Forall2_length, Hb.
  - rewrite Hh. rewrite Forall_lookup in Hc |- *. intros i col' Hi.
    destruct (Forall2_lookup_r _ _ _ _ _ Hb Hi) as (col & Hi' & Hcc).
    rewrite <- (Hc _ _ Hi'). symmetry. eapply Forall2_length, Hcc.
Qed.

Lemma reveals_refl st : reveals st st.
Proof.
  split; try done.
  - apply board_step_refl.
  - lia.
  - exists 0%nat. simpl. by rewrite app_nil_r.
Qed.

Lemma reveals_trans st1 st2 st3 :
  reveals st1 st2 → reveals st2 st3 → reveals st1 st3.
Proof.
  intros H12 H23. destruct H12, H23. split; try congruence.
  - eapply board_step_trans; eauto.
  - lia.
  - destruct rv_trace0 as [k1 E1], rv_trace1 as [k2 E2].
    exists (k1 + k2)%nat. rewrite E2, E1, <- app_assoc.
    by rewrite replicate_add.
Qed.

Lemma reveals_rect st st' : reveals st st' → rect st → rect st'.
Proof. intros []. by apply board_step_rect. Qed.

Lemma each_reveals f l :
  (∀ a b st st', f a b st = Done st' → reveals st st') →
  ∀ st st', each f l st = Done st' → reveals st st'.
Proof.
  intros Hf. induction l as [|[a b] l IH]; simpl; intros st st' H.
  - injection H as <-. apply reveals_refl.
  - apply bind_Done in H as (st1 & H1 & H).
    eapply reveals_trans; eauto.
Qed.

Lemma piece_at_nonneg sp x y i j c :
  0 <= x → 0 <= y → piece_at sp x y = Done (i, j, c) →
  i = Z.to_nat x ∧ j = Z.to_nat y ∧ cell sp x y = Some c.
Proof.
  intros Hx Hy H. unfold piece_at in H.
  apply bind_Done in H as ([i' col] & H1 & H).
  apply bind_Done in H as ([j' c'] & H2 & H). injection H as -> -> ->.
  assert (Hidx : ∀ A (l : list A) z k a, 0 <= z → getitem l z = Done (k, a) →
                 k = Z.to_nat z ∧ l !! Z.to_nat z = Some a).
  { intros A l z k a Hz. unfold getitem, index.
    destruct (0 <=? z) eqn:E; [|lia]. simpl.
    destruct (z <? Z.of_nat (length l)); simpl.
    - destruct (l !! Z.to_nat z) eqn:El; [|done]. by intros [= <- <-].
    - destruct (z <? 0) eqn:E'; [lia|]. by rewrite andb_false_r. }
  destruct (Hidx _ _ _ _ _ Hx H1) as [-> Hc].
  destruct (Hidx _ _ _ _ _ Hy H2) as [-> Hd].
  split; [done|]. split; [done|]. unfold cell.
  destruct (0 <=? x) eqn:E1; [|lia]. destruct (0 <=? y) eqn:E2; [|lia].
  simpl. rewrite Hc. done.
Qed.

Lemma update_twice r f g sp :
  update r f (update r g sp) = update r (f ∘ g) sp.
Proof.
  unfold update. rewrite list_alter_alter_eq.
  apply list_alter_ext; [|done]. intros col _. apply list_alter_alter_eq.
Qed.

(** Marking a hidden space as revealed, as [RevealEmpty] does before it
    looks at the count. *)
Lemma mark_step st i j col c :
  spaces st !! i = Some col → col !! j = Some c → type c = HIDDEN →
  let st2 := assign (i, j) (set_type EMPTY)
               (if flag c then assign (i, j) (set_flag false) st else st) in
  board_step (spaces st) (spaces st2) ∧
  Z.of_nat (hidden_count st2) = Z.of_nat (hidden_count st) - 1.
Proof.
  intros Hi Hj Hc. simpl.
  destruct (flag c) eqn:F; unfold hidden_count; simpl.
  - assert (H1 : update (i, j) (set_flag false) (spaces st) !! i
                 = Some (alter (set_flag false) j col)).
    { unfold update. simpl. by rewrite list_lookup_alter_eq, Hi. }
    assert (H2 : alter (set_flag false) j col !! j = Some (set_flag false c)).
    { by rewrite list_lookup_alter_eq, Hj. }
    split.
    + eapply board_step_trans.
      * eapply (board_step_update _ _ _ _ _ (set_type EMPTY ∘ set_flag false)); eauto.
        right. done.
      * rewrite update_twice. apply board_step_refl.
    + rewrite (tally_update _ _ _ _ _ _ _ H1 H2).
      rewrite (tally_update _ _ _ _ _ _ _ Hi Hj).
      unfold is_hidden. simpl. rewrite Hc. simpl. lia.
  - split.
    + eapply board_step_update; eauto. right. split; [done|].
      unfold set_type. by rewrite F.
    + rewrite (tally_update _ _ _ _ _ _ _ Hi Hj).
      unfold is_hidden. simpl. rewrite Hc. simpl. lia.
Qed.

Lemma RevealEmpty_S fuel x y st :
  RevealEmpty (S fuel) x y st =
  if in_board st x y then
    '(i, j, piece) ← piece_at (spaces st) x y;
    if decide (type piece = HIDDEN) then
      let st1 := if flag piece then assign (i, j) (set_flag false) st else st in
      let st2 := assign (i, j) (set_type EMPTY) st1 in
      st3 ← (if 0 <? count piece then Done st2
             else each (RevealEmpty fuel) (around x y) st2);
      let st4 := with_pieces_left (pieces_left st3 - 1) st3 in
      if pieces_left st4 <=? 0 then Done (GameWin st4) else Done st4
    else Done st
  else Done st.
Proof. reflexivity. Qed.

Lemma RevealEmpty_reveals fuel :
  ∀ x y st st', RevealEmpty fuel x y st = Done st' → reveals st st'.
Proof.
  induction fuel as [|fuel IH]; intros x y st st' H; [done|].
  rewrite RevealEmpty_S in H. destruct (in_board st x y) eqn:Hb;
    [|injection H as <-; apply reveals_refl].
  apply bind_Done in H as ([[i j] c] & Hp & H).
  destruct (decide (type c = HIDDEN)) as [Hc|Hc];
    [|injection H as <-; apply reveals_refl].
  apply bind_Done in H as (st3 & H3 & H).
  apply piece_at_lookup in Hp as (col & Hi & Hj).
  destruct (mark_step st i j col c Hi Hj Hc) as [Hs Hh].
  set (st2 := assign (i, j) (set_type EMPTY)
                (if flag c then assign (i, j) (set_flag false) st else st)) in *.
  assert (Hcfg : BOARD_WIDTH st2 = BOARD_WIDTH st ∧ BOARD_HEIGHT st2 = BOARD_HEIGHT st ∧
                 TOTAL_MINES st2 = TOTAL_MINES st ∧
                 PRINT_DEBUG_INFO st2 = PRINT_DEBUG_INFO st ∧
                 babymode st2 = babymode st ∧ draws st2 = draws st ∧
                 pieces_left st2 = pieces_left st ∧ trace st2 = trace st).
  { subst st2. by destruct (flag c). }
  destruct Hcfg as (C1 & C2 & C3 & C4 & C5 & C6 & C7 & C8).
  assert (R23 : reveals st2 st3).
  { destruct (0 <? count c); [injection H3 as <-; apply reveals_refl|].
    eapply (each_reveals (RevealEmpty fuel)); [exact IH|exact H3]. }
  destruct R23 as [D1 D2 D3 D4 D5 D6 D7 D8 [k D9]].
  assert (R : reveals st (with_pieces_left (pieces_left st3 - 1) st3)).
  { split; simpl; try congruence.
    - eapply board_step_trans; eauto.
    - unfold hidden_count in *. simpl. lia.
    - exists k. congruence. }
  cbn [with_pieces_left pieces_left] in H.
  destruct (pieces_left st3 - 1 <=? 0); injection H as <-; [|done].
  eapply reveals_trans; [exact R|].
  split; simpl; try done.
  - apply board_step_refl.
  - unfold hidden_count. simpl. lia.
  - by exists 1%nat.
Qed.

Lemma reveals_hidden_le st st' :
  reveals st st' → (hidden_count st' <= hidden_count st)%nat.
Proof.
  intros [_ _ _ _ _ _ Hb _ _]. unfold hidden_count.
  destruct (newly_revealed_hidden _ _ Hb). lia.
Qed.

(** ** The reveal returns

    The recursion is never deeper than the number of hidden spaces. *)

Lemma each_RevealEmpty_total fuel :
  (∀ x y st, rect st → (hidden_count st < fuel)%nat →
     ∃ st', RevealEmpty fuel x y st = Done st') →
  ∀ l st, rect st → (hidden_count st < fuel)%nat →
    ∃ st', each (RevealEmpty fuel) l st = Done st'.
Proof.
  intros IH. induction l as [|[a b] l IHl]; intros st Hr Hf; [by eexists|].
  destruct (IH a b st Hr Hf) as [st1 H1].
  change (∃ st', RevealEmpty fuel a b st ≫= each (RevealEmpty fuel) l = Done st').
  rewrite H1. simpl.
  apply RevealEmpty_reveals in H1.
  apply IHl.
  - by eapply reveals_rect.
  - apply reveals_hidden_le in H1. lia.
Qed.

Lemma RevealEmpty_total fuel :
  ∀ x y st, rect st → (hidden_count st < fuel)%nat →
    ∃ st', RevealEmpty fuel x y st = Done st'.
Proof.
  induction fuel as [|fuel IH]; intros x y st Hr Hf; [lia|].
  rewrite RevealEmpty_S. destruct (in_board st x y) eqn:Hb; [|by eexists].
  destruct (rect_space_at st x y Hr Hb) as [c Hc].
  apply space_at_Some in Hc as (_ & Hx & Hy & Hp). rewrite Hp. simpl.
  destruct (decide (type c = HIDDEN)) as [Ht|]; [|by eexists].
  apply piece_at_lookup in Hp as (col & Hi & Hj).
  destruct (mark_step st _ _ col c Hi Hj Ht) as [Hs Hh].
  set (st2 := assign _ (set_type EMPTY) _) in *.
  assert (∃ st3, (if 0 <? count c then Done st2
                  else each (RevealEmpty fuel) (around x y) st2) = Done st3)
    as [st3 ->].
  { destruct (0 <? count c); [by eexists|].
    apply each_RevealEmpty_total; [exact IH| |lia].
    eapply board_step_rect; [| |exact Hs|exact Hr];
      subst st2; by destruct (flag c). }
  simpl. destruct (_ <=? _); by eexists.
Qed.

(** ** What the reveal walks over *)

Lemma reveals_grows st st' : reveals st st' → grows st st'.
Proof. intros []. by repeat split. Qed.

Lemma grows_refl st : grows st st.
Proof. repeat split. apply board_step_refl. Qed.

Lemma grows_trans st1 st2 st3 : grows st1 st2 → grows st2 st3 → grows st1 st3.
Proof.
  intros (?&?&?) (?&?&?). repeat split; try congruence.
  by eapply board_step_trans.
Qed.

Lemma grows_space_at st st' a b :
  grows st st' → option_Forall2 space_step (space_at st a b) (space_at st' a b).
Proof.
  intros (Hw & Hh & Hb). unfold space_at, in_board. rewrite Hw, Hh.
  destruct (_ && _); [|constructor]. by apply board_step_cell.
Qed.

Lemma grows_hidden st st' a b :
  grows st st' → type_at st' a b = Some HIDDEN →
  space_at st' a b = space_at st a b.
Proof.
  intros Hg. unfold type_at.
  destruct (grows_space_at st st' a b Hg) as [c c' [->|[_ ->]]|]; done.
Qed.

Lemma grows_not_hidden st st' a b :
  grows st st' → type_at st a b ≠ Some HIDDEN → type_at st' a b ≠ Some HIDDEN.
Proof.
  intros Hg Hn Hh. apply Hn. unfold type_at.
  by rewrite <- (grows_hidden st st' a b Hg Hh).
Qed.

Lemma grows_empty st st' a b :
  grows st st' → type_at st a b = Some EMPTY → type_at st' a b = Some EMPTY.
Proof.
  intros Hg. unfold type_at.
  destruct (grows_space_at st st' a b Hg) as [c c' [->|[Hc ->]]|]; simpl;
    done || congruence.
Qed.

Lemma grows_cases st st' a b :
  grows st st' → type_at st a b = Some HIDDEN →
  space_at st' a b = space_at st a b ∨ type_at st' a b = Some EMPTY.
Proof.
  intros Hg. unfold type_at.
  destruct (grows_space_at st st' a b Hg) as [c c' [->|[Hc ->]]|]; simpl; auto.
Qed.

Lemma reach_hidden st x y a b : reach st x y a b → type_at st a b = Some HIDDEN.
Proof. by destruct 1. Qed.

Lemma reach_start st x y a b : reach st x y a b → type_at st x y = Some HIDDEN.
Proof. induction 1; auto. Qed.

Lemma reach_trans st x y a b a' b' :
  reach st x y a b → reach st a b a' b' → reach st x y a' b'.
Proof.
  intros H1 H2. induction H2; [done|]. eapply reach_next; eauto.
Qed.

Lemma reach_grows st st' x y a b :
  grows st st' → reach st' x y a b → reach st x y a b.
Proof.
  intros Hg. induction 1 as [Hh|a b c p Hr IH Hc Hn Hp Hh].
  - apply reach_here. unfold type_at in *.
    by rewrite <- (grows_hidden st st' x y Hg Hh).
  - eapply (reach_next st x y a b c p); auto.
    + rewrite <- Hc. symmetry. apply grows_hidden; [done|].
      by eapply reach_hidden.
    + unfold type_at in *. by rewrite <- (grows_hidden st st' _ _ Hg Hh).
Qed.


Lemma mark_space_at st x y c a b :
  in_board st x y = true → cell (spaces st) x y = Some c →
  space_at (assign (Z.to_nat x, Z.to_nat y) (set_type EMPTY)
              (if flag c then assign (Z.to_nat x, Z.to_nat y) (set_flag false) st
               else st)) a b =
  if decide (a = x ∧ b = y)
  then Some {| type := EMPTY; count := count c; flag := false |}
  else space_at st a b.
Proof.
  intros Hb Hc. pose proof (proj1 (in_board_bounds _ _ _) Hb) as [Hx Hy].
  unfold space_at.
  assert (Hin : ∀ u v, in_board (assign (Z.to_nat x, Z.to_nat y) (set_type EMPTY)
              (if flag c then assign (Z.to_nat x, Z.to_nat y) (set_flag false) st
               else st)) u v = in_board st u v) by (by destruct (flag c)).
  rewrite Hin. destruct (flag c) eqn:F; simpl.
  - rewrite !cell_update by lia.
    case_decide as E; [destruct E as [-> ->]; rewrite Hb, Hc; done|done].
  - rewrite !cell_update by lia.
    case_decide as E; [destruct E as [-> ->]; rewrite Hb, Hc; simpl|done].
    unfold set_type. by rewrite F.
Qed.

Lemma walked_nil st : walked st [] st.
Proof.
  split; [|split].
  - intros p Hp. by apply elem_of_nil in Hp.
  - intros a b [H1 H2]. congruence.
  - intros a b c p [H1 H2]. congruence.
Qed.

Lemma walked_cons st st1 st' a0 b0 l :
  grows st st1 → grows st1 st' →
  walked st [(a0, b0)] st1 → walked st1 l st' → walked st ((a0, b0) :: l) st'.
Proof.
  intros G1 G2 (A1 & A2 & A3) (B1 & B2 & B3).
  assert (Hsplit : ∀ a b, revealed_by st st' a b →
            revealed_by st st1 a b ∨
            (revealed_by st1 st' a b ∧ space_at st1 a b = space_at st a b)).
  { intros a b [H1 H2].
    destruct (grows_cases st st1 a b G1 H1) as [E|E].
    - right. split; [|done]. split; [|done]. unfold type_at. by rewrite E.
    - left. by split. }
  split; [|split].
  - intros p Hp. apply elem_of_cons in Hp as [->|Hp]; [|by apply B1].
    eapply grows_not_hidden; [exact G2|]. apply A1. by apply list_elem_of_singleton.
  - intros a b Hr. destruct (Hsplit a b Hr) as [H|[H _]].
    + destruct (A2 a b H) as (p & Hp & Hq).
      apply list_elem_of_singleton in Hp as ->.
      exists (a0, b0). split; [apply list_elem_of_here|done].
    + destruct (B2 a b H) as (p & Hp & Hq).
      exists p. split; [by apply list_elem_of_further|].
      by eapply reach_grows.
  - intros a b c p Hr Hc Hn Hp. destruct (Hsplit a b Hr) as [H|[H E]].
    + eapply grows_not_hidden; [exact G2|]. eapply A3; eauto.
    + eapply B3; eauto. by rewrite E.
Qed.

Lemma each_RevealEmpty_walked fuel :
  (∀ x y st st', RevealEmpty fuel x y st = Done st' → walked st [(x, y)] st') →
  ∀ l st st', each (RevealEmpty fuel) l st = Done st' → walked st l st'.
Proof.
  intros IH. induction l as [|[a0 b0] l IHl]; intros st st' H.
  - injection H as <-. apply walked_nil.
  - change (RevealEmpty fuel a0 b0 st ≫= each (RevealEmpty fuel) l = Done st') in H.
    apply bind_Done in H as (st1 & H1 & H).
    eapply walked_cons.
    + eapply reveals_grows, RevealEmpty_reveals, H1.
    + eapply reveals_grows, each_reveals, H. apply RevealEmpty_reveals.
    + by apply IH.
    + by apply IHl.
Qed.

Lemma RevealEmpty_walked fuel :
  ∀ x y st st', RevealEmpty fuel x y st = Done st' → walked st [(x, y)] st'.
Proof.
  induction fuel as [|fuel IH]; intros x y st st' H; [done|].
  assert (Hsame : ∀ s, type_at s x y ≠ Some HIDDEN → walked s [(x, y)] s).
  { intros s Hs. destruct (walked_nil s) as (_ & W2 & W3).
    split; [|split].
    - intros p Hp. by apply list_elem_of_singleton in Hp as ->.
    - intros a b [H1 H2]. congruence.
    - exact W3. }
  rewrite RevealEmpty_S in H. destruct (in_board st x y) eqn:Hb.
  2:{ injection H as <-. apply Hsame. unfold type_at, space_at. by rewrite Hb. }
  apply bind_Done in H as ([[i j] c] & Hp & H).
  pose proof (proj1 (in_board_bounds _ _ _) Hb) as [Hx Hy].
  apply piece_at_nonneg in Hp as (-> & -> & Hc); [|lia..].
  assert (Hsp : space_at st x y = Some c) by (unfold space_at; by rewrite Hb).
  destruct (decide (type c = HIDDEN)) as [Ht|Ht].
  2:{ injection H as <-. apply Hsame. unfold type_at. rewrite Hsp. simpl. congruence. }
  apply bind_Done in H as (st3 & H3 & H).
  pose proof (mark_space_at st x y c) as Hm.
  set (st2 := assign _ (set_type EMPTY) _) in *.
  assert (G23 : grows st2 st3).
  { destruct (0 <? count c); [injection H3 as <-; apply grows_refl|].
    eapply reveals_grows, each_reveals, H3. apply RevealEmpty_reveals. }
  assert (E' : ∀ a b, space_at st' a b = space_at st3 a b).
  { intros a b. cbn [with_pieces_left pieces_left] in H.
    destruct (_ <=? _); by injection H as <-. }
  assert (T' : ∀ a b, type_at st' a b = type_at st3 a b).
  { intros a b. unfold type_at. by rewrite E'. }
  assert (Hxy : type_at st3 x y = Some EMPTY).
  { eapply grows_empty; [exact G23|]. unfold type_at.
    rewrite (Hm x y Hb Hc). by rewrite decide_True. }
  assert (Hother : ∀ a b, revealed_by st st' a b → ¬ (a = x ∧ b = y) →
             revealed_by st2 st3 a b ∧ space_at st2 a b = space_at st a b).
  { intros a b [R1 R2] Hne.
    assert (space_at st2 a b = space_at st a b) as E
      by (rewrite (Hm a b Hb Hc); by rewrite decide_False).
    split; [|done]. split; [unfold type_at; by rewrite E|by rewrite <- T']. }
  assert (W : (0 <? count c) = false → walked st2 (around x y) st3).
  { intros Hz. rewrite Hz in H3.
    by apply (each_RevealEmpty_walked fuel IH) in H3. }
  assert (Hpos : (0 <? count c) = true → ∀ a b, ¬ revealed_by st2 st3 a b).
  { intros Hz a b [R1 R2]. rewrite Hz in H3. injection H3 as <-. congruence. }
  split; [|split].
  - intros p Hp. apply list_elem_of_singleton in Hp as ->. simpl.
    rewrite T'. congruence.
  - intros a b Hr. exists (x, y). split; [apply list_elem_of_here|]. simpl.
    assert (Hstart : reach st x y x y).
    { apply reach_here. unfold type_at. rewrite Hsp. simpl. by f_equal. }
    destruct (decide (a = x ∧ b = y)) as [[-> ->]|Hne]; [done|].
    destruct (Hother a b Hr Hne) as [Hr2 _].
    destruct (0 <? count c) eqn:Hz; [by destruct (Hpos eq_refl a b)|].
    destruct (W eq_refl) as (_ & W2 & _).
    destruct (W2 a b Hr2) as (p & Hp & Hq).
    assert (Hq' : reach st p.1 p.2 a b).
    { eapply reach_grows; [|exact Hq]. split; [|split].
      - subst st2. by destruct (flag c).
      - subst st2. by destruct (flag c).
      - apply cell_Some in Hc as (_ & _ & Hpa).
        apply piece_at_lookup in Hpa as (col & Hi & Hj).
        apply (mark_step st _ _ col c Hi Hj Ht). }
    eapply reach_trans; [|exact Hq'].
    eapply (reach_next st x y x y c p); auto; [lia|].
    by eapply reach_start.
  - intros a b c0 p Hr Hc0 Hn Hp. rewrite T'.
    destruct (0 <? count c) eqn:Hz.
    + destruct (decide (a = x ∧ b = y)) as [[-> ->]|Hne].
      * rewrite Hsp in Hc0. injection Hc0 as <-. lia.
      * destruct (Hother a b Hr Hne) as [Hr2 _]. by destruct (Hpos eq_refl a b).
    + destruct (W eq_refl) as (W1 & _ & W3).
      destruct (decide (a = x ∧ b = y)) as [[-> ->]|Hne]; [by apply W1|].
      destruct (Hother a b Hr Hne) as [Hr2 E].
      eapply W3; eauto. by rewrite E.
Qed.

Lemma walked_complete st st' x y :
  grows st st' → walked st [(x, y)] st' →
  ∀ a b, reach st x y a b → type_at st' a b = Some EMPTY.
Proof.
  intros Hg (W1 & _ & W3).
  assert (Hrev : ∀ a b, type_at st a b = Some HIDDEN →
            type_at st' a b ≠ Some HIDDEN → type_at st' a b = Some EMPTY).
  { intros a b Hh Hn. destruct (grows_cases st st' a b Hg Hh) as [E|E]; [|done].
    exfalso. apply Hn. unfold type_at in *. by rewrite E. }
  induction 1 as [Hh|a b c p Hr IH Hc Hn Hp Hh].
  - apply Hrev; [done|]. apply (W1 (x, y)), list_elem_of_here.
  - apply Hrev; [done|]. eapply W3; eauto. split; [|done]. by eapply reach_hidden.
Qed.

(** [RevealEmpty] reveals the spaces it can walk to, and nothing else
    changes on the board. *)
Lemma RevealEmpty_exact fuel x y st st' :
  RevealEmpty fuel x y st = Done st' →
  ∀ a b, type_at st' a b = Some EMPTY ↔
         type_at st a b = Some EMPTY ∨ reach st x y a b.
Proof.
  intros H a b.
  pose proof (reveals_grows _ _ (RevealEmpty_reveals _ _ _ _ _ H)) as Hg.
  pose proof (RevealEmpty_walked _ _ _ _ _ H) as Hw.
  split.
  - intros He. destruct (type_at st a b) as [[]|] eqn:Ht.
    + right. destruct Hw as (_ & W2 & _).
      destruct (W2 a b) as (p & Hp & Hq); [by split|].
      by apply list_elem_of_singleton in Hp as ->.
    + by left.
    + exfalso. unfold type_at in *.
      destruct (grows_space_at st st' a b Hg) as [c c' [->|[Hc ->]]|];
        simplify_eq/=; congruence.
    + exfalso. unfold type_at in *.
      destruct (grows_space_at st st' a b Hg); simplify_eq/=.
  - intros [He|Hr]; [by eapply grows_empty|by eapply walked_complete].
Qed.

Lemma grows_mine st st' a b :
  grows st st' → type_at st a b = Some MINE →
  space_at st' a b = space_at st a b.
Proof.
  intros Hg. unfold type_at.
  destruct (grows_space_at st st' a b Hg) as [c c' [->|[Hc ->]]|]; simpl;
    done || congruence.
Qed.

(** ** Neighbours *)

Lemma elem_of_around p x y :
  p ∈ around x y ↔
  x - 1 <= p.1 <= x + 1 ∧ y - 1 <= p.2 <= y + 1 ∧ (p.1 ≠ x ∨ p.2 ≠ y).
Proof.
  destruct p as [a b]. unfold around. simpl. split.
  - rewrite !elem_of_cons, elem_of_nil. intros H.
    repeat destruct H as [H|H]; try done; simplify_eq; lia.
  - intros (Ha & Hb & Hne).
    assert (a = x - 1 ∨ a = x ∨ a = x + 1) as [-> | [-> | ->]] by lia;
    assert (b = y - 1 ∨ b = y ∨ b = y + 1) as [-> | [-> | ->]] by lia;
    try (exfalso; lia);
    repeat first [apply list_elem_of_here | apply list_elem_of_further].
Qed.

Lemma around_sym a b p : p ∈ around a b → (a, b) ∈ around p.1 p.2.
Proof. rewrite !elem_of_around. simpl. lia. Qed.

Lemma mines_among_nonneg st l :
  0 <= foldr (λ p n, (if mine_at st p.1 p.2 then 1 else 0) + n) 0 l.
Proof. induction l as [|p l IH]; simpl; [lia|]. destruct (mine_at _ _ _); lia. Qed.

Lemma mines_among_pos st l p :
  p ∈ l → mine_at st p.1 p.2 = true →
  1 <= foldr (λ p n, (if mine_at st p.1 p.2 then 1 else 0) + n) 0 l.
Proof.
  intros Hp Hm. induction Hp as [p l|p q l Hp IH]; simpl.
  - rewrite Hm. pose proof (mines_among_nonneg st l). lia.
  - specialize (IH Hm). destruct (mine_at st q.1 q.2); lia.
Qed.

Lemma counts_ok_nonneg st x y c :
  counts_ok st → space_at st x y = Some c → 0 <= count c.
Proof.
  intros Hk Hc. rewrite (Hk _ _ _ Hc). apply mines_among_nonneg.
Qed.

(** A neighbour of a space with count 0 is not a mine. *)
Lemma zero_no_mine st x y c p :
  counts_ok st → space_at st x y = Some c → count c <= 0 → p ∈ around x y →
  type_at st p.1 p.2 ≠ Some MINE.
Proof.
  intros Hk Hc Hz Hp Hm. rewrite (Hk _ _ _ Hc) in Hz.
  pose proof (mines_among_pos st (around x y) p Hp) as H.
  unfold mines_around in Hz. unfold mine_at, type_at in *.
  destruct (space_at st p.1 p.2) as [[[] ? ?]|]; simplify_eq/=.
  specialize (H eq_refl). lia.
Qed.

(** ** The cascade is the zero region and its border *)

Lemma zero_region_zero st x y a b :
  zero_region st x y a b → ∃ c, space_at st a b = Some c ∧ count c = 0.
Proof. destruct 1; eauto. Qed.

Lemma type_at_Some st a b t :
  type_at st a b = Some t → ∃ c, space_at st a b = Some c ∧ type c = t.
Proof.
  unfold type_at. destruct (space_at st a b) as [c|]; [|done].
  intros [= <-]. eauto.
Qed.

(** On a well-formed board the neighbours of a hidden space of the walk
    whose count is 0 are revealed already or walked to. *)
Lemma reach_neighbour st x y a b c p cp :
  counts_ok st → closed st →
  reach st x y a b → space_at st a b = Some c → count c = 0 →
  p ∈ around a b → space_at st p.1 p.2 = Some cp →
  (type cp = EMPTY ∧ 0 < count cp) ∨ reach st x y p.1 p.2.
Proof.
  intros Hk Hcl Hr Hc Hz Hp Hcp.
  destruct (type cp) eqn:Ht.
  - right. eapply (reach_next st x y a b c p); eauto; [lia|].
    unfold type_at. rewrite Hcp. simpl. by f_equal.
  - destruct (decide (0 < count cp)) as [|Hn]; [by left|]. exfalso.
    apply (Hcl p.1 p.2 cp (a, b)); auto; [lia|by apply around_sym|].
    by eapply reach_hidden.
  - exfalso. eapply (zero_no_mine st a b c p); eauto; [lia|].
    unfold type_at. rewrite Hcp. simpl. by f_equal.
Qed.

Lemma zero_region_reach st x y :
  counts_ok st → closed st → type_at st x y = Some HIDDEN →
  ∀ a b, zero_region st x y a b → reach st x y a b.
Proof.
  intros Hk Hcl Hh. induction 1 as [c Hc Hz|a b c p Hr IH Hp Hc Hz].
  - by apply reach_here.
  - destruct (zero_region_zero _ _ _ _ _ Hr) as (c0 & Hc0 & Hz0).
    destruct (reach_neighbour st x y a b c0 p c Hk Hcl IH Hc0 Hz0 Hp Hc)
      as [[_ Hpos]|]; [lia|done].
Qed.

Lemma cascade_reach st x y a b :
  counts_ok st → closed st → type_at st x y = Some HIDDEN →
  cascade st x y a b → type_at st a b = Some EMPTY ∨ reach st x y a b.
Proof.
  intros Hk Hcl Hh [Hz|(a0 & b0 & c & Hz & Hp & Hc & Hpos)].
  - right. by apply zero_region_reach.
  - destruct (zero_region_zero _ _ _ _ _ Hz) as (c0 & Hc0 & Hz0).
    pose proof (zero_region_reach st x y Hk Hcl Hh _ _ Hz) as Hr.
    destruct (reach_neighbour st x y a0 b0 c0 (a, b) c Hk Hcl Hr Hc0 Hz0 Hp Hc)
      as [[He _]|]; [left|by right].
    unfold type_at. rewrite Hc. simpl. by f_equal.
Qed.

Lemma reach_cascade st x y c :
  counts_ok st → space_at st x y = Some c → count c = 0 →
  ∀ a b, reach st x y a b →
    cascade st x y a b ∧
    (∀ c', space_at st a b = Some c' → count c' <= 0 → zero_region st x y a b).
Proof.
  intros Hk Hc Hz. induction 1 as [Hh|a b c1 p Hr [_ IH] Hc1 Hn Hp Hh].
  - assert (zero_region st x y x y) by (by eapply zero_start).
    split; [by left|done].
  - specialize (IH _ Hc1 Hn).
    apply type_at_Some in Hh as (cp & Hcp & Ht).
    pose proof (counts_ok_nonneg st _ _ _ Hk Hcp) as Hge.
    destruct (decide (count cp = 0)) as [E|E].
    + assert (zero_region st x y p.1 p.2) by (by eapply zero_next).
      split; [by left|done].
    + split.
      * right. exists a, b, cp. destruct p. simpl in *. repeat split; auto. lia.
      * intros c' Hc'. rewrite Hcp in Hc'. injection Hc' as <-. lia.
Qed.

(** With recursion depth to spare: on a board whose counts are right and
    on which the revealed spaces of count 0 have no hidden neighbour, as
    on every board that is generated and then played, [RevealEmpty] on a
    hidden space that is not a mine and whose count is 0 returns, and
    afterwards the revealed spaces are those revealed before together with
    the connected region of count 0 around the space and the
    positive-count spaces bordering that region; a left click on the
    space, when it carries no flag, does the same.  No mine is touched. *)
Lemma RevealEmpty_cascade fuel st x y c :
  rect st → counts_ok st → closed st →
  space_at st x y = Some c → type c = HIDDEN → count c = 0 →
  (hidden_count st < fuel)%nat →
  ∃ st', RevealEmpty fuel x y st = Done st' ∧
    (flag c = false → ClickSpace fuel x y st = Done st') ∧
    (∀ a b, type_at st' a b = Some EMPTY ↔
            type_at st a b = Some EMPTY ∨ cascade st x y a b) ∧
    (∀ a b, type_at st a b = Some MINE →
            space_at st' a b = space_at st a b).
Proof.
  intros Hr Hk Hcl Hc Ht Hz Hf.
  destruct (RevealEmpty_total fuel x y st Hr Hf) as [st' H].
  exists st'. split; [done|].
  assert (Hh : type_at st x y = Some HIDDEN).
  { unfold type_at. rewrite Hc. simpl. by f_equal. }
  pose proof (reveals_grows _ _ (RevealEmpty_reveals _ _ _ _ _ H)) as Hg.
  split; [|split].
  - intros Hfl. unfold ClickSpace.
    apply space_at_Some in Hc as (_ & _ & _ & ->). simpl.
    rewrite Hfl. rewrite decide_False by congruence.
    by rewrite decide_True.
  - intros a b. rewrite (RevealEmpty_exact _ _ _ _ _ H a b). split.
    + intros [He|Hre]; [by left|right].
      by apply (reach_cascade st x y c Hk Hc Hz a b Hre).
    + intros [He|Hca]; [by left|]. by apply cascade_reach.
  - intros a b. by apply grows_mine.
Qed.

(** ** [pieces_left] and the spaces newly revealed *)

Lemma reveals_pieces st st' :
  reveals st st' →
  pieces_left st' = pieces_left st - Z.of_nat (newly_revealed (spaces st) (spaces st')).
Proof.
  intros [_ _ _ _ _ _ Hb Hp _]. rewrite Hp. unfold hidden_count.
  destruct (newly_revealed_hidden _ _ Hb). lia.
Qed.

Lemma newly_revealed_same sp : newly_revealed sp sp = 0%nat.
Proof.
  destruct (newly_revealed_hidden sp sp (board_step_refl sp)). lia.
Qed.

Lemma RevealEmpty_not_hidden fuel x y st :
  rect st → type_at st x y ≠ Some HIDDEN → RevealEmpty (S fuel) x y st = Done st.
Proof.
  intros Hr Hn. rewrite RevealEmpty_S.
  destruct (in_board st x y) eqn:Hb; [|done].
  destruct (rect_space_at st x y Hr Hb) as [c Hc].
  unfold type_at in Hn. rewrite Hc in Hn.
  apply space_at_Some in Hc as (_ & _ & _ & ->). simpl.
  rewrite decide_False; [done|]. simpl in Hn. congruence.
Qed.

Lemma RevealEmpty_other fuel x y st c :
  space_at st x y = Some c → type c ≠ HIDDEN →
  RevealEmpty (S fuel) x y st = Done st.
Proof.
  intros Hc Hn. rewrite RevealEmpty_S.
  apply space_at_Some in Hc as (-> & _ & _ & ->). simpl.
  by rewrite decide_False.
Qed.

(** With recursion depth to spare a reveal returns, and [pieces_left]
    drops by exactly the number of spaces it newly reveals; this holds
    for [RevealEmpty] at any coordinate and for a left click on any space
    of the board.  When the target is off the board, revealed, or a mine,
    or when the clicked space is flagged, no space is revealed and
    [pieces_left] keeps its value. *)
Lemma pieces_left_counts_reveals fuel st x y :
  rect st → (hidden_count st < fuel)%nat →
  (∃ st', RevealEmpty fuel x y st = Done st' ∧
     pieces_left st' =
       pieces_left st - Z.of_nat (newly_revealed (spaces st) (spaces st')) ∧
     (type_at st x y ≠ Some HIDDEN → st' = st)) ∧
  (∀ c, space_at st x y = Some c →
     ∃ st', ClickSpace fuel x y st = Done st' ∧
       pieces_left st' =
         pieces_left st - Z.of_nat (newly_revealed (spaces st) (spaces st')) ∧
       (flag c = true ∨ type c ≠ HIDDEN →
          spaces st' = spaces st ∧ pieces_left st' = pieces_left st)).
Proof.
  intros Hr Hf.
  destruct (RevealEmpty_total fuel x y st Hr Hf) as [st' H].
  pose proof (reveals_pieces _ _ (RevealEmpty_reveals _ _ _ _ _ H)) as Hp.
  split.
  - exists st'. split; [done|]. split; [done|].
    intros Hn. destruct fuel as [|fuel]; [done|].
    rewrite (RevealEmpty_not_hidden fuel x y st Hr Hn) in H. by injection H.
  - intros c Hc. unfold ClickSpace.
    apply space_at_Some in Hc as (_ & _ & _ & ->). simpl.
    destruct (flag c) eqn:Hfl.
    { exists st. rewrite newly_revealed_same. split; [done|].
      split; [lia|done]. }
    destruct (decide (type c = MINE)) as [Hm|Hm].
    { eexists. split; [done|]. simpl. rewrite newly_revealed_same.
      split; [lia|done]. }
    destruct (decide (type c = HIDDEN)) as [Hh|Hh].
    { exists st'. split; [done|]. split; [done|]. by intros [|]. }
    exists st. rewrite newly_revealed_same. split; [done|]. split; [lia|done].
Qed.

(** ** Flags *)

Lemma alter_fixed {A} (f : A → A) (l : list A) i x :
  l !! i = Some x → f x = x → alter f i l = l.
Proof.
  intros Hl Hf. transitivity (alter id i l).
  - apply list_alter_ext; [|done]. intros y Hy. by simplify_eq.
  - by apply list_alter_id.
Qed.

Lemma with_spaces_same st : with_spaces (spaces st) st = st.
Proof. by destruct st. Qed.

Lemma assign_fixed st i j col c f :
  spaces st !! i = Some col → col !! j = Some c → f c = c →
  assign (i, j) f st = st.
Proof.
  intros Hi Hj Hf. unfold assign, update. simpl.
  rewrite (alter_fixed _ _ _ col Hi); [apply with_spaces_same|].
  by apply (alter_fixed _ _ _ c).
Qed.

Lemma assign_twice r f g st :
  assign r f (assign r g st) = assign r (f ∘ g) st.
Proof. unfold assign. simpl. by rewrite update_twice. Qed.

Lemma assign_space_at st x y f a b :
  0 <= x → 0 <= y →
  space_at (assign (Z.to_nat x, Z.to_nat y) f st) a b =
  if decide (a = x ∧ b = y) then f <$> space_at st a b else space_at st a b.
Proof.
  intros Hx Hy. unfold space_at.
  change (in_board (assign _ f st) a b) with (in_board st a b).
  destruct (in_board st a b); [|by case_decide]. simpl.
  by apply cell_update.
Qed.

(** C9.  A right click on a space that is not revealed toggles its flag
    and nothing else: no space changes its type, [pieces_left] and the
    dialogs stay as they are, and a second right click on the same space
    gives back the very state before the first. *)
Theorem flag_toggle_round_trip st x y c :
  space_at st x y = Some c → type c ≠ EMPTY →
  ∃ st1, RightClickSpace x y st = Done st1 ∧
    space_at st1 x y = Some (set_flag (negb (flag c)) c) ∧
    (∀ a b, type_at st1 a b = type_at st a b) ∧
    pieces_left st1 = pieces_left st ∧ trace st1 = trace st ∧
    RightClickSpace x y st1 = Done st.
Proof.
  intros Hc Ht.
  assert (Hty : type c = MINE ∨ type c = HIDDEN) by (destruct (type c); auto; done).
  destruct (space_at_Some _ _ _ _ Hc) as (Hb & Hx & Hy & Hp).
  set (st1 := assign (Z.to_nat x, Z.to_nat y) (set_flag (negb (flag c))) st).
  assert (H1 : RightClickSpace x y st = Done st1).
  { unfold RightClickSpace. rewrite Hp. simpl. rewrite decide_True by done.
    subst st1. by destruct (flag c). }
  assert (Hc1 : space_at st1 x y = Some (set_flag (negb (flag c)) c)).
  { subst st1. rewrite assign_space_at by done.
    rewrite decide_True by done. by rewrite Hc. }
  exists st1. split; [done|]. split; [done|]. split; [|split; [done|split; [done|]]].
  - intros a b. unfold type_at. subst st1. rewrite assign_space_at by done.
    case_decide; [|done]. by destruct (space_at st a b).
  - destruct (space_at_Some _ _ _ _ Hc1) as (_ & _ & _ & Hp1).
    unfold RightClickSpace. rewrite Hp1. simpl. rewrite decide_True by done.
    apply piece_at_lookup in Hp as (col & Hi & Hj).
    assert (∀ v, v = flag c →
       assign (Z.to_nat x, Z.to_nat y) (set_flag v) st1 = st) as Hback.
    { intros v ->. subst st1. rewrite assign_twice.
      eapply assign_fixed; eauto. by destruct c. }
    destruct (flag c); simpl; by rewrite Hback.
Qed.

(** C10.  A left click on a mine that carries no flag opens the game-over
    dialog for that space and changes nothing else: the board, the mine
    itself, [pieces_left] and all other variables keep their values.
    [RevealEmpty] called on a mine returns the state as it was. *)
Theorem mine_click_only_opens_dialog fuel st x y c :
  space_at st x y = Some c → type c = MINE →
  (flag c = false →
     ∃ st', ClickSpace fuel x y st = Done st' ∧
       trace st' = trace st ++ [EvGameOver x y] ∧
       spaces st' = spaces st ∧ pieces_left st' = pieces_left st ∧
       space_at st' x y = Some c ∧
       BOARD_WIDTH st' = BOARD_WIDTH st ∧ BOARD_HEIGHT st' = BOARD_HEIGHT st ∧
       TOTAL_MINES st' = TOTAL_MINES st ∧ babymode st' = babymode st ∧
       draws st' = draws st) ∧
  RevealEmpty (S fuel) x y st = Done st.
Proof.
  intros Hc Ht. split.
  - intros Hf. exists (GameOver x y st). split; [|by repeat split].
    unfold ClickSpace. apply space_at_Some in Hc as (_ & _ & _ & ->). simpl.
    rewrite Hf. by rewrite decide_True.
  - apply (RevealEmpty_other fuel x y st c Hc). congruence.
Qed.

(** ** The win dialog *)

(** While more is left than is hidden, as inside a cascade, no dialog
    opens. *)
Lemma RevealEmpty_quiet fuel :
  ∀ x y st st', Z.of_nat (hidden_count st) < pieces_left st →
    RevealEmpty fuel x y st = Done st' → trace st' = trace st.
Proof.
  induction fuel as [|fuel IH]; intros x y st st' Hgt H; [done|].
  rewrite RevealEmpty_S in H.
  destruct (in_board st x y); [|by injection H as <-].
  apply bind_Done in H as ([[i j] c] & Hp & H).
  destruct (decide (type c = HIDDEN)) as [Hc|Hc]; [|by injection H as <-].
  apply bind_Done in H as (st3 & H3 & H).
  apply piece_at_lookup in Hp as (col & Hi & Hj).
  destruct (mark_step st i j col c Hi Hj Hc) as [_ Hh].
  set (st2 := assign _ (set_type EMPTY) _) in *.
  assert (E2 : pieces_left st2 = pieces_left st ∧ trace st2 = trace st)
    by (subst st2; by destruct (flag c)).
  destruct E2 as [Ep Et].
  assert (Heach : ∀ l s s', Z.of_nat (hidden_count s) < pieces_left s →
            each (RevealEmpty fuel) l s = Done s' →
            trace s' = trace s ∧
            pieces_left s' - Z.of_nat (hidden_count s') =
            pieces_left s - Z.of_nat (hidden_count s)).
  { induction l as [|[a b] l IHl]; intros s s' Hs Hl.
    - injection Hl as <-. done.
    - change (RevealEmpty fuel a b s ≫= each (RevealEmpty fuel) l = Done s') in Hl.
      apply bind_Done in Hl as (s1 & H1 & Hl).
      pose proof (IH _ _ _ _ Hs H1) as T1.
      pose proof (rv_pieces _ _ (RevealEmpty_reveals _ _ _ _ _ H1)) as P1.
      destruct (IHl s1 s') as [T2 P2]; [lia|done|]. split; [congruence|lia]. }
  assert (trace st3 = trace st2 ∧
          pieces_left st3 - Z.of_nat (hidden_count st3) =
          pieces_left st2 - Z.of_nat (hidden_count st2)) as [T3 P3].
  { destruct (0 <? count c); [by injection H3 as <-|].
    apply (Heach (around x y) st2 st3); [lia|done]. }
  cbn [with_pieces_left pieces_left] in H.
  destruct (pieces_left st3 - 1 <=? 0) eqn:E; [lia|].
  injection H as <-. simpl. congruence.
Qed.

Lemma RevealEmpty_win fuel x y st st' :
  pieces_ok st → RevealEmpty fuel x y st = Done st' →
  trace st' = trace st ++
    (if decide (hidden_count st' = 0 ∧ hidden_count st' < hidden_count st)%nat
     then [EvGameWin] else []).
Proof.
  unfold pieces_ok. intros Hok H. destruct fuel as [|fuel]; [done|].
  assert (Hsame : trace st = trace st ++
     (if decide (hidden_count st = 0 ∧ hidden_count st < hidden_count st)%nat
      then [EvGameWin] else [])).
  { rewrite decide_False by lia. by rewrite app_nil_r. }
  rewrite RevealEmpty_S in H.
  destruct (in_board st x y); [|by injection H as <-].
  apply bind_Done in H as ([[i j] c] & Hp & H).
  destruct (decide (type c = HIDDEN)) as [Hc|Hc]; [|by injection H as <-].
  apply bind_Done in H as (st3 & H3 & H).
  apply piece_at_lookup in Hp as (col & Hi & Hj).
  destruct (mark_step st i j col c Hi Hj Hc) as [_ Hh].
  set (st2 := assign _ (set_type EMPTY) _) in *.
  assert (E2 : pieces_left st2 = pieces_left st ∧ trace st2 = trace st)
    by (subst st2; by destruct (flag c)).
  destruct E2 as [Ep Et].
  assert (trace st3 = trace st2 ∧
          pieces_left st3 - Z.of_nat (hidden_count st3) =
          pieces_left st2 - Z.of_nat (hidden_count st2)) as [T3 P3].
  { destruct (0 <? count c); [by injection H3 as <-|].
    pose proof (each_reveals _ _ (RevealEmpty_reveals fuel) _ _ H3) as R.
    split; [|destruct R; lia].
    destruct R as [_ _ _ _ _ _ _ _ [k Hk]].
    assert (Hq : ∀ l s s', Z.of_nat (hidden_count s) < pieces_left s →
              each (RevealEmpty fuel) l s = Done s' → trace s' = trace s).
    { induction l as [|[a b] l IHl]; intros s s' Hs Hl.
      - by injection Hl as <-.
      - change (RevealEmpty fuel a b s ≫= each (RevealEmpty fuel) l = Done s') in Hl.
        apply bind_Done in Hl as (s1 & H1 & Hl).
        pose proof (RevealEmpty_quiet _ _ _ _ _ Hs H1) as T1.
        pose proof (rv_pieces _ _ (RevealEmpty_reveals _ _ _ _ _ H1)) as P1.
        rewrite <- T1. apply IHl; [lia|done]. }
    apply (Hq (around x y) st2 st3); [lia|done]. }
  cbn [with_pieces_left pieces_left] in H.
  assert (Hh3 : pieces_left st3 - 1 = Z.of_nat (hidden_count st3)) by lia.
  destruct (pieces_left st3 - 1 <=? 0) eqn:E; injection H as <-;
    unfold hidden_count in *; simpl.
  - rewrite decide_True by lia. congruence.
  - rewrite decide_False by lia. rewrite app_nil_r. congruence.
Qed.

(** ** Well-formed boards stay well-formed *)

Lemma grows_mine_at st st' a b : grows st st' → mine_at st' a b = mine_at st a b.
Proof.
  intros Hg. unfold mine_at.
  destruct (grows_space_at st st' a b Hg) as [c c' [->|[Hc ->]]|]; simpl; try done.
  unfold is_mine. simpl. by rewrite Hc.
Qed.

Lemma mines_around_ext st st' x y :
  (∀ a b, mine_at st' a b = mine_at st a b) →
  mines_around st' x y = mines_around st x y.
Proof.
  intros H. unfold mines_around. induction (around x y) as [|p l IH]; simpl; [done|].
  by rewrite H, IH.
Qed.

Lemma grows_back st st' a b c' :
  grows st st' → space_at st' a b = Some c' →
  ∃ c, space_at st a b = Some c ∧ space_step c c'.
Proof.
  intros Hg Hc'. pose proof (grows_space_at st st' a b Hg) as Hs.
  rewrite Hc' in Hs. inversion Hs as [c c2 Hstep E1 E2|]. eauto.
Qed.

Lemma RevealEmpty_wf fuel x y st st' :
  wf st → RevealEmpty fuel x y st = Done st' → wf st'.
Proof.
  intros [Hr Hk Hp Hcl] H.
  pose proof (RevealEmpty_reveals _ _ _ _ _ H) as R.
  pose proof (reveals_grows _ _ R) as Hg.
  pose proof (RevealEmpty_walked _ _ _ _ _ H) as (_ & _ & W3).
  split.
  - by eapply reveals_rect.
  - intros a b c' Hc'.
    rewrite (mines_around_ext st st') by (intros; by apply grows_mine_at).
    destruct (grows_back _ _ _ _ _ Hg Hc') as (c & Hc & Hs).
    rewrite <- (Hk a b c Hc). by destruct Hs as [->|[_ ->]].
  - unfold pieces_ok in *. rewrite (rv_pieces _ _ R). lia.
  - intros a b c' p Hc' Ht Hz Hp'.
    destruct (grows_back _ _ _ _ _ Hg Hc') as (c & Hc & Hs).
    destruct Hs as [->|[Hh ->]].
    + eapply grows_not_hidden; [exact Hg|]. eapply (Hcl a b c p); eauto.
    + eapply (W3 a b c p); eauto.
      split; unfold type_at; [rewrite Hc|rewrite Hc']; simpl; by f_equal.
Qed.

Lemma wf_emit e st : wf st → wf (emit e st).
Proof. intros [Hr Hk Hp Hcl]. by split. Qed.

Lemma set_flag_wf st i j col c v :
  wf st → spaces st !! i = Some col → col !! j = Some c →
  wf (assign (i, j) (set_flag v) st).
Proof.
  intros [[Hl Hc] Hk Hp Hcl] Hi Hj.
  set (st1 := assign (i, j) (set_flag v) st).
  assert (Hsp : ∀ a b, space_at st1 a b = space_at st a b ∨
            ∃ s, space_at st a b = Some s ∧ space_at st1 a b = Some (set_flag v s)).
  { intros a b. subst st1. rewrite <- (Nat2Z.id i), <- (Nat2Z.id j).
    rewrite assign_space_at by lia.
    case_decide; [|by left]. destruct (space_at st a b); [right; eauto|by left]. }
  assert (Hty : ∀ a b, type_at st1 a b = type_at st a b).
  { intros a b. unfold type_at.
    destruct (Hsp a b) as [->|(s & -> & ->)]; done. }
  assert (Hmi : ∀ a b, mine_at st1 a b = mine_at st a b).
  { intros a b. unfold mine_at.
    destruct (Hsp a b) as [->|(s & -> & ->)]; done. }
  split.
  - split; simpl; [by rewrite update_length|by apply update_columns].
  - intros a b c' Hc'. rewrite (mines_around_ext st st1) by done.
    destruct (Hsp a b) as [E|(s & E1 & E2)].
    + apply (Hk a b). congruence.
    + rewrite E2 in Hc'. injection Hc' as <-. simpl. by apply (Hk a b s).
  - unfold pieces_ok, hidden_count in *. simpl.
    rewrite (tally_update _ _ _ _ _ _ _ Hi Hj).
    change (is_hidden (set_flag v c)) with (is_hidden c). lia.
  - intros a b c' p Hc' Ht Hz Hp'. rewrite Hty.
    destruct (Hsp a b) as [E|(s & E1 & E2)].
    + eapply (Hcl a b c' p); eauto. congruence.
    + rewrite E2 in Hc'. injection Hc' as <-. eapply (Hcl a b s p); eauto.
Qed.

Lemma ClickSpace_wf fuel x y st st' :
  wf st → ClickSpace fuel x y st = Done st' → wf st'.
Proof.
  intros Hw H. unfold ClickSpace in H.
  apply bind_Done in H as ([[i j] c] & _ & H).
  destruct (flag c); [by injection H as <-|].
  destruct (decide (type c = MINE)); [injection H as <-; by apply wf_emit|].
  destruct (decide (type c = HIDDEN)); [|by injection H as <-].
  by eapply RevealEmpty_wf.
Qed.

Lemma RightClickSpace_wf x y st st' :
  wf st → RightClickSpace x y st = Done st' → wf st'.
Proof.
  intros Hw H. unfold RightClickSpace in H.
  apply bind_Done in H as ([[i j] c] & Hp & H).
  apply piece_at_lookup in Hp as (col & Hi & Hj).
  destruct (decide (_ ∨ _)); [|by injection H as <-].
  destruct (flag c); injection H as <-; by eapply set_flag_wf.
Qed.

Lemma play_wf fuel acts :
  ∀ st st', wf st → play fuel acts st = Done st' → wf st'.
Proof.
  induction acts as [|a acts IH]; intros st st' Hw H; simpl in H.
  - by injection H as <-.
  - apply bind_Done in H as (st1 & H1 & H). apply (IH st1); [|done].
    destruct a; simpl in H1;
      [by eapply ClickSpace_wf|by eapply RightClickSpace_wf].
Qed.

(** ** Placing mines *)

Lemma around_NoDup x y : NoDup (around x y).
Proof.
  unfold around.
  repeat (apply NoDup_cons; split;
          [rewrite ?elem_of_cons, ?elem_of_nil; intros H;
           repeat destruct H as [H|H]; try done; simplify_eq; lia|]).
  apply NoDup_nil_2.
Qed.

Lemma AddCount_counted x y st st' :
  AddCount x y st = Done st' → counted [(x, y)] st st'.
Proof.
  unfold AddCount. intros H. destruct (in_board st x y) eqn:Hb.
  - apply bind_Done in H as ([[i j] c] & Hp & H). injection H as <-.
    pose proof (proj1 (in_board_bounds _ _ _) Hb) as [Hx Hy].
    destruct (piece_at_nonneg _ _ _ _ _ _ (proj1 Hx) (proj1 Hy) Hp)
      as (-> & -> & Hc).
    apply piece_at_lookup in Hp as (col & Hi & Hj).
    split; [by repeat split|]. split; [|split].
    + intros [Hl Hcs]. split; simpl; [by rewrite update_length|by apply update_columns].
    + intros p Hpc. simpl. apply Nat2Z.inj.
      rewrite (tally_update _ _ _ _ _ _ _ Hi Hj), Hpc. lia.
    + intros a b. rewrite assign_space_at by lia.
      rewrite (decide_ext _ ((a, b) ∈ [(x, y)])); [done|].
      rewrite list_elem_of_singleton. split; [by intros [-> ->]|by intros [= -> ->]].
  - injection H as <-. split; [by repeat split|]. split; [done|]. split; [done|].
    intros a b. case_decide as E; [|done].
    apply list_elem_of_singleton in E. injection E as -> ->.
    unfold space_at. by rewrite Hb.
Qed.

Lemma counted_nil st : counted [] st st.
Proof.
  split; [by repeat split|]. split; [done|]. split; [done|].
  intros a b. rewrite decide_False; [done|]. apply not_elem_of_nil.
Qed.

Lemma counted_cons p l st st1 st' :
  p ∉ l → counted [p] st st1 → counted l st1 st' → counted (p :: l) st st'.
Proof.
  intros Hn (S1 & R1 & T1 & A1) (S2 & R2 & T2 & A2).
  split; [|split; [|split]].
  - unfold same_settings in *. intuition congruence.
  - auto.
  - intros q Hq. by rewrite T2, T1.
  - intros a b. rewrite A2, A1.
    destruct (decide ((a, b) = p)) as [<-|Hne].
    + rewrite (decide_False (P := (a, b) ∈ l)) by done.
      rewrite (decide_True (P := (a, b) ∈ [(a, b)])) by apply list_elem_of_here.
      rewrite (decide_True (P := (a, b) ∈ (a, b) :: l)) by apply list_elem_of_here.
      done.
    + rewrite (decide_False (P := (a, b) ∈ [p])) by (by rewrite list_elem_of_singleton).
      apply decide_ext. rewrite elem_of_cons. split; [by right|by intros [?|?]].
Qed.

Lemma each_AddCount_counted l :
  NoDup l → ∀ st st', each AddCount l st = Done st' → counted l st st'.
Proof.
  induction 1 as [|[a b] l Hn _ IH]; intros st st' H.
  - injection H as <-. apply counted_nil.
  - change (AddCount a b st ≫= each AddCount l = Done st') in H.
    apply bind_Done in H as (st1 & H1 & H).
    eapply counted_cons; eauto. by apply AddCount_counted.
Qed.

Lemma each_AddCount_total l :
  ∀ st, rect st → ∃ st', each AddCount l st = Done st'.
Proof.
  induction l as [|[a b] l IH]; intros st Hr; [by eexists|].
  change (∃ st', AddCount a b st ≫= each AddCount l = Done st').
  assert (∃ st1, AddCount a b st = Done st1) as [st1 H1].
  { unfold AddCount. destruct (in_board st a b) eqn:Hb; [|by eexists].
    destruct (rect_space_at st a b Hr Hb) as [c Hc].
    apply space_at_Some in Hc as (_ & _ & _ & ->). by eexists. }
  rewrite H1. simpl. apply IH.
  by apply (AddCount_counted _ _ _ _ H1).
Qed.

Lemma randint_Done rng a b st v st' :
  randint rng a b st = Done (v, st') →
  a <= v <= b ∧ v = a + rng (draws st) `mod` (b - a + 1) ∧
  st' = with_draws (S (draws st)) st.
Proof.
  unfold randint. destruct (b <? a) eqn:E; [done|]. intros [= <- <-].
  apply Z.ltb_ge in E.
  pose proof (Z.mod_pos_bound (rng (draws st)) (b - a + 1)).
  split; [lia|done].
Qed.

Lemma redraw_Done rng fuel :
  ∀ x y st x' y' st', in_board st x y = true →
    redraw rng fuel x y st = Done (x', y', st') →
    in_board st x' y' = true ∧
    (∃ k, st' = with_draws (draws st + 2 * k) st) ∧
    ∃ c, space_at st x' y' = Some c ∧ type c ≠ MINE.
Proof.
  induction fuel as [|fuel IH]; intros x y st x' y' st' Hb H; [done|].
  simpl in H. apply bind_Done in H as ([[i j] c] & Hp & H).
  pose proof (proj1 (in_board_bounds _ _ _) Hb) as [Hx Hy].
  destruct (decide (type c = MINE)) as [Hm|Hm].
  - apply bind_Done in H as ([y1 st1] & H1 & H).
    apply bind_Done in H as ([x1 st2] & H2 & H).
    apply randint_Done in H1 as (B1 & _ & ->).
    apply randint_Done in H2 as (B2 & _ & ->).
    apply IH in H as (Hb' & [k Hk] & Hc).
    + split; [done|]. split; [|done].
      exists (S k). rewrite Hk. unfold with_draws. simpl. f_equal. lia.
    + apply in_board_bounds. simpl in *. lia.
  - injection H as <- <- <-. split; [done|]. split.
    + exists 0%nat. destruct st. unfold with_draws. simpl. f_equal. lia.
    + exists c. split; [|done].
      apply piece_at_nonneg in Hp as (_ & _ & Hc); [|lia..].
      unfold space_at. by rewrite Hb.
Qed.

Lemma mines_among_mark st st' q l :
  NoDup l →
  (∀ p, mine_at st' p.1 p.2 = if decide (p = q) then true else mine_at st p.1 p.2) →
  mine_at st q.1 q.2 = false →
  foldr (λ p n, (if mine_at st' p.1 p.2 then 1 else 0) + n) 0 l =
  foldr (λ p n, (if mine_at st p.1 p.2 then 1 else 0) + n) 0 l +
  (if decide (q ∈ l) then 1 else 0).
Proof.
  intros Hnd Hm Hq. induction Hnd as [|p l Hn Hnd IH]; cbn [foldr].
  - rewrite decide_False; [done|]. apply not_elem_of_nil.
  - rewrite IH, Hm. destruct (decide (p = q)) as [->|Hne].
    + rewrite Hq. rewrite (decide_False (P := q ∈ l)) by done.
      rewrite decide_True by apply list_elem_of_here. lia.
    + rewrite (decide_ext (q ∈ p :: l) (q ∈ l)); [lia|].
      rewrite elem_of_cons. split; [by intros [?|?]|by right].
Qed.

Lemma place_mine_placed rng fuel st st' :
  place_mine rng fuel st = Done st' → ∃ x y, placed x y st st'.
Proof.
  unfold place_mine. intros H.
  apply bind_Done in H as ([y0 st1] & H1 & H).
  apply bind_Done in H as ([x0 st2] & H2 & H).
  apply bind_Done in H as ([[x y] st3] & H3 & H).
  apply bind_Done in H as ([[i j] c] & H4 & H5).
  apply randint_Done in H1 as (B1 & _ & ->).
  apply randint_Done in H2 as (B2 & _ & ->).
  cbn [with_draws BOARD_WIDTH draws] in *.
  set (st2 := with_draws _ (with_draws _ st)) in *.
  assert (Hb0 : in_board st2 x0 y0 = true).
  { apply in_board_bounds. subst st2. simpl. lia. }
  destruct (redraw_Done _ _ _ _ _ _ _ _ Hb0 H3) as (Hb & [k ->] & c0 & Hc0 & Hnm).
  pose proof (proj1 (in_board_bounds _ _ _) Hb) as [Hx Hy].
  cbn [with_draws spaces] in H4.
  destruct (piece_at_nonneg _ _ _ _ _ _ (proj1 Hx) (proj1 Hy) H4) as (-> & -> & Hc).
  assert (c = c0) as ->.
  { unfold space_at in Hc0. rewrite Hb in Hc0. subst st2. simpl in *. congruence. }
  assert (Hst : space_at st x y = Some c0) by exact Hc0.
  apply piece_at_lookup in H4 as (col & Hi & Hj).
  apply each_AddCount_counted in H5 as (S5 & R5 & T5 & A5); [|apply around_NoDup].
  destruct S5 as (E1 & E2 & E3 & E4 & E5 & E6 & E7 & E8).
  assert (Hsp : ∀ a b, space_at st' a b =
            (if decide ((a, b) ∈ around x y) then fmap incr_count else id)
              (if decide (a = x ∧ b = y) then set_type MINE <$> space_at st a b
               else space_at st a b)).
  { intros a b. rewrite A5.
    assert (∀ s, space_at (if PRINT_DEBUG_INFO s then emit (EvPlaced x y) s else s) a b
                 = space_at s a b) as -> by (intros s; by destruct (PRINT_DEBUG_INFO s)).
    rewrite assign_space_at by lia.
    change (space_at (with_draws _ st2) a b) with (space_at st a b).
    by case_decide. }
  assert (Hxy : (x, y) ∉ around x y) by (rewrite elem_of_around; simpl; lia).
  assert (Hmine : ∀ a b, mine_at st' a b =
            if decide ((a, b) = (x, y)) then true else mine_at st a b).
  { intros a b. unfold mine_at. rewrite Hsp.
    destruct (decide ((a, b) = (x, y))) as [[= -> ->]|Hne].
    - rewrite decide_False by done. rewrite decide_True by done. by rewrite Hst.
    - rewrite (decide_False (P := a = x ∧ b = y)) by (intros [-> ->]; done).
      case_decide; [|done]. by destruct (space_at st a b). }
  assert (Hfresh : mine_at st x y = false).
  { unfold mine_at. rewrite Hst. simpl. unfold is_mine.
    destruct (type c0); done. }
  assert (Hsettings : ∀ s, PRINT_DEBUG_INFO s = PRINT_DEBUG_INFO st →
            trace s = trace st →
            trace (if PRINT_DEBUG_INFO s then emit (EvPlaced x y) s else s) =
            trace st ++ (if PRINT_DEBUG_INFO st then [EvPlaced x y] else [])).
  { intros s -> Ht. destruct (PRINT_DEBUG_INFO st); simpl; rewrite Ht; [done|].
    by rewrite app_nil_r. }
  assert (Hproj : ∀ s : State,
            let s' := if PRINT_DEBUG_INFO s then emit (EvPlaced x y) s else s in
            BOARD_WIDTH s' = BOARD_WIDTH s ∧ BOARD_HEIGHT s' = BOARD_HEIGHT s ∧
            TOTAL_MINES s' = TOTAL_MINES s ∧ PRINT_DEBUG_INFO s' = PRINT_DEBUG_INFO s ∧
            pieces_left s' = pieces_left s ∧ babymode s' = babymode s ∧
            draws s' = draws s ∧ spaces s' = spaces s).
  { intros s. simpl. destruct (PRINT_DEBUG_INFO s) eqn:E; simpl; by rewrite ?E. }
  destruct (Hproj (assign (Z.to_nat x, Z.to_nat y) (set_type MINE)
                     (with_draws (draws st2 + 2 * k) st2)))
    as (P1 & P2 & P3 & P4 & P5 & P6 & P7 & P8).
  exists x, y. split.
  - by rewrite E1, P1.
  - by rewrite E2, P2.
  - by rewrite E3, P3.
  - by rewrite E4, P4.
  - by rewrite E5, P5.
  - by rewrite E6, P6.
  - exists k. rewrite E7, P7. subst st2. simpl. lia.
  - rewrite E8. by apply Hsettings.
  - exact Hb.
  - exact Hfresh.
  - exact Hmine.
  - unfold mine_count. rewrite T5 by done. rewrite P8. simpl.
    apply Nat2Z.inj. rewrite (tally_update _ _ _ _ _ _ _ Hi Hj).
    unfold mine_at in Hfresh. rewrite Hst in Hfresh. simpl in Hfresh.
    rewrite Hfresh. subst st2. simpl. unfold b2z, is_mine. simpl. lia.
  - intros [Hr Hk He]. split.
    + apply R5. destruct Hr as [Hl Hcs].
      split; [rewrite P1|rewrite P2]; rewrite P8; simpl;
        [by rewrite update_length|by apply update_columns].
    + intros a b c' Hc'.
      unfold mines_around.
      rewrite (mines_among_mark st st' (x, y) (around a b) (around_NoDup a b));
        [| intros [u v]; apply Hmine | exact Hfresh].
      rewrite Hsp in Hc'.
      destruct (decide (a = x ∧ b = y)) as [[-> ->]|Hne].
      * rewrite decide_False in Hc' by done. rewrite Hst in Hc'.
        injection Hc' as <-. rewrite decide_False by done.
        change (count (set_type MINE c0)) with (count c0).
        rewrite (Hk x y c0 Hst). unfold mines_around. lia.
      * destruct (space_at st a b) as [cab|] eqn:Hab; [|by case_decide].
        pose proof (Hk a b cab Hab) as Hcount. unfold mines_around in Hcount.
        destruct (decide ((a, b) ∈ around x y)) as [Hin|Hout].
        -- injection Hc' as <-. change (count (incr_count cab)) with (count cab + 1).
           rewrite decide_True by (by apply (around_sym x y (a, b))). lia.
        -- injection Hc' as <-.
           rewrite decide_False; [lia|].
           intros Hin. apply Hout. by apply (around_sym a b (x, y)).
    + rewrite T5 by done. rewrite P8. cbn [assign with_spaces spaces].
      pose proof (tally_update is_empty (set_type MINE) _ _ _ _ _ Hi Hj) as E.
      assert (He' : tally is_empty (spaces st2) = 0%nat) by exact He.
      cbn [with_draws spaces] in E. rewrite He' in E.
      change (is_empty (set_type MINE c0)) with false in E.
      unfold b2z in E. cbn [with_draws spaces]. destruct (is_empty c0); lia.
Qed.

Lemma place_mines_placed rng fuel n :
  ∀ st st', place_mines rng n fuel st = Done st' →
    ∃ l, length l = n ∧ all_placed l st st'.
Proof.
  induction n as [|n IH]; intros st st' H; simpl in H.
  - injection H as <-. exists []. split; [done|]. split; try done.
    + by exists 0%nat.
    + unfold placements. destruct (PRINT_DEBUG_INFO st); by rewrite app_nil_r.
    + apply NoDup_nil_2.
    + intros a b. rewrite elem_of_nil. tauto.
    + intros a b Hin. by apply elem_of_nil in Hin.
  - apply bind_Done in H as (st1 & H1 & H).
    apply place_mine_placed in H1 as (x & y & P).
    apply IH in H as (l & Hlen & A).
    destruct P, A.
    exists ((x, y) :: l). split; [simpl; by rewrite Hlen|].
    assert (Hxy : (x, y) ∉ l).
    { intros Hin. pose proof (ap_fresh0 x y Hin) as Hf.
      rewrite pd_mine_at0 in Hf. by rewrite decide_True in Hf. }
    split; try congruence.
    + destruct pd_draws0 as [k1 E1], ap_draws0 as [k2 E2].
      exists (S k1 + k2)%nat. lia.
    + rewrite ap_trace0, pd_trace0, pd_debug0, <- app_assoc. f_equal.
      unfold placements. by destruct (PRINT_DEBUG_INFO st).
    + by apply NoDup_cons.
    + intros a b. rewrite ap_mine_at0, pd_mine_at0, elem_of_cons.
      destruct (decide ((a, b) = (x, y))) as [E|E]; [tauto|]. tauto.
    + intros a b Hin. apply elem_of_cons in Hin as [[= -> ->]|Hin]; [done|].
      pose proof (ap_fresh0 a b Hin) as Hf. rewrite pd_mine_at0 in Hf.
      by destruct (decide ((a, b) = (x, y))).
    + rewrite ap_count0, pd_count0. simpl. lia.
    + auto.
Qed.

(** The board [ClearBoard] returns. *)
Lemma count_if_replicate p n c :
  count_if p (replicate n c) = if p c then n else 0%nat.
Proof.
  induction n as [|n IH]; simpl; [by destruct (p c)|].
  rewrite IH. by destruct (p c).
Qed.

Lemma tally_replicate p n m c :
  p c = false → tally p (replicate n (replicate m c)) = 0%nat.
Proof.
  intros Hp. induction n as [|n IH]; simpl; [done|].
  by rewrite IH, count_if_replicate, Hp.
Qed.

Lemma cell_replicate n m c x y s :
  cell (replicate n (replicate m c)) x y = Some s → s = c.
Proof.
  unfold cell. destruct (_ && _); [|done].
  intros H. apply bind_Some in H as (col & H1 & H2).
  apply lookup_replicate in H1 as [-> _].
  by apply lookup_replicate in H2 as [-> _].
Qed.

Lemma cleared_placing st : placing (cleared st).
Proof.
  unfold cleared. split.
  - split; simpl; unfold ClearBoard; [by rewrite length_replicate|].
    apply Forall_replicate. by rewrite length_replicate.
  - intros a b c Hc.
    assert (Hno : ∀ u v, mine_at (with_babymode false
            (with_pieces_left (BOARD_HEIGHT st * BOARD_WIDTH st - TOTAL_MINES st)
               (with_spaces (ClearBoard st) st))) u v = false).
    { intros u v. unfold mine_at, space_at.
      destruct (in_board _ u v); [|done]. simpl.
      destruct (cell (ClearBoard st) u v) as [s|] eqn:E; [|done].
      by apply cell_replicate in E as ->. }
    unfold space_at in Hc. destruct (in_board _ a b); [|done].
    apply cell_replicate in Hc as ->. unfold mines_around.
    induction (around a b) as [|p l IH]; cbn [foldr]; [done|].
    rewrite Hno. simpl in *. lia.
  - simpl. by apply tally_replicate.
Qed.

Lemma cleared_no_mine st a b : mine_at (cleared st) a b = false.
Proof.
  unfold mine_at, space_at. destruct (in_board _ a b); [|done]. simpl.
  destruct (cell (ClearBoard st) a b) as [s|] eqn:E; [|done].
  by apply cell_replicate in E as ->.
Qed.

Lemma GenerateBoard_placed rng fuel st st' :
  GenerateBoard rng fuel st = Done st' →
  ∃ l, length l = Z.to_nat (TOTAL_MINES st) ∧ all_placed l (cleared st) st'.
Proof. apply place_mines_placed. Qed.

Lemma count_if_partition l :
  (count_if is_hidden l + count_if is_empty l + count_if is_mine l)%nat = length l.
Proof.
  induction l as [|c l IH]; [done|].
  destruct c as [[] n f]; cbn; lia.
Qed.

Lemma tally_partition sp n :
  Forall (λ col, length col = n) sp →
  (tally is_hidden sp + tally is_empty sp + tally is_mine sp)%nat
  = (length sp * n)%nat.
Proof.
  induction 1 as [|col sp Hc _ IH]; simpl; [done|].
  pose proof (count_if_partition col). lia.
Qed.

Lemma tally_zero p sp x y c :
  tally p sp = 0%nat → cell sp x y = Some c → p c = false.
Proof.
  intros Hz Hc. apply cell_Some in Hc as (_ & _ & Hp).
  apply piece_at_lookup in Hp as (col & Hi & Hj).
  assert (Hcol : count_if p col = 0%nat).
  { clear Hj. revert sp Hz Hi.
    induction (Z.to_nat x) as [|i IH]; intros [|col' sp] Hz Hi; simplify_eq/=.
    - lia.
    - apply (IH sp); [lia|done]. }
  clear Hi Hz. revert col Hcol Hj.
  induction (Z.to_nat y) as [|j IH]; intros [|c' col] Hz Hj; simplify_eq/=.
  - destruct (p c); [lia|done].
  - apply (IH col); [|done]. destruct (p c'); lia.
Qed.

Lemma GenerateBoard_wf rng fuel st st' :
  0 <= BOARD_WIDTH st → 0 <= BOARD_HEIGHT st → 0 <= TOTAL_MINES st →
  GenerateBoard rng fuel st = Done st' → wf st'.
Proof.
  intros Hw Hh Hm H. apply GenerateBoard_placed in H as (l & Hlen & A).
  destruct A. destruct (ap_placing0 (cleared_placing st)) as [Hr Hk He].
  split; [done|done| |].
  - unfold pieces_ok, hidden_count. rewrite ap_pieces0. simpl.
    destruct Hr as [Hl Hc].
    pose proof (tally_partition _ _ Hc) as Hpart.
    unfold mine_count in ap_count0.
    assert (tally is_mine (spaces (cleared st)) = 0%nat) as E0
      by (by apply tally_replicate).
    rewrite E0 in ap_count0. rewrite He, ap_count0, Hl, Hlen in Hpart.
    rewrite ap_width0, ap_height0 in Hpart. simpl in Hpart. nia.
  - intros a b c p Hc Ht. exfalso.
    unfold space_at in Hc. destruct (in_board st' a b); [|done].
    pose proof (tally_zero _ _ _ _ _ He Hc) as Hf.
    unfold is_empty in Hf. by rewrite Ht in Hf.
Qed.

Lemma keeps_refl st : keeps st st.
Proof. by intros a b. Qed.

Lemma keeps_trans st1 st2 st3 : keeps st1 st2 → keeps st2 st3 → keeps st1 st3.
Proof.
  intros H12 H23 a b. destruct (H12 a b), (H23 a b). split; congruence.
Qed.

Lemma keeps_counts_ok st st' : counts_ok st → keeps st st' → counts_ok st'.
Proof.
  intros Hk Hkeep a b c' Hc'.
  rewrite (mines_around_ext st st') by (intros; apply Hkeep).
  destruct (Hkeep a b) as [Hcount _]. unfold count_at in Hcount.
  rewrite Hc' in Hcount. simpl in Hcount.
  destruct (space_at st a b) as [c|] eqn:Hc; [|done].
  injection Hcount as ->. by apply Hk.
Qed.

Lemma grows_keeps st st' : grows st st' → keeps st st'.
Proof.
  intros Hg a b. split; [|by apply grows_mine_at].
  unfold count_at.
  destruct (grows_space_at st st' a b Hg) as [c c' [->|[_ ->]]|]; done.
Qed.

Lemma emit_keeps e st : keeps st (emit e st).
Proof. by intros a b. Qed.

Lemma set_flag_keeps st i j v : keeps st (assign (i, j) (set_flag v) st).
Proof.
  intros a b. unfold count_at, mine_at.
  rewrite <- (Nat2Z.id i), <- (Nat2Z.id j). rewrite assign_space_at by lia.
  case_decide; [|done]. by destruct (space_at st a b).
Qed.

Lemma act_keeps fuel a st st' : act fuel a st = Done st' → keeps st st'.
Proof.
  destruct a as [x y|x y]; simpl; intros H.
  - unfold ClickSpace in H. apply bind_Done in H as ([[i j] c] & _ & H).
    destruct (flag c); [injection H as <-; apply keeps_refl|].
    destruct (decide (type c = MINE)); [injection H as <-; apply emit_keeps|].
    destruct (decide (type c = HIDDEN)); [|injection H as <-; apply keeps_refl].
    eapply grows_keeps, reveals_grows, RevealEmpty_reveals, H.
  - unfold RightClickSpace in H. apply bind_Done in H as ([[i j] c] & _ & H).
    destruct (decide (_ ∨ _)); [|injection H as <-; apply keeps_refl].
    destruct (flag c); injection H as <-; apply set_flag_keeps.
Qed.

Lemma play_keeps fuel acts :
  ∀ st st', play fuel acts st = Done st' → keeps st st'.
Proof.
  induction acts as [|a acts IH]; intros st st' H; simpl in H.
  - injection H as <-. apply keeps_refl.
  - apply bind_Done in H as (st1 & H1 & H).
    eapply keeps_trans; [by eapply act_keeps|by apply IH].
Qed.

(** C2.  On every board that [GenerateBoard] returns, the count of each
    space is the number of mines among its neighbours on the board, and
    left and right clicks change neither the counts nor the mines, so that
    this stays true for as long as the board is played. *)
Theorem counts_match_mines rng fuel st0 st fuel' acts st' :
  GenerateBoard rng fuel st0 = Done st →
  play fuel' acts st = Done st' →
  counts_ok st ∧ counts_ok st' ∧
  ∀ a b, count_at st' a b = count_at st a b ∧ mine_at st' a b = mine_at st a b.
Proof.
  intros Hgen Hplay.
  apply GenerateBoard_placed in Hgen as (l & _ & A).
  pose proof (pl_counts _ (ap_placing _ _ _ A (cleared_placing st0))) as Hk.
  pose proof (play_keeps _ _ _ _ Hplay) as Hkeep.
  split; [done|]. split; [by eapply keeps_counts_ok|done].
Qed.

(** ** Generation returns *)

Lemma count_if_lt p l :
  (count_if p l < length l)%nat → ∃ j c, l !! j = Some c ∧ p c = false.
Proof.
  induction l as [|a l IH]; simpl; [lia|]. intros H.
  destruct (p a) eqn:E.
  - destruct IH as (j & c & Hj & Hc); [lia|]. by exists (S j), c.
  - by exists 0%nat, a.
Qed.

Lemma tally_lt p sp n :
  Forall (λ col, length col = n) sp → (tally p sp < length sp * n)%nat →
  ∃ i col j c, sp !! i = Some col ∧ col !! j = Some c ∧ p c = false.
Proof.
  induction 1 as [|col sp Hc _ IH]; simpl; [lia|]. intros H.
  destruct (decide (count_if p col < length col)%nat) as [Hlt|Hge].
  - destruct (count_if_lt p col Hlt) as (j & c & Hj & Hpc).
    by exists 0%nat, col, j, c.
  - destruct IH as (i & col' & j & c & Hi & Hj & Hpc); [lia|].
    by exists (S i), col', j, c.
Qed.

Lemma exists_not_mine st :
  rect st →
  (mine_count st < Z.to_nat (BOARD_WIDTH st) * Z.to_nat (BOARD_HEIGHT st))%nat →
  ∃ a b c, space_at st a b = Some c ∧ is_mine c = false.
Proof.
  intros [Hl Hc] Hlt. unfold mine_count in Hlt. rewrite <- Hl in Hlt.
  destruct (tally_lt _ _ _ Hc Hlt) as (i & col & j & c & Hi & Hj & Hpc).
  exists (Z.of_nat i), (Z.of_nat j), c. split; [|done].
  pose proof (lookup_lt_Some _ _ _ Hi) as Li.
  pose proof (lookup_lt_Some _ _ _ Hj) as Lj.
  rewrite Forall_lookup in Hc. rewrite (Hc _ _ Hi) in Lj.
  unfold space_at.
  replace (in_board st (Z.of_nat i) (Z.of_nat j)) with true
    by (symmetry; apply in_board_bounds; lia).
  unfold cell.
  destruct (0 <=? Z.of_nat i) eqn:E1; [|lia].
  destruct (0 <=? Z.of_nat j) eqn:E2; [|lia]. simpl.
  rewrite !Nat2Z.id, Hi. simpl. done.
Qed.

Lemma redraw_mono rng fuel :
  ∀ fuel' x y st r, (fuel <= fuel')%nat →
    redraw rng fuel x y st = Done r → redraw rng fuel' x y st = Done r.
Proof.
  induction fuel as [|fuel IH]; intros fuel' x y st r Hle H; [done|].
  destruct fuel' as [|fuel']; [lia|]. simpl in *.
  destruct (piece_at (spaces st) x y) as [[[i j] c]|?|]; simpl in *; try done.
  destruct (decide (type c = MINE)); [|done].
  destruct (randint rng 0 (BOARD_HEIGHT st - 1) st) as [[y1 st1]|?|]; simpl in *; try done.
  destruct (randint rng 0 (BOARD_WIDTH st1 - 1) st1) as [[x1 st2]|?|]; simpl in *; try done.
  apply IH; [lia|done].
Qed.

Lemma place_mine_mono rng fuel fuel' st st' :
  (fuel <= fuel')%nat →
  place_mine rng fuel st = Done st' → place_mine rng fuel' st = Done st'.
Proof.
  intros Hle. unfold place_mine.
  destruct (randint rng 0 (BOARD_HEIGHT st - 1) st) as [[y1 st1]|?|]; simpl; try done.
  destruct (randint rng 0 (BOARD_WIDTH st1 - 1) st1) as [[x1 st2]|?|]; simpl; try done.
  destruct (redraw rng fuel x1 y1 st2) as [[[x y] st3]|?|] eqn:E; simpl; try done.
  by rewrite (redraw_mono _ _ _ _ _ _ _ Hle E).
Qed.

Lemma place_mines_mono rng n :
  ∀ fuel fuel' st st', (fuel <= fuel')%nat →
    place_mines rng n fuel st = Done st' → place_mines rng n fuel' st = Done st'.
Proof.
  induction n as [|n IH]; intros fuel fuel' st st' Hle H; simpl in *; [done|].
  apply bind_Done in H as (st1 & H1 & H).
  rewrite (place_mine_mono _ _ _ _ _ Hle H1). simpl. by eapply IH.
Qed.

Lemma randint_total rng n st :
  0 < n →
  randint rng 0 (n - 1) st =
  Done (rng (draws st) `mod` n, with_draws (S (draws st)) st).
Proof.
  intros Hn. unfold randint. destruct (n - 1 <? 0) eqn:E; [lia|].
  replace (n - 1 - 0 + 1) with n by lia. by rewrite Z.add_0_l.
Qed.

Lemma redraw_S rng fuel x y st :
  redraw rng (S fuel) x y st =
  '(_, _, piece) ← piece_at (spaces st) x y;
  if decide (type piece = MINE) then
    '(y', st1) ← randint rng 0 (BOARD_HEIGHT st - 1) st;
    '(x', st2) ← randint rng 0 (BOARD_WIDTH st1 - 1) st1;
    redraw rng fuel x' y' st2
  else Done (x, y, st).
Proof. reflexivity. Qed.

(** When the draws reach a pair that names a space without a mine, the
    inner loop stops there at the latest. *)
Lemma redraw_finds rng d j a b c0 :
  ∀ m k x y st,
    rect st → space_at st a b = Some c0 → is_mine c0 = false →
    rng (d + 2 * j)%nat `mod` BOARD_HEIGHT st = b →
    rng (d + 2 * j + 1)%nat `mod` BOARD_WIDTH st = a →
    draws st = (d + 2 * k)%nat → (k + m = S j)%nat →
    in_board st x y = true → (m = 0%nat → x = a ∧ y = b) →
    ∃ r, redraw rng (S m) x y st = Done r.
Proof.
  induction m as [|m IH]; intros k x y st Hr Hc0 Hm0 Hb Ha Hd Hk Hxy H0;
    rewrite redraw_S.
  - destruct (H0 eq_refl) as [-> ->].
    apply space_at_Some in Hc0 as (_ & _ & _ & ->). simpl.
    rewrite decide_False; [by eexists|].
    unfold is_mine in Hm0. by destruct (type c0).
  - destruct (rect_space_at st x y Hr Hxy) as [c Hc].
    apply space_at_Some in Hc as (_ & _ & _ & ->). simpl.
    destruct (decide (type c = MINE)); [|by eexists].
    pose proof (proj1 (in_board_bounds _ _ _) Hxy) as [Bx By].
    rewrite randint_total by lia. cbn [mbind outcome_bind].
    rewrite randint_total by (simpl; lia). cbn [mbind outcome_bind].
    apply (IH (S k)); try done.
    + simpl. lia.
    + lia.
    + apply in_board_bounds. simpl.
      pose proof (Z.mod_pos_bound (rng (S (draws st))) (BOARD_WIDTH st)).
      pose proof (Z.mod_pos_bound (rng (draws st)) (BOARD_HEIGHT st)). lia.
    + intros ->. assert (k = j) as -> by lia. rewrite Hd.
      replace (S (d + 2 * j)) with (d + 2 * j + 1)%nat by lia. done.
Qed.

Lemma place_mine_total rng d k st :
  placing st → fair rng d (BOARD_WIDTH st) (BOARD_HEIGHT st) →
  draws st = (d + 2 * k)%nat →
  (mine_count st < Z.to_nat (BOARD_WIDTH st) * Z.to_nat (BOARD_HEIGHT st))%nat →
  ∃ fuel st', place_mine rng fuel st = Done st'.
Proof.
  intros [Hr Hk He] Hfair Hd Hlt.
  destruct (exists_not_mine st Hr Hlt) as (a & b & c0 & Hc0 & Hm0).
  pose proof (space_at_Some _ _ _ _ Hc0) as (Hb0 & _).
  pose proof (proj1 (in_board_bounds _ _ _) Hb0) as [Ba Bb].
  destruct (Hfair (S k) a b Ba Bb) as (j & Hj & Hy & Hx).
  set (st2 := with_draws (S (S (draws st))) st).
  set (x0 := rng (S (draws st)) `mod` BOARD_WIDTH st).
  set (y0 := rng (draws st) `mod` BOARD_HEIGHT st).
  assert (Hin0 : in_board st2 x0 y0 = true).
  { apply in_board_bounds. subst st2 x0 y0. simpl.
    pose proof (Z.mod_pos_bound (rng (S (draws st))) (BOARD_WIDTH st)).
    pose proof (Z.mod_pos_bound (rng (draws st)) (BOARD_HEIGHT st)). lia. }
  destruct (redraw_finds rng d j a b c0 (j - k) (S k) x0 y0 st2)
    as [[[x y] st3] H3]; try done.
  { subst st2. simpl. lia. }
  { lia. }
  { lia. }
  exists (S (j - k)). unfold place_mine.
  rewrite randint_total by lia. cbn [mbind outcome_bind].
  rewrite randint_total by (simpl; lia). cbn [mbind outcome_bind].
  change (with_draws (S (draws (with_draws (S (draws st)) st)))
            (with_draws (S (draws st)) st)) with st2.
  change (rng (draws (with_draws (S (draws st)) st)) `mod`
            BOARD_WIDTH (with_draws (S (draws st)) st)) with x0.
  fold y0. rewrite H3. cbn [mbind outcome_bind].
  destruct (redraw_Done _ _ _ _ _ _ _ _ Hin0 H3) as (Hb & [k' ->] & c & Hc & _).
  apply space_at_Some in Hc as (_ & _ & _ & Hp).
  cbn [with_draws spaces]. rewrite Hp. simpl.
  apply each_AddCount_total.
  destruct Hr as [Hl Hcs].
  match goal with |- rect (if ?dbg then _ else _) => destruct dbg end;
    (split; simpl; [by rewrite update_length|by apply update_columns]).
Qed.

Lemma place_mines_total rng d n :
  ∀ k st, placing st → fair rng d (BOARD_WIDTH st) (BOARD_HEIGHT st) →
    draws st = (d + 2 * k)%nat →
    (mine_count st + n <= Z.to_nat (BOARD_WIDTH st) * Z.to_nat (BOARD_HEIGHT st))%nat →
    ∃ fuel st', place_mines rng n fuel st = Done st'.
Proof.
  induction n as [|n IH]; intros k st Hp Hf Hd Hle; [by exists 0%nat, st|].
  destruct (place_mine_total rng d k st Hp Hf Hd) as (f1 & st1 & H1); [lia|].
  destruct (place_mine_placed _ _ _ _ H1) as (x & y & P). destruct P.
  destruct pd_draws0 as [k1 Hk1].
  destruct (IH (k + S k1)%nat st1) as (f2 & st' & H2).
  - auto.
  - by rewrite pd_width0, pd_height0.
  - lia.
  - rewrite pd_width0, pd_height0, pd_count0. lia.
  - exists (f1 `max` f2)%nat, st'. simpl.
    rewrite (place_mine_mono _ f1 _ _ _ (Nat.le_max_l f1 f2) H1). simpl.
    by apply (place_mines_mono _ _ f2 _ _ _ (Nat.le_max_r f1 f2)).
Qed.

(** C3.  For a board of non-negative dimensions and a mine total between 0
    and the number of its spaces, [GenerateBoard] returns, once the draws
    are given room, whenever the draws name every space of the board again
    and again.  The board returned has exactly [TOTAL_MINES] mines, on
    pairwise distinct spaces, which are the spaces of the placement lines
    of the debug output. *)
Theorem GenerateBoard_places_mines rng st :
  0 <= BOARD_WIDTH st → 0 <= BOARD_HEIGHT st →
  0 <= TOTAL_MINES st <= BOARD_WIDTH st * BOARD_HEIGHT st →
  fair rng (draws st) (BOARD_WIDTH st) (BOARD_HEIGHT st) →
  ∃ fuel st' l,
    GenerateBoard rng fuel st = Done st' ∧
    Z.of_nat (mine_count st') = TOTAL_MINES st ∧
    Z.of_nat (length l) = TOTAL_MINES st ∧ NoDup l ∧
    (∀ a b, mine_at st' a b = true ↔ (a, b) ∈ l) ∧
    trace st' = trace st ++ placements (PRINT_DEBUG_INFO st) l.
Proof.
  intros Hw Hh Hm Hfair.
  destruct (place_mines_total rng (draws st) (Z.to_nat (TOTAL_MINES st)) 0
              (cleared st)) as (fuel & st' & H).
  - apply cleared_placing.
  - exact Hfair.
  - simpl. lia.
  - unfold mine_count. simpl. unfold ClearBoard.
    rewrite tally_replicate by done. simpl. nia.
  - pose proof (GenerateBoard_placed rng fuel st st' H) as (l & Hlen & A).
    destruct A. exists fuel, st', l.
    assert (E0 : mine_count (cleared st) = 0%nat).
    { unfold mine_count. simpl. by apply tally_replicate. }
    split; [done|]. split; [lia|]. split; [lia|]. split; [done|]. split; [|done].
    intros a b. rewrite ap_mine_at0, cleared_no_mine.
    split; [by intros [?|?]|by right].
Qed.

Lemma round_robin_fair w h : 0 < w → 0 < h → fair (round_robin w h) 0 w h.
Proof.
  intros Hw Hh k x y Hx Hy.
  set (j := (k * Z.to_nat (w * h) + Z.to_nat (y * w + x))%nat).
  assert (Hj : Z.of_nat j = (Z.of_nat k * h + y) * w + x) by (subst j; nia).
  exists j. split; [subst j; nia|].
  unfold round_robin.
  replace (0 + 2 * j)%nat with (2 * j)%nat by lia.
  assert (E1 : Nat.even (2 * j) = true).
  { rewrite Nat.even_mul. done. }
  assert (E2 : Nat.even (2 * j + 1) = false).
  { rewrite Nat.even_add, E1. done. }
  assert (D1 : (2 * j / 2 = j)%nat).
  { rewrite Nat.mul_comm. apply Nat.div_mul. lia. }
  assert (D2 : ((2 * j + 1) / 2 = j)%nat).
  { symmetry. apply (Nat.div_unique _ _ _ 1); lia. }
  rewrite E1, E2, D1, D2, Hj, !Z.mod_mod by lia. split.
  - assert (((Z.of_nat k * h + y) * w + x) `div` w = Z.of_nat k * h + y) as ->.
    { symmetry. apply (Z.div_unique _ w _ x); lia. }
    symmetry. apply (Z.mod_unique _ h (Z.of_nat k)); lia.
  - symmetry. apply (Z.mod_unique _ w (Z.of_nat k * h + y)); lia.
Qed.

(** ** Flagged spaces and reveals *)

(** C6, as the program has it.  A left click on a flagged space changes
    nothing, and [RevealEmpty] leaves a flagged mine or a revealed space as
    it is; but when [RevealEmpty] comes to a hidden flagged space that is
    not a mine, as it does in a cascade, it removes the flag and reveals
    the space, and the space is counted: [pieces_left] drops by the number
    of spaces newly revealed, this one among them. *)
Theorem flagged_space_reveal fuel st x y c :
  rect st → space_at st x y = Some c → flag c = true →
  (hidden_count st < fuel)%nat →
  ClickSpace fuel x y st = Done st ∧
  (type c ≠ HIDDEN → RevealEmpty fuel x y st = Done st) ∧
  (type c = HIDDEN →
     ∃ st', RevealEmpty fuel x y st = Done st' ∧
       space_at st' x y =
         Some {| type := EMPTY; count := count c; flag := false |} ∧
       (0 < newly_revealed (spaces st) (spaces st'))%nat ∧
       pieces_left st' =
         pieces_left st - Z.of_nat (newly_revealed (spaces st) (spaces st')) ∧
       pieces_left st' < pieces_left st).
Proof.
  intros Hr Hc Hfl Hf. split; [|split].
  - unfold ClickSpace. apply space_at_Some in Hc as (_ & _ & _ & ->). simpl.
    by rewrite Hfl.
  - intros Ht. destruct fuel as [|fuel]; [lia|].
    apply RevealEmpty_not_hidden; [done|]. unfold type_at. rewrite Hc. simpl.
    congruence.
  - intros Ht. destruct (RevealEmpty_total fuel x y st Hr Hf) as [st' H].
    exists st'. split; [done|].
    pose proof (RevealEmpty_reveals _ _ _ _ _ H) as R.
    pose proof (reveals_grows _ _ R) as Hg.
    assert (Hnew : (0 < newly_revealed (spaces st) (spaces st'))%nat).
    { destruct (newly_revealed_hidden _ _ (rv_board _ _ R)) as [Hn _].
      assert (Hlt : (hidden_count st' < hidden_count st)%nat).
      { destruct fuel as [|fuel]; [done|]. rewrite RevealEmpty_S in H.
        pose proof (space_at_Some _ _ _ _ Hc) as (Hb & _ & _ & Hp).
        rewrite Hb, Hp in H. cbn [mbind outcome_bind] in H.
        rewrite decide_True in H by done. cbv zeta in H.
        apply bind_Done in H as (st3 & H3 & H).
        pose proof Hp as Hl. apply piece_at_lookup in Hl as (col & Hi & Hj).
        destruct (mark_step st _ _ col c Hi Hj Ht) as [_ Hm].
        assert (hidden_count st3 <= hidden_count
                  (assign (Z.to_nat x, Z.to_nat y) (set_type EMPTY)
                     (if flag c
                      then assign (Z.to_nat x, Z.to_nat y) (set_flag false) st
                      else st)))%nat as Hle.
        { destruct (0 <? count c); [by injection H3 as <-|].
          eapply reveals_hidden_le, each_reveals, H3.
          intros a b s s'. apply RevealEmpty_reveals. }
        assert (hidden_count st' = hidden_count st3) as ->
          by (destruct (_ <=? _); by injection H as <-).
        lia. }
      unfold hidden_count in Hlt. lia. }
    pose proof (reveals_pieces _ _ R) as Hp.
    split; [|split; [done|split; [done|lia]]].
    destruct (RevealEmpty_walked _ _ _ _ _ H) as (W1 & _ & _).
    specialize (W1 (x, y) (list_elem_of_here _ _)). simpl in W1.
    pose proof (grows_space_at st st' x y Hg) as Hs. rewrite Hc in Hs.
    inversion Hs as [c1 c' Hstep E1 E2|]. subst c1.
    destruct Hstep as [->|[_ ->]]; [|done].
    exfalso. apply W1. unfold type_at. rewrite <- E2. simpl. by f_equal.
Qed.

(** ** Win and loss *)

Lemma lookup_space_at st i j col c :
  rect st → spaces st !! i = Some col → col !! j = Some c →
  space_at st (Z.of_nat i) (Z.of_nat j) = Some c.
Proof.
  intros [Hl Hc] Hi Hj.
  pose proof (lookup_lt_Some _ _ _ Hi) as Li.
  pose proof (lookup_lt_Some _ _ _ Hj) as Lj.
  rewrite Forall_lookup in Hc. rewrite (Hc _ _ Hi) in Lj.
  unfold space_at.
  replace (in_board st (Z.of_nat i) (Z.of_nat j)) with true
    by (symmetry; apply in_board_bounds; lia).
  unfold cell.
  destruct (0 <=? Z.of_nat i) eqn:E1; [|lia].
  destruct (0 <=? Z.of_nat j) eqn:E2; [|lia]. simpl.
  rewrite !Nat2Z.id, Hi. simpl. done.
Qed.

Lemma tally_pos p sp :
  (0 < tally p sp)%nat →
  ∃ i col j c, sp !! i = Some col ∧ col !! j = Some c ∧ p c = true.
Proof.
  induction sp as [|col sp IH]; simpl; [lia|]. intros H.
  destruct (decide (0 < count_if p col)%nat) as [Hlt|Hge].
  - assert (∃ j c, col !! j = Some c ∧ p c = true) as (j & c & Hj & Hpc).
    { clear -Hlt. induction col as [|a col IH]; simpl in *; [lia|].
      destruct (p a) eqn:E; [by exists 0%nat, a|].
      destruct IH as (j & c & Hj & Hc); [lia|]. by exists (S j), c. }
    by exists 0%nat, col, j, c.
  - destruct IH as (i & col' & j & c & Hi & Hj & Hpc); [lia|].
    by exists (S i), col', j, c.
Qed.

Lemma no_hidden_iff st :
  rect st →
  hidden_count st = 0%nat ↔ ∀ a b, type_at st a b ≠ Some HIDDEN.
Proof.
  intros Hr. split.
  - intros Hz a b Ht. apply type_at_Some in Ht as (c & Hc & Ht).
    unfold space_at in Hc. destruct (in_board st a b); [|done].
    pose proof (tally_zero _ _ _ _ _ Hz Hc) as Hf.
    unfold is_hidden in Hf. by rewrite Ht in Hf.
  - intros Hall. destruct (hidden_count st) eqn:E; [done|]. exfalso.
    destruct (tally_pos is_hidden (spaces st)) as (i & col & j & c & Hi & Hj & Hp).
    { unfold hidden_count in E. lia. }
    apply (Hall (Z.of_nat i) (Z.of_nat j)). unfold type_at.
    rewrite (lookup_space_at st i j col c Hr Hi Hj). simpl.
    unfold is_hidden in Hp. by destruct (type c).
Qed.

(** C4, as the program has it.  On a well-formed board a left click opens
    at most one dialog.  It opens the win dialog exactly when it newly
    reveals a space and then no space that is not a mine is hidden any more,
    which is when [pieces_left] reaches 0; it opens the game-over dialog
    exactly when the clicked space is a mine that carries no flag. *)
Theorem win_loss_dialogs fuel st x y c :
  wf st → space_at st x y = Some c → (hidden_count st < fuel)%nat →
  ∃ st' new, ClickSpace fuel x y st = Done st' ∧
    trace st' = trace st ++ new ∧
    (new = [EvGameWin] ∨ new = [EvGameOver x y] ∨ new = []) ∧
    (new = [EvGameWin] ↔
       (hidden_count st' < hidden_count st)%nat ∧
       ∀ a b, type_at st' a b ≠ Some HIDDEN) ∧
    (new = [EvGameOver x y] ↔ type c = MINE ∧ flag c = false) ∧
    pieces_left st' = Z.of_nat (hidden_count st') ∧
    (pieces_left st' = 0 ↔ ∀ a b, type_at st' a b ≠ Some HIDDEN).
Proof.
  intros Hwf Hc Hf.
  assert (Hzero : ∀ s, wf s →
            pieces_left s = Z.of_nat (hidden_count s) ∧
            (pieces_left s = 0 ↔ ∀ a b, type_at s a b ≠ Some HIDDEN)).
  { intros s [Hr _ Hp _]. split; [done|].
    rewrite <- (no_hidden_iff s Hr). unfold pieces_ok in Hp. lia. }
  assert (Hquiet : ∀ s, wf s → trace s = trace st →
            hidden_count s = hidden_count st → type c ≠ MINE ∨ flag c = true →
            ∃ st' new, Done s = Done st' ∧ trace st' = trace st ++ new ∧
              (new = [EvGameWin] ∨ new = [EvGameOver x y] ∨ new = []) ∧
              (new = [EvGameWin] ↔
                 (hidden_count st' < hidden_count st)%nat ∧
                 ∀ a b, type_at st' a b ≠ Some HIDDEN) ∧
              (new = [EvGameOver x y] ↔ type c = MINE ∧ flag c = false) ∧
              pieces_left st' = Z.of_nat (hidden_count st') ∧
              (pieces_left st' = 0 ↔ ∀ a b, type_at st' a b ≠ Some HIDDEN)).
  { intros s Hs Ht Hh Hno. exists s, []. split; [done|].
    split; [by rewrite app_nil_r|]. split; [auto|].
    split; [split; [done|intros [? _]; lia]|].
    split; [|by apply Hzero].
    split; [done|]. intros [? ?]. destruct Hno; congruence. }
  unfold ClickSpace.
  pose proof (space_at_Some _ _ _ _ Hc) as (_ & _ & _ & ->). simpl.
  destruct (flag c) eqn:Hfl; [by apply Hquiet; auto|].
  destruct (decide (type c = MINE)) as [Hm|Hm].
  { exists (GameOver x y st), [EvGameOver x y]. split; [done|]. split; [done|].
    split; [auto|]. split; [split; [done|]|].
    - intros [Hlt _]. unfold hidden_count in Hlt. simpl in Hlt. lia.
    - split; [done|]. apply (Hzero (GameOver x y st)). by apply wf_emit. }
  destruct (decide (type c = HIDDEN)) as [Hh|Hh]; [|by apply Hquiet; auto].
  destruct (RevealEmpty_total fuel x y st (wf_rect _ Hwf) Hf) as [st' H].
  pose proof (RevealEmpty_wf _ _ _ _ _ Hwf H) as Hwf'.
  pose proof (RevealEmpty_win _ _ _ _ _ (wf_pieces _ Hwf) H) as Ht.
  pose proof (no_hidden_iff st' (wf_rect _ Hwf')) as Hno.
  eexists st', _. split; [done|]. split; [exact Ht|].
  destruct (decide (hidden_count st' = 0 ∧ hidden_count st' < hidden_count st)%nat)
    as [[E1 E2]|Hn].
  - split; [auto|]. split; [|split; [|by apply Hzero]].
    + split; [intros _; split; [done|by apply Hno]|done].
    + split; [done|]. intros [? _]. congruence.
  - split; [auto|]. split; [|split; [|by apply Hzero]].
    + split; [done|]. intros [Hlt Hall]. apply Hno in Hall. lia.
    + split; [done|]. intros [? _]. congruence.
Qed.

(** ** Clicks on a board without hidden spaces *)

Lemma no_hidden_click fuel x y st st' :
  hidden_count st = 0%nat → ClickSpace fuel x y st = Done st' →
  spaces st' = spaces st ∧ pieces_left st' = pieces_left st.
Proof.
  intros Hz H. unfold ClickSpace in H.
  apply bind_Done in H as ([[i j] c] & Hp & H).
  destruct (flag c); [by injection H as <-|].
  destruct (decide (type c = MINE)); [by injection H as <-|].
  destruct (decide (type c = HIDDEN)) as [Hh|]; [exfalso|by injection H as <-].
  apply piece_at_lookup in Hp as (col & Hi & Hj).
  pose proof (tally_update is_hidden (set_type EMPTY) _ _ _ _ _ Hi Hj) as E.
  unfold hidden_count in Hz. rewrite Hz in E.
  unfold b2z, is_hidden in E. simpl in E. rewrite Hh in E. lia.
Qed.

(** ** The mine total and the size of the board *)

(** At start-up the mine total is cut down to the number of spaces, and
    the message is printed when it was larger. *)
Lemma startup_mine_total args debug :
  let st := startup args debug in
  let m := default 60 (args !! 2%nat) in
  TOTAL_MINES st = Z.min m (BOARD_HEIGHT st * BOARD_WIDTH st) ∧
  pieces_left st = BOARD_HEIGHT st * BOARD_WIDTH st - TOTAL_MINES st ∧
  trace st =
    if BOARD_HEIGHT st * BOARD_WIDTH st <? m
    then [EvStartupClamp m (BOARD_WIDTH st) (BOARD_HEIGHT st)
            (BOARD_HEIGHT st * BOARD_WIDTH st)]
    else [].
Proof.
  simpl. destruct (_ <? _) eqn:E; repeat split; lia.
Qed.

(** With more mines asked for than the board has spaces, the placement
    loop never comes to an end. *)
Lemma overfull_never_done rng fuel st :
  (Z.to_nat (BOARD_WIDTH st) * Z.to_nat (BOARD_HEIGHT st)
     < Z.to_nat (TOTAL_MINES st))%nat →
  is_done (GenerateBoard rng fuel st) = false.
Proof.
  intros Hlt. destruct (GenerateBoard rng fuel st) as [st'|?|] eqn:E; [exfalso|done..].
  apply GenerateBoard_placed in E as (l & Hlen & A). destruct A.
  destruct (ap_placing0 (cleared_placing st)) as [[Hl Hc] _ _].
  pose proof (tally_le is_mine _ _ Hc) as Hle.
  unfold mine_count in ap_count0. rewrite ap_count0 in Hle.
  rewrite Hl, ap_width0, ap_height0, Hlen in Hle. simpl in Hle. lia.
Qed.

(** C7: start-up cuts the mine total down to the board, [NewGame] does
    not.  Asked for 5 mines on a 2 by 2 board, start-up sets the total to 4
    and prints the message.  [NewGame] with the same request sets the total
    to [5 * 2 = 10] when debug output is on, and leaves the previous total
    (60) when it is off; in both cases the generation that follows does not
    return. *)
Theorem NewGame_mine_total_not_clamped rng fuel :
  TOTAL_MINES (startup [2; 2; 5] None) = 4 ∧
  trace (startup [2; 2; 5] None) = [EvStartupClamp 5 2 2 4] ∧
  TOTAL_MINES (NewGame_config 2 2 5 debug_start) = 10 ∧
  trace (NewGame_config 2 2 5 debug_start) = [EvNewGameClamp 5 2 2 10] ∧
  TOTAL_MINES (NewGame_config 2 2 5 plain_start) = 60 ∧
  trace (NewGame_config 2 2 5 plain_start) = [] ∧
  is_done (NewGame rng fuel 2 2 5 debug_start) = false ∧
  is_done (NewGame rng fuel 2 2 5 plain_start) = false.
Proof.
  repeat split; try reflexivity.
  - apply overfull_never_done. vm_compute. lia.
  - apply overfull_never_done. vm_compute. lia.
Qed.

(** ** Counterexamples *)

(** C4: the single space of [mine_board] is a flagged mine.  No space
    that is not a mine is hidden, yet no win dialog was opened; and a left
    click on the mine returns the state as it was, without a game-over
    dialog. *)
Lemma win_loss_counterexample :
  mine_at mine_board 0 0 = true ∧
  (∀ a b, type_at mine_board a b ≠ Some HIDDEN) ∧
  trace mine_board = [] ∧
  ClickSpace 1 0 0 mine_board = Done mine_board.
Proof.
  split; [reflexivity|]. split; [|split; reflexivity].
  apply no_hidden_iff; [|reflexivity].
  split; [reflexivity|]. repeat constructor.
Qed.

(** C6: on [flag_board] the space [(0, 1)] is hidden and flagged.  A left
    click on its neighbour [(0, 0)], whose count is 0, reveals it, removes
    its flag and counts it in [pieces_left]. *)
Lemma flagged_cascade_counterexample :
  space_at flag_board 0 1 = Some {| type := HIDDEN; count := 0; flag := true |} ∧
  pieces_left flag_board = 2 ∧
  ∃ st', ClickSpace 3 0 0 flag_board = Done st' ∧
    space_at st' 0 1 = Some {| type := EMPTY; count := 0; flag := false |} ∧
    pieces_left st' = 0.
Proof.
  split; [reflexivity|]. split; [reflexivity|].
  eexists. split; [reflexivity|]. split; reflexivity.
Qed.

(** ** The properties at work on the example boards *)

Lemma demo_board_generated :
  GenerateBoard (round_robin 3 3) 1 demo_start = Done demo_board.
Proof. reflexivity. Qed.

Lemma demo_board_wf : wf demo_board.
Proof.
  apply (GenerateBoard_wf (round_robin 3 3) 1 demo_start);
    [by vm_compute..|exact demo_board_generated].
Qed.

Lemma pair_board_wf : wf pair_board.
Proof.
  apply (GenerateBoard_wf (round_robin 2 1) 1 pair_start);
    [by vm_compute..|reflexivity].
Qed.

Lemma flag_board_wf : wf flag_board.
Proof.
  apply (RightClickSpace_wf 0 1 flag_fresh); [|reflexivity].
  apply (GenerateBoard_wf (round_robin 1 2) 1 flag_start);
    [by vm_compute..|reflexivity].
Qed.

Lemma counts_match_mines_witness :
  counts_ok demo_board ∧ counts_ok demo_played ∧
  ∀ a b, count_at demo_played a b = count_at demo_board a b ∧
         mine_at demo_played a b = mine_at demo_board a b.
Proof.
  apply (counts_match_mines (round_robin 3 3) 1 demo_start demo_board
           8 [LeftClick 0 2; RightClick 0 0] demo_played).
  - reflexivity.
  - reflexivity.
Defined.

Lemma GenerateBoard_places_mines_witness :
  ∃ fuel st' l,
    GenerateBoard (round_robin 3 3) fuel demo_start = Done st' ∧
    Z.of_nat (mine_count st') = 2 ∧
    Z.of_nat (length l) = 2 ∧ NoDup l ∧
    (∀ a b, mine_at st' a b = true ↔ (a, b) ∈ l) ∧
    trace st' = trace demo_start ++ placements false l.
Proof.
  apply (GenerateBoard_places_mines (round_robin 3 3) demo_start).
  - vm_compute. discriminate.
  - vm_compute. discriminate.
  - split; vm_compute; discriminate.
  - apply (round_robin_fair 3 3); lia.
Defined.

Lemma flag_toggle_round_trip_witness :
  ∃ st1, RightClickSpace 0 0 demo_board = Done st1 ∧
    space_at st1 0 0 = Some {| type := MINE; count := 1; flag := true |} ∧
    (∀ a b, type_at st1 a b = type_at demo_board a b) ∧
    pieces_left st1 = pieces_left demo_board ∧ trace st1 = trace demo_board ∧
    RightClickSpace 0 0 st1 = Done demo_board.
Proof.
  apply (flag_toggle_round_trip demo_board 0 0
           {| type := MINE; count := 1; flag := false |}).
  - reflexivity.
  - simpl. discriminate.
Defined.

Lemma mine_click_only_opens_dialog_witness :
  (∃ st', ClickSpace 1 0 0 demo_board = Done st' ∧
     trace st' = trace demo_board ++ [EvGameOver 0 0] ∧
     spaces st' = spaces demo_board ∧ pieces_left st' = pieces_left demo_board) ∧
  RevealEmpty 2 0 0 demo_board = Done demo_board.
Proof.
  destruct (mine_click_only_opens_dialog 1 demo_board 0 0
              {| type := MINE; count := 1; flag := false |}
              eq_refl eq_refl) as [H1 H2].
  split; [|exact H2].
  destruct (H1 eq_refl) as (st' & E1 & E2 & E3 & E4 & _).
  exists st'. repeat split; assumption.
Defined.

Lemma win_loss_dialogs_witness :
  ∃ st' new, ClickSpace 2 1 0 pair_board = Done st' ∧
    trace st' = trace pair_board ++ new ∧
    (new = [EvGameWin] ↔
       (hidden_count st' < hidden_count pair_board)%nat ∧
       ∀ a b, type_at st' a b ≠ Some HIDDEN) ∧
    (new = [EvGameOver 1 0] ↔ HIDDEN = MINE ∧ false = false).
Proof.
  destruct (win_loss_dialogs 2 pair_board 1 0
              {| type := HIDDEN; count := 1; flag := false |}
              pair_board_wf eq_refl)
    as (st' & new & H1 & H2 & _ & H3 & H4 & _).
  - vm_compute. lia.
  - exists st', new. split; [exact H1|]. split; [exact H2|].
    split; [exact H3|exact H4].
Defined.

Lemma flagged_space_reveal_witness :
  ClickSpace 3 0 1 flag_board = Done flag_board ∧
  ∃ st', RevealEmpty 3 0 1 flag_board = Done st' ∧
    space_at st' 0 1 = Some {| type := EMPTY; count := 0; flag := false |} ∧
    (0 < newly_revealed (spaces flag_board) (spaces st'))%nat ∧
    pieces_left st' =
      pieces_left flag_board
      - Z.of_nat (newly_revealed (spaces flag_board) (spaces st')) ∧
    pieces_left st' < pieces_left flag_board.
Proof.
  destruct (flagged_space_reveal 3 flag_board 0 1
              {| type := HIDDEN; count := 0; flag := true |}
              (wf_rect _ flag_board_wf) eq_refl eq_refl) as (H1 & _ & H3).
  - vm_compute. lia.
  - split; [exact H1|]. exact (H3 eq_refl).
Defined.

(** * Further properties of the program *)

(** ** Start-up *)

(** X1.  Whatever the launch arguments, start-up leaves a mine total that
    is the smaller of the requested total and the number of spaces, a
    [pieces_left] that is the number of spaces minus that total and is
    never negative, a message exactly when the request was too large, and a
    grid of the requested dimensions in which every space is hidden,
    unflagged and has count 0. *)
Theorem startup_clamps_mines args debug :
  let st := startup args debug in
  let m := default 60 (args !! 2%nat) in
  TOTAL_MINES st = Z.min m (BOARD_HEIGHT st * BOARD_WIDTH st) ∧
  0 <= pieces_left st ∧
  pieces_left st = BOARD_HEIGHT st * BOARD_WIDTH st - TOTAL_MINES st ∧
  (trace st ≠ [] ↔ BOARD_HEIGHT st * BOARD_WIDTH st < m) ∧
  rect st ∧
  ∀ x y c, space_at st x y = Some c → c = blank.
Proof.
  intros st m.
  destruct (startup_mine_total args debug) as (H1 & H2 & H3).
  fold st m in H1, H2, H3.
  split; [done|]. split; [lia|]. split; [done|]. split; [|split].
  - rewrite H3. destruct (_ <? _) eqn:E; split; try done; lia.
  - split; simpl; unfold ClearBoard; simpl; [by rewrite length_replicate|].
    apply Forall_replicate. by rewrite length_replicate.
  - intros x y c Hc. unfold space_at in Hc. destruct (in_board st x y); [|done].
    by apply cell_replicate in Hc.
Qed.

(** ** Labels *)

(** X2.  A revealed space gets a label exactly when its count is
    positive, and the colour of the label is one of blue, green, red,
    #571100, magenta and black: the branch that would give yellow repeats
    the test for 2 and is never taken.  2 is green, 3 is red, and every
    count above 5 is black. *)
Theorem label_color_never_yellow n :
  (label_color n = None ↔ n <= 0) ∧
  (∀ s, label_color n = Some s →
     s ∈ ["blue"; "green"; "red"; "#571100"; "magenta"; "black"]%string ∧
     String.eqb s "yellow" = false) ∧
  label_color 2 = Some "green"%string ∧ label_color 3 = Some "red"%string ∧
  label_color (Z.max 6 n) = Some "black"%string.
Proof.
  assert (Hout : ∀ k, 5 < k → label_color k = Some "black"%string).
  { intros k Hk. unfold label_color.
    rewrite (proj2 (Z.ltb_lt 0 k)) by (clear -Hk; lia).
    rewrite (proj2 (Z.eqb_neq k 1)), (proj2 (Z.eqb_neq k 2)),
      (proj2 (Z.eqb_neq k 3)), (proj2 (Z.eqb_neq k 4)),
      (proj2 (Z.eqb_neq k 5)) by (clear -Hk; lia).
    reflexivity. }
  assert (Hnone : ∀ k, k <= 0 → label_color k = None).
  { intros k Hk. unfold label_color.
    by rewrite (proj2 (Z.ltb_ge 0 k)) by (clear -Hk; lia). }
  assert (Hcases : n <= 0 ∨ n = 1 ∨ n = 2 ∨ n = 3 ∨ n = 4 ∨ n = 5 ∨ 5 < n)
    by lia.
  split; [|split; [|split; [done|split; [done|apply Hout; lia]]]].
  - destruct Hcases as [Hk|[->|[->|[->|[->|[->|Hk]]]]]];
      [rewrite (Hnone n Hk); split; [by intros _|done]
      |split; [discriminate|intros H; clear -H; lia]..
      |rewrite (Hout n Hk); split; [discriminate|intros H; clear -H Hk; lia]].
  - intros s Hs.
    destruct Hcases as [Hk|[->|[->|[->|[->|[->|Hk]]]]]];
      [rewrite (Hnone n Hk) in Hs; discriminate
      |injection Hs as <-..
      |rewrite (Hout n Hk) in Hs; injection Hs as <-];
      (split; [|reflexivity]);
      repeat first [apply list_elem_of_here | apply list_elem_of_further].
Qed.

(** ** Counts *)

Lemma mines_among_le st l :
  foldr (λ p n, (if mine_at st p.1 p.2 then 1 else 0) + n) 0 l
  <= Z.of_nat (length l).
Proof.
  induction l as [|p l IH]; cbn [foldr length]; [lia|].
  destruct (mine_at st p.1 p.2); lia.
Qed.

(** X3.  On a generated board, and after any clicks on it, every count
    is between 0 and 8. *)
Theorem counts_between_0_and_8 rng fuel st0 st fuel' acts st' x y c :
  GenerateBoard rng fuel st0 = Done st →
  play fuel' acts st = Done st' →
  space_at st' x y = Some c → 0 <= count c <= 8.
Proof.
  intros Hgen Hplay Hc.
  apply GenerateBoard_placed in Hgen as (l & _ & A).
  pose proof (pl_counts _ (ap_placing _ _ _ A (cleared_placing st0))) as Hk.
  pose proof (keeps_counts_ok _ _ Hk (play_keeps _ _ _ _ Hplay)) as Hk'.
  rewrite (Hk' x y c Hc). unfold mines_around. split.
  - apply mines_among_nonneg.
  - apply (mines_among_le st' (around x y)).
Qed.

Lemma counts_between_0_and_8_witness :
  0 <= 2 <= 8.
Proof.
  apply (counts_between_0_and_8 (round_robin 3 3) 1 demo_start demo_board
           8 [LeftClick 0 2; RightClick 0 0] demo_played 1 1
           {| type := EMPTY; count := 2; flag := false |});
    reflexivity.
Defined.

(** ** Single reveals *)

(** X4.  [RevealEmpty] on a hidden space with a positive count, on any
    board, returns without recursion: it reveals that space, clears its
    flag, lowers [pieces_left] by one and leaves every other space as it
    was. *)
Theorem numbered_space_reveals_alone fuel st x y c :
  space_at st x y = Some c → type c = HIDDEN → 0 < count c →
  ∃ st', RevealEmpty (S fuel) x y st = Done st' ∧
    space_at st' x y =
      Some {| type := EMPTY; count := count c; flag := false |} ∧
    (∀ a b, ¬ (a = x ∧ b = y) → space_at st' a b = space_at st a b) ∧
    pieces_left st' = pieces_left st - 1.
Proof.
  intros Hc Ht Hpos.
  pose proof (space_at_Some _ _ _ _ Hc) as (Hb & Hx & Hy & Hp).
  assert (Hcell : cell (spaces st) x y = Some c).
  { unfold space_at in Hc. by rewrite Hb in Hc. }
  pose proof (mark_space_at st x y c) as Hm.
  rewrite RevealEmpty_S, Hb, Hp. cbn [mbind outcome_bind].
  rewrite decide_True by done.
  destruct (0 <? count c) eqn:E; [|lia]. cbn [mbind outcome_bind].
  set (st2 := assign _ (set_type EMPTY) _) in *.
  assert (Hpl : pieces_left st2 = pieces_left st) by (subst st2; by destruct (flag c)).
  cbn [with_pieces_left pieces_left].
  destruct (pieces_left st2 - 1 <=? 0); eexists; (split; [done|]);
    (split; [|split]).
  - change (space_at st2 x y = Some {| type := EMPTY; count := count c; flag := false |}).
    rewrite (Hm x y Hb Hcell). by rewrite decide_True.
  - intros a b Hne. change (space_at st2 a b = space_at st a b).
    rewrite (Hm a b Hb Hcell). by rewrite decide_False.
  - cbn [GameWin emit with_pieces_left pieces_left]. lia.
  - change (space_at st2 x y = Some {| type := EMPTY; count := count c; flag := false |}).
    rewrite (Hm x y Hb Hcell). by rewrite decide_True.
  - intros a b Hne. change (space_at st2 a b = space_at st a b).
    rewrite (Hm a b Hb Hcell). by rewrite decide_False.
  - cbn [with_pieces_left pieces_left]. lia.
Qed.

Lemma numbered_space_reveals_alone_witness :
  ∃ st', RevealEmpty 1 1 1 demo_board = Done st' ∧
    space_at st' 1 1 = Some {| type := EMPTY; count := 2; flag := false |} ∧
    (∀ a b, ¬ (a = 1 ∧ b = 1) → space_at st' a b = space_at demo_board a b) ∧
    pieces_left st' = pieces_left demo_board - 1.
Proof.
  apply (numbered_space_reveals_alone 0 demo_board 1 1
           {| type := HIDDEN; count := 2; flag := false |}).
  - reflexivity.
  - reflexivity.
  - simpl. lia.
Defined.

Lemma RevealEmpty_strict fuel x y st st' c :
  space_at st x y = Some c → type c = HIDDEN →
  RevealEmpty fuel x y st = Done st' →
  (hidden_count st' < hidden_count st)%nat.
Proof.
  intros Hc Ht H. destruct fuel as [|fuel]; [done|].
  pose proof (space_at_Some _ _ _ _ Hc) as (Hb & Hx & Hy & Hp).
  rewrite RevealEmpty_S, Hb, Hp in H. cbn [mbind outcome_bind] in H.
  rewrite decide_True in H by done.
  apply bind_Done in H as (st3 & H3 & H).
  apply piece_at_lookup in Hp as (col & Hi & Hj).
  destruct (mark_step st _ _ col c Hi Hj Ht) as [_ Hh].
  set (st2 := assign _ (set_type EMPTY) _) in *.
  assert (hidden_count st3 <= hidden_count st2)%nat as Hle.
  { destruct (0 <? count c); [by injection H3 as <-|].
    apply reveals_hidden_le.
    eapply each_reveals, H3. apply RevealEmpty_reveals. }
  cbn [with_pieces_left pieces_left] in H.
  assert (hidden_count st' = hidden_count st3) as ->.
  { destruct (_ <=? _); by injection H as <-. }
  lia.
Qed.

(** X6.  On any board, whatever its counts and whatever was revealed
    before, the spaces revealed after [RevealEmpty x y] are those revealed
    before and the hidden spaces that can be walked to from [(x, y)]
    through hidden spaces without a positive count; spaces that were not
    hidden, mines among them, and all counts are left as they were. *)
Theorem reveal_is_reachability fuel x y st st' :
  RevealEmpty fuel x y st = Done st' →
  (∀ a b, type_at st' a b = Some EMPTY ↔
          type_at st a b = Some EMPTY ∨ reach st x y a b) ∧
  (∀ a b, type_at st a b ≠ Some HIDDEN → space_at st' a b = space_at st a b) ∧
  (∀ a b, count_at st' a b = count_at st a b).
Proof.
  intros H.
  pose proof (reveals_grows _ _ (RevealEmpty_reveals _ _ _ _ _ H)) as Hg.
  split; [exact (RevealEmpty_exact _ _ _ _ _ H)|]. split.
  - intros a b Hn. unfold type_at in Hn.
    destruct (grows_space_at st st' a b Hg) as [c c' [->|[Hc ->]]|]; try done.
    exfalso. apply Hn. simpl. by f_equal.
  - intros a b. by apply (grows_keeps st st' Hg).
Qed.

Lemma reveal_is_reachability_witness :
  (∀ a b, type_at demo_revealed a b = Some EMPTY ↔
          type_at demo_board a b = Some EMPTY ∨ reach demo_board 0 2 a b) ∧
  (∀ a b, type_at demo_board a b ≠ Some HIDDEN →
          space_at demo_revealed a b = space_at demo_board a b) ∧
  (∀ a b, count_at demo_revealed a b = count_at demo_board a b).
Proof.
  apply (reveal_is_reachability 8 0 2 demo_board demo_revealed). reflexivity.
Defined.

(** ** What holds throughout a game *)

Lemma set_flag_space_at st i j col c v a b :
  spaces st !! i = Some col → col !! j = Some c →
  space_at (assign (i, j) (set_flag v) st) a b = space_at st a b ∨
  (space_at st a b = Some c ∧
   space_at (assign (i, j) (set_flag v) st) a b = Some (set_flag v c)).
Proof.
  intros Hi Hj. rewrite <- (Nat2Z.id i), <- (Nat2Z.id j).
  rewrite assign_space_at by lia. rewrite ?Nat2Z.id.
  case_decide as E; [|by left]. destruct E as [-> ->].
  destruct (space_at st (Z.of_nat i) (Z.of_nat j)) as [s|] eqn:Hs; [|by left].
  right. assert (s = c) as ->; [|done].
  unfold space_at in Hs. destruct (in_board _ _ _); [|done].
  unfold cell in Hs. destruct (_ && _); [|done].
  rewrite !Nat2Z.id, Hi in Hs. simpl in Hs. congruence.
Qed.

Lemma grows_flags_ok st st' : grows st st' → flags_ok st → flags_ok st'.
Proof.
  intros Hg Hok x y c' Hc' Ht.
  destruct (grows_back _ _ _ _ _ Hg Hc') as (c & Hc & [->|[_ ->]]); [|done].
  by apply (Hok x y).
Qed.

Lemma act_flags_ok fuel a st st' :
  flags_ok st → act fuel a st = Done st' → flags_ok st'.
Proof.
  intros Hok H. destruct a as [x y|x y]; simpl in H.
  - unfold ClickSpace in H. apply bind_Done in H as ([[i j] c] & _ & H).
    destruct (flag c); [by injection H as <-|].
    destruct (decide (type c = MINE)); [by injection H as <-|].
    destruct (decide (type c = HIDDEN)); [|by injection H as <-].
    eapply grows_flags_ok; [|done].
    eapply reveals_grows, RevealEmpty_reveals, H.
  - unfold RightClickSpace in H. apply bind_Done in H as ([[i j] c] & Hp & H).
    apply piece_at_lookup in Hp as (col & Hi & Hj).
    destruct (decide (_ ∨ _)) as [Hty|]; [|by injection H as <-].
    assert (∀ v, flags_ok (assign (i, j) (set_flag v) st)) as Hset.
    { intros v a b s Hs Ht.
      destruct (set_flag_space_at st i j col c v a b Hi Hj) as [E|[_ E]].
      - apply (Hok a b). by rewrite <- E. done.
      - rewrite E in Hs. injection Hs as <-. simpl in Ht.
        destruct Hty; congruence. }
    destruct (flag c); injection H as <-; apply Hset.
Qed.

Lemma play_flags_ok fuel acts :
  ∀ st st', flags_ok st → play fuel acts st = Done st' → flags_ok st'.
Proof.
  induction acts as [|a acts IH]; intros st st' Hok H; simpl in H.
  - by injection H as <-.
  - apply bind_Done in H as (st1 & H1 & H).
    eapply IH; [|done]. by eapply act_flags_ok.
Qed.

Lemma generated_flags_ok rng fuel st0 st :
  GenerateBoard rng fuel st0 = Done st → flags_ok st.
Proof.
  intros Hgen x y c Hc Ht. exfalso.
  apply GenerateBoard_placed in Hgen as (l & _ & A).
  pose proof (pl_no_empty _ (ap_placing _ _ _ A (cleared_placing st0))) as He.
  unfold space_at in Hc. destruct (in_board st x y); [|done].
  pose proof (tally_zero _ _ _ _ _ He Hc) as Hf.
  unfold is_empty in Hf. by rewrite Ht in Hf.
Qed.

(** X7.  On a generated board, and after any clicks on it, no space is
    both revealed and flagged. *)
Theorem never_revealed_and_flagged rng fuel st0 st fuel' acts st' x y c :
  GenerateBoard rng fuel st0 = Done st →
  play fuel' acts st = Done st' →
  space_at st' x y = Some c → type c = EMPTY → flag c = false.
Proof.
  intros Hgen Hplay. revert x y c. change (flags_ok st').
  apply (play_flags_ok fuel' acts st st'); [|done].
  by eapply generated_flags_ok.
Qed.

Lemma never_revealed_and_flagged_witness :
  flag {| type := EMPTY; count := 0; flag := false |} = false.
Proof.
  apply (never_revealed_and_flagged (round_robin 3 3) 1 demo_start demo_board
           8 [LeftClick 0 2; RightClick 0 0] demo_played 0 2
           {| type := EMPTY; count := 0; flag := false |});
    reflexivity.
Defined.

Lemma progress_refl st : progress st st.
Proof. by split. Qed.

Lemma progress_trans st1 st2 st3 :
  progress st1 st2 → progress st2 st3 → progress st1 st3.
Proof.
  intros [] []. split; try congruence; try lia. auto.
Qed.

Lemma reveals_progress st st' : reveals st st' → progress st st'.
Proof.
  intros R. pose proof (reveals_grows _ _ R) as Hg.
  pose proof (reveals_hidden_le _ _ R) as Hle.
  destruct R. split; try done.
  - intros x y. by apply grows_empty.
  - lia.
  - unfold mine_count. by destruct (newly_revealed_hidden _ _ rv_board0).
Qed.

Lemma set_flag_progress st i j col c v :
  spaces st !! i = Some col → col !! j = Some c →
  progress st (assign (i, j) (set_flag v) st).
Proof.
  intros Hi Hj. split; try done.
  - intros x y Ht. unfold type_at in *.
    destruct (set_flag_space_at st i j col c v x y Hi Hj) as [->|[E1 ->]]; [done|].
    rewrite E1 in Ht. done.
  - unfold hidden_count. simpl. apply Nat2Z.inj_le.
    rewrite (tally_update _ _ _ _ _ _ _ Hi Hj).
    change (is_hidden (set_flag v c)) with (is_hidden c). lia.
  - unfold mine_count. simpl. apply Nat2Z.inj.
    rewrite (tally_update _ _ _ _ _ _ _ Hi Hj).
    change (is_mine (set_flag v c)) with (is_mine c). lia.
Qed.

Lemma act_progress fuel a st st' : act fuel a st = Done st' → progress st st'.
Proof.
  intros H. destruct a as [x y|x y]; simpl in H.
  - unfold ClickSpace in H. apply bind_Done in H as ([[i j] c] & _ & H).
    destruct (flag c); [injection H as <-; apply progress_refl|].
    destruct (decide (type c = MINE)); [by injection H as <-|].
    destruct (decide (type c = HIDDEN)); [|injection H as <-; apply progress_refl].
    eapply reveals_progress, RevealEmpty_reveals, H.
  - unfold RightClickSpace in H. apply bind_Done in H as ([[i j] c] & Hp & H).
    apply piece_at_lookup in Hp as (col & Hi & Hj).
    destruct (decide (_ ∨ _)); [|injection H as <-; apply progress_refl].
    destruct (flag c); injection H as <-; by eapply set_flag_progress.
Qed.

Lemma play_progress fuel acts :
  ∀ st st', play fuel acts st = Done st' → progress st st'.
Proof.
  induction acts as [|a acts IH]; intros st st' H; simpl in H.
  - injection H as <-. apply progress_refl.
  - apply bind_Done in H as (st1 & H1 & H).
    eapply progress_trans; [by eapply act_progress|by apply IH].
Qed.

(** X8.  Clicks never undo anything, on any board: a revealed space stays
    revealed, the number of hidden spaces and [pieces_left] never grow, and
    the number of mines and the dimensions stay as they are. *)
Theorem clicks_never_hide fuel acts st st' :
  play fuel acts st = Done st' →
  (∀ x y, type_at st x y = Some EMPTY → type_at st' x y = Some EMPTY) ∧
  (hidden_count st' <= hidden_count st)%nat ∧
  pieces_left st' <= pieces_left st ∧
  mine_count st' = mine_count st ∧
  BOARD_WIDTH st' = BOARD_WIDTH st ∧ BOARD_HEIGHT st' = BOARD_HEIGHT st.
Proof.
  intros H. destruct (play_progress _ _ _ _ H). by repeat split.
Qed.

Lemma clicks_never_hide_witness :
  (∀ x y, type_at demo_board x y = Some EMPTY → type_at demo_played x y = Some EMPTY) ∧
  (hidden_count demo_played <= hidden_count demo_board)%nat ∧
  pieces_left demo_played <= pieces_left demo_board ∧
  mine_count demo_played = mine_count demo_board ∧
  BOARD_WIDTH demo_played = BOARD_WIDTH demo_board ∧
  BOARD_HEIGHT demo_played = BOARD_HEIGHT demo_board.
Proof.
  apply (clicks_never_hide 8 [LeftClick 0 2; RightClick 0 0]). reflexivity.
Defined.

(** From generation on and through clicks that return, [pieces_left] is
    the number of hidden spaces that are not mines; it is never negative,
    the hidden, revealed and mined spaces together are all the spaces of
    the board, and the mines are as many as [TOTAL_MINES]. *)
Lemma generated_board_accounts rng fuel st0 st fuel' acts st' :
  0 <= BOARD_WIDTH st0 → 0 <= BOARD_HEIGHT st0 → 0 <= TOTAL_MINES st0 →
  GenerateBoard rng fuel st0 = Done st →
  play fuel' acts st = Done st' →
  pieces_left st' = Z.of_nat (hidden_count st') ∧
  0 <= pieces_left st' ∧
  Z.of_nat (hidden_count st' + revealed_count st' + mine_count st')
    = BOARD_WIDTH st0 * BOARD_HEIGHT st0 ∧
  Z.of_nat (mine_count st') = TOTAL_MINES st0.
Proof.
  intros Hw Hh Hm Hgen Hplay.
  pose proof (GenerateBoard_wf _ _ _ _ Hw Hh Hm Hgen) as Hwf.
  pose proof (play_wf _ _ _ _ Hwf Hplay) as [[Hl Hc] _ Hp _].
  destruct (play_progress _ _ _ _ Hplay).
  apply GenerateBoard_placed in Hgen as (l & Hlen & A). destruct A.
  unfold pieces_ok in Hp.
  assert (E0 : mine_count (cleared st0) = 0%nat).
  { unfold mine_count. simpl. by apply tally_replicate. }
  split; [done|]. split; [lia|]. split; [|lia].
  unfold hidden_count, revealed_count, mine_count.
  rewrite (tally_partition _ _ Hc), Hl.
  rewrite pg_width0, pg_height0, ap_width0, ap_height0. simpl. nia.
Qed.

(** ** The win dialog opens once *)

Lemma wins_app a b : wins (a ++ b) = (wins a + wins b)%nat.
Proof.
  induction a as [|e a IH]; simpl; [done|]. destruct e; simpl; lia.
Qed.

Lemma act_wins fuel a st st' :
  wf st → act fuel a st = Done st' →
  ∃ new, trace st' = trace st ++ new ∧
    wins new =
      if decide (hidden_count st' = 0 ∧ hidden_count st' < hidden_count st)%nat
      then 1%nat else 0%nat.
Proof.
  intros Hwf H.
  assert (Hnone : ∀ s, trace s = trace st → hidden_count s = hidden_count st →
            ∃ new, trace s = trace st ++ new ∧
              wins new =
                if decide (hidden_count s = 0 ∧ hidden_count s < hidden_count st)%nat
                then 1%nat else 0%nat).
  { intros s Ht Hh. exists []. rewrite app_nil_r. split; [done|].
    rewrite decide_False by lia. done. }
  destruct a as [x y|x y]; simpl in H.
  - unfold ClickSpace in H. apply bind_Done in H as ([[i j] c] & _ & H).
    destruct (flag c); [injection H as <-; by apply Hnone|].
    destruct (decide (type c = MINE)).
    { injection H as <-. exists [EvGameOver x y]. split; [done|].
      rewrite decide_False; [done|]. unfold hidden_count. simpl. lia. }
    destruct (decide (type c = HIDDEN)); [|injection H as <-; by apply Hnone].
    pose proof (RevealEmpty_win _ _ _ _ _ (wf_pieces _ Hwf) H) as Ht.
    eexists. split; [exact Ht|]. by case_decide.
  - unfold RightClickSpace in H. apply bind_Done in H as ([[i j] c] & Hp & H).
    apply piece_at_lookup in Hp as (col & Hi & Hj).
    destruct (decide (_ ∨ _)); [|injection H as <-; by apply Hnone].
    assert (∀ v, hidden_count (assign (i, j) (set_flag v) st) = hidden_count st) as Hv.
    { intros v. unfold hidden_count. simpl. apply Nat2Z.inj.
      rewrite (tally_update _ _ _ _ _ _ _ Hi Hj).
      change (is_hidden (set_flag v c)) with (is_hidden c). lia. }
    destruct (flag c); injection H as <-; by apply Hnone.
Qed.

Lemma play_wins fuel acts :
  ∀ st st', wf st → play fuel acts st = Done st' →
    ∃ new, trace st' = trace st ++ new ∧
      wins new =
        if decide (hidden_count st' = 0 ∧ 0 < hidden_count st)%nat
        then 1%nat else 0%nat.
Proof.
  induction acts as [|a acts IH]; intros st st' Hwf H; simpl in H.
  - injection H as <-. exists []. rewrite app_nil_r. split; [done|].
    rewrite decide_False by lia. done.
  - apply bind_Done in H as (st1 & H1 & H).
    destruct (act_wins _ _ _ _ Hwf H1) as (n1 & T1 & W1).
    pose proof (pg_hidden _ _ (act_progress _ _ _ _ H1)) as Hle1.
    pose proof (pg_hidden _ _ (play_progress _ _ _ _ H)) as Hle2.
    assert (Hwf1 : wf st1).
    { destruct a; simpl in H1;
        [by eapply ClickSpace_wf|by eapply RightClickSpace_wf]. }
    destruct (IH _ _ Hwf1 H) as (n2 & T2 & W2).
    exists (n1 ++ n2). split; [by rewrite T2, T1, app_assoc|].
    rewrite wins_app, W1, W2.
    repeat case_decide; lia.
Qed.

(** X10.  On a well-formed board, over any sequence of clicks, the win
    dialog opens exactly once if the clicks take the board from having a
    hidden space that is not a mine to having none, and not at all
    otherwise; so it never opens twice. *)
Theorem win_dialog_exactly_once fuel acts st st' :
  wf st → play fuel acts st = Done st' →
  ∃ new, trace st' = trace st ++ new ∧ (wins new <= 1)%nat ∧
    (wins new = 1%nat ↔ hidden_count st' = 0%nat ∧ (0 < hidden_count st)%nat).
Proof.
  intros Hwf H. destruct (play_wins _ _ _ _ Hwf H) as (new & Ht & Hw).
  exists new. split; [done|]. rewrite Hw. case_decide; split; lia.
Qed.

Lemma win_dialog_exactly_once_witness :
  ∃ new, trace (state_of (play 3 [LeftClick 1 0; LeftClick 1 0; LeftClick 0 0] pair_board)
                  pair_board)
         = trace pair_board ++ new ∧ (wins new <= 1)%nat ∧
    (wins new = 1%nat ↔
     hidden_count (state_of (play 3 [LeftClick 1 0; LeftClick 1 0; LeftClick 0 0]
                               pair_board) pair_board) = 0%nat ∧
     (0 < hidden_count pair_board)%nat).
Proof.
  apply (win_dialog_exactly_once 3 [LeftClick 1 0; LeftClick 1 0; LeftClick 0 0]).
  - exact pair_board_wf.
  - reflexivity.
Defined.

(** ** A board can be won *)

Lemma wins_replicate k : wins (replicate k EvGameWin) = k.
Proof. induction k as [|k IH]; simpl; [done|]. by rewrite IH. Qed.

Lemma click_safe_step fuel st x y :
  wf st → no_hidden_flag st → (hidden_count st < fuel)%nat →
  in_board st x y = true → mine_at st x y = false →
  ∃ st' k, ClickSpace fuel x y st = Done st' ∧ grows st st' ∧ wf st' ∧
    type_at st' x y ≠ Some HIDDEN ∧
    trace st' = trace st ++ replicate k EvGameWin.
Proof.
  intros Hwf Hnf Hf Hb Hm.
  destruct (rect_space_at st x y (wf_rect _ Hwf) Hb) as [c Hc].
  assert (Hsame : type c ≠ HIDDEN →
            ∃ st' k, Done st = Done st' ∧ grows st st' ∧ wf st' ∧
              type_at st' x y ≠ Some HIDDEN ∧
              trace st' = trace st ++ replicate k EvGameWin).
  { intros Hn. exists st, 0%nat. split; [done|]. split; [apply grows_refl|].
    split; [done|]. split; [|simpl; by rewrite app_nil_r].
    unfold type_at. rewrite Hc. simpl. congruence. }
  unfold ClickSpace.
  pose proof (space_at_Some _ _ _ _ Hc) as (_ & _ & _ & ->). simpl.
  destruct (flag c) eqn:Hfl.
  { apply Hsame. intros Ht. rewrite (Hnf x y c Hc Ht) in Hfl. done. }
  destruct (decide (type c = MINE)) as [Ht|Ht].
  { exfalso. unfold mine_at in Hm. rewrite Hc in Hm. simpl in Hm.
    unfold is_mine in Hm. by rewrite Ht in Hm. }
  destruct (decide (type c = HIDDEN)) as [Hh|Hh]; [|by apply Hsame].
  destruct (RevealEmpty_total fuel x y st (wf_rect _ Hwf) Hf) as [st' H].
  pose proof (RevealEmpty_reveals _ _ _ _ _ H) as R.
  destruct (rv_trace _ _ R) as [k Hk].
  exists st', k. split; [done|]. split; [by apply reveals_grows|].
  split; [by eapply RevealEmpty_wf|]. split; [|done].
  destruct (RevealEmpty_walked _ _ _ _ _ H) as (W1 & _ & _).
  apply (W1 (x, y)), list_elem_of_here.
Qed.

Lemma grows_no_hidden_flag st st' :
  grows st st' → no_hidden_flag st → no_hidden_flag st'.
Proof.
  intros Hg Hnf x y c Hc Ht. apply (Hnf x y c); [|done].
  rewrite <- Hc. symmetry. apply grows_hidden; [done|].
  unfold type_at. rewrite Hc. simpl. by f_equal.
Qed.

Lemma clicks_safe_play fuel l :
  ∀ st, wf st → no_hidden_flag st → (hidden_count st < fuel)%nat →
    (∀ p, p ∈ l → in_board st p.1 p.2 = true ∧ mine_at st p.1 p.2 = false) →
    ∃ st' k, play fuel (clicks l) st = Done st' ∧ grows st st' ∧ wf st' ∧
      (∀ p, p ∈ l → type_at st' p.1 p.2 ≠ Some HIDDEN) ∧
      trace st' = trace st ++ replicate k EvGameWin.
Proof.
  induction l as [|p l IH]; intros st Hwf Hnf Hf Hl.
  - exists st, 0%nat. split; [done|]. split; [apply grows_refl|].
    split; [done|]. split; [|simpl; by rewrite app_nil_r].
    intros p Hp. by apply elem_of_nil in Hp.
  - destruct (Hl p (list_elem_of_here _ _)) as [Hb Hm].
    destruct (click_safe_step fuel st p.1 p.2 Hwf Hnf Hf Hb Hm)
      as (st1 & k1 & H1 & G1 & Hwf1 & T1 & E1).
    destruct (IH st1) as (st' & k2 & H2 & G2 & Hwf' & T2 & E2).
    + done.
    + by eapply grows_no_hidden_flag.
    + assert (hidden_count st1 <= hidden_count st)%nat; [|lia].
      unfold hidden_count. destruct G1 as (_ & _ & Gb).
      destruct (newly_revealed_hidden _ _ Gb). lia.
    + intros q Hq. destruct (Hl q (list_elem_of_further _ _ _ Hq)) as [Hqb Hqm].
      split.
      * unfold in_board in *. destruct G1 as (-> & -> & _). done.
      * by rewrite (grows_mine_at st st1).
    + exists st', (k1 + k2)%nat. split; [|split; [|split; [done|split]]].
      * simpl. rewrite H1. simpl. done.
      * by eapply grows_trans.
      * intros q Hq. apply elem_of_cons in Hq as [->|Hq]; [|by apply T2].
        by eapply grows_not_hidden.
      * by rewrite E2, E1, <- app_assoc, replicate_add.
Qed.

(** With recursion depth to spare, a well-formed board on which no hidden
    space that is not a mine is flagged can be won: left clicks, in any
    order, on a list of spaces of the board that holds no mine and holds
    every hidden space, all return; afterwards no space that is not a mine
    is hidden, [pieces_left] is 0, and what the clicks have opened is the
    win dialog, once, or nothing at all when nothing was hidden. *)
Lemma safe_clicks_win fuel st l :
  wf st → no_hidden_flag st → (hidden_count st < fuel)%nat →
  (∀ p, p ∈ l → in_board st p.1 p.2 = true ∧ mine_at st p.1 p.2 = false) →
  (∀ x y, type_at st x y = Some HIDDEN → (x, y) ∈ l) →
  ∃ st', play fuel (clicks l) st = Done st' ∧
    (∀ x y, type_at st' x y ≠ Some HIDDEN) ∧
    pieces_left st' = 0 ∧
    trace st' = trace st ++
      (if decide (0 < hidden_count st)%nat then [EvGameWin] else []).
Proof.
  intros Hwf Hnf Hf Hl Hall.
  destruct (clicks_safe_play fuel l st Hwf Hnf Hf Hl)
    as (st' & k & H & G & Hwf' & T & E).
  assert (Hno : ∀ x y, type_at st' x y ≠ Some HIDDEN).
  { intros x y Hh. apply (T (x, y)); [|done]. apply Hall.
    unfold type_at in *. by rewrite <- (grows_hidden st st' x y G Hh). }
  pose proof (proj2 (no_hidden_iff st' (wf_rect _ Hwf')) Hno) as Hz.
  exists st'. split; [done|]. split; [done|]. split.
  - pose proof (wf_pieces _ Hwf') as Hp. unfold pieces_ok in Hp. lia.
  - destruct (play_wins _ _ _ _ Hwf H) as (new & E' & W).
    rewrite E in E'. apply app_inv_head in E'. subst new.
    rewrite wins_replicate in W. rewrite E, W.
    repeat case_decide; try lia; done.
Qed.

(** ** How deep the reveal recurses *)

Lemma each_cons f a b l st :
  each f ((a, b) :: l) st = (st' ← f a b st; each f l st').
Proof. reflexivity. Qed.

Lemma column_below_rect n y : (y <= n)%nat → rect (column_below n y).
Proof.
  intros Hy. split; simpl; [done|].
  constructor; [|done]. rewrite length_app, !length_replicate. lia.
Qed.

Lemma column_below_space n y b :
  (y <= n)%nat → (b < n)%nat →
  space_at (column_below n y) 0 (Z.of_nat b) =
  Some (if decide (b < y)%nat then revealed_blank else blank).
Proof.
  intros Hy Hb. unfold space_at.
  replace (in_board (column_below n y) 0 (Z.of_nat b)) with true
    by (symmetry; apply in_board_bounds; simpl; lia).
  unfold cell. destruct (0 <=? Z.of_nat b) eqn:E; [|lia]. simpl.
  rewrite Nat2Z.id. case_decide.
  - rewrite lookup_app_l by (rewrite length_replicate; lia).
    by rewrite lookup_replicate_2.
  - rewrite lookup_app_r by (rewrite length_replicate; lia).
    rewrite length_replicate. by rewrite lookup_replicate_2 by lia.
Qed.

Lemma column_below_mark n y :
  (y < n)%nat →
  assign (Z.to_nat 0, Z.to_nat (Z.of_nat y)) (set_type EMPTY) (column_below n y)
  = column_below n (S y).
Proof.
  intros Hy. rewrite Nat2Z.id.
  unfold column_below, assign, update, with_spaces.
  cbn [spaces BOARD_WIDTH BOARD_HEIGHT TOTAL_MINES PRINT_DEBUG_INFO
       pieces_left babymode draws trace fst snd].
  f_equal. change (Z.to_nat 0) with 0%nat. cbn [alter list_alter]. f_equal.
  replace (n - y)%nat with (S (n - S y)) by lia.
  rewrite alter_app_r_alt by (rewrite length_replicate; lia).
  rewrite length_replicate, Nat.sub_diag.
  rewrite (replicate_S_end y), <- app_assoc. reflexivity.
Qed.

(** On the column with its first [y] spaces revealed, [RevealEmpty] on the
    next space runs out of depth unless it is given more than the number
    of spaces still hidden. *)
Lemma column_out_of_depth n :
  ∀ f y, (f + y <= n)%nat →
    RevealEmpty f 0 (Z.of_nat y) (column_below n y) = OutOfFuel.
Proof.
  induction f as [|f IH]; intros y Hfy; [done|].
  assert (Hy : (y < n)%nat) by lia.
  pose proof (column_below_space n y y ltac:(lia) Hy) as Hc.
  rewrite decide_False in Hc by lia.
  pose proof (space_at_Some _ _ _ _ Hc) as (Hb & _ & _ & Hp).
  rewrite RevealEmpty_S, Hb, Hp. cbn [mbind outcome_bind].
  rewrite decide_True by done.
  change (flag blank) with false. change (0 <? count blank) with false.
  cbv beta iota zeta. rewrite column_below_mark by done.
  destruct f as [|f]; [done|].
  assert (Hskip : ∀ a b, type_at (column_below n (S y)) a b ≠ Some HIDDEN →
            RevealEmpty (S f) a b (column_below n (S y)) = Done (column_below n (S y))).
  { intros a b. apply RevealEmpty_not_hidden, column_below_rect. lia. }
  assert (Hleft : ∀ b, type_at (column_below n (S y)) (0 - 1) b ≠ Some HIDDEN).
  { intros b. unfold type_at, space_at.
    replace (in_board (column_below n (S y)) (0 - 1) b) with false; [done|].
    symmetry. apply not_true_iff_false. rewrite in_board_bounds. lia. }
  assert (Hup : type_at (column_below n (S y)) 0 (Z.of_nat y - 1) ≠ Some HIDDEN).
  { destruct y as [|y].
    - unfold type_at, space_at.
      replace (in_board (column_below n 1) 0 (Z.of_nat 0 - 1)) with false; [done|].
      symmetry. apply not_true_iff_false. rewrite in_board_bounds. lia.
    - replace (Z.of_nat (S y) - 1) with (Z.of_nat y) by lia.
      unfold type_at. rewrite column_below_space by lia.
      rewrite decide_True by lia. done. }
  unfold around.
  rewrite each_cons, (Hskip _ _ (Hleft _)). cbn [mbind outcome_bind].
  rewrite each_cons, (Hskip _ _ (Hleft _)). cbn [mbind outcome_bind].
  rewrite each_cons, (Hskip _ _ (Hleft _)). cbn [mbind outcome_bind].
  rewrite each_cons, (Hskip _ _ Hup). cbn [mbind outcome_bind].
  rewrite each_cons.
  replace (Z.of_nat y + 1) with (Z.of_nat (S y)) by lia.
  rewrite IH by lia. done.
Qed.

Lemma column_start_below n : column_below n 0 = column_start n.
Proof.
  unfold column_below. rewrite Nat.sub_0_r. simpl.
  rewrite <- (with_spaces_same (column_start n)) at 2. f_equal.
  simpl. unfold ClearBoard. simpl. by rewrite Nat2Z.id.
Qed.

(** X12.  On a column of [n] spaces without a mine, which is what
    [Minesweeper.py 1 n 0] generates, [RevealEmpty] from the top recurses
    through every space: a recursion depth of [n] is not enough, [n + 1]
    is. *)
Theorem column_reveal_depth rng fuel n :
  GenerateBoard rng fuel (column_start n) = Done (column_start n) ∧
  RevealEmpty n 0 0 (column_start n) = OutOfFuel ∧
  is_done (RevealEmpty (S n) 0 0 (column_start n)) = true.
Proof.
  split; [|split].
  - unfold GenerateBoard, column_start, startup, with_babymode,
      with_pieces_left, with_spaces, ClearBoard. simpl.
    destruct (Z.of_nat n * 1 <? 0) eqn:E; [apply Z.ltb_lt in E; lia|]. reflexivity.
  - rewrite <- column_start_below.
    apply (column_out_of_depth n n 0%nat). lia.
  - destruct (RevealEmpty_total (S n) 0 0 (column_start n)) as [st' ->]; [| |done].
    + rewrite <- column_start_below. apply column_below_rect. lia.
    + unfold hidden_count. simpl. unfold ClearBoard. simpl.
      rewrite Nat2Z.id, count_if_replicate. simpl. lia.
Qed.

(** ** Generating a board without room for the mines *)

Lemma redraw_not_raised rng fuel :
  ∀ x y st, rect st → in_board st x y = true →
    is_raised (redraw rng fuel x y st) = false.
Proof.
  induction fuel as [|fuel IH]; intros x y st Hr Hb; [done|].
  rewrite redraw_S.
  destruct (rect_space_at st x y Hr Hb) as [c Hc].
  apply space_at_Some in Hc as (_ & _ & _ & ->). cbn [mbind outcome_bind].
  case_decide; [|done].
  apply in_board_bounds in Hb.
  rewrite randint_total by lia. cbn [mbind outcome_bind].
  change (BOARD_WIDTH (with_draws (S (draws st)) st)) with (BOARD_WIDTH st).
  rewrite randint_total by lia. cbn [mbind outcome_bind].
  apply IH; [done|]. apply in_board_bounds.
  cbn [with_draws BOARD_WIDTH BOARD_HEIGHT].
  split; apply Z.mod_pos_bound; lia.
Qed.

Lemma place_mine_not_raised rng fuel st :
  rect st → 0 < BOARD_WIDTH st → 0 < BOARD_HEIGHT st →
  is_raised (place_mine rng fuel st) = false.
Proof.
  intros Hr Hw Hh. unfold place_mine.
  rewrite randint_total by lia. cbn [mbind outcome_bind].
  change (BOARD_WIDTH (with_draws (S (draws st)) st)) with (BOARD_WIDTH st).
  rewrite randint_total by lia. cbn [mbind outcome_bind].
  set (st2 := with_draws _ (with_draws _ st)).
  set (x0 := _ `mod` BOARD_WIDTH st). set (y0 := _ `mod` BOARD_HEIGHT st).
  assert (Hr2 : rect st2) by exact Hr.
  assert (Hb : in_board st2 x0 y0 = true).
  { apply in_board_bounds. subst st2 x0 y0. cbn [with_draws BOARD_WIDTH BOARD_HEIGHT].
    split; apply Z.mod_pos_bound; lia. }
  pose proof (redraw_not_raised rng fuel x0 y0 st2 Hr2 Hb) as Hn.
  destruct (redraw rng fuel x0 y0 st2) as [[[x y] st3]| |] eqn:E; [|done|done].
  cbn [mbind outcome_bind].
  apply redraw_Done in E as (Hb' & (k & ->) & c & Hc & _); [|done].
  apply space_at_Some in Hc as (_ & _ & _ & Hp).
  change (spaces (with_draws (draws st2 + 2 * k) st2)) with (spaces st2).
  rewrite Hp. cbn [mbind outcome_bind].
  match goal with |- is_raised (each AddCount _ ?s) = _ =>
    destruct (each_AddCount_total (around x y) s) as [st' ->]; [|done] end.
  destruct Hr as [Hl Hcs].
  destruct (PRINT_DEBUG_INFO _);
    (split; simpl; [by rewrite update_length|by apply update_columns]).
Qed.

Lemma place_mines_not_raised rng fuel n :
  ∀ st, placing st → 0 < BOARD_WIDTH st → 0 < BOARD_HEIGHT st →
    is_raised (place_mines rng n fuel st) = false.
Proof.
  induction n as [|n IH]; intros st Hp Hw Hh; [done|].
  cbn [place_mines].
  pose proof (place_mine_not_raised rng fuel st (pl_rect _ Hp) Hw Hh) as Hn.
  destruct (place_mine rng fuel st) as [st'| |] eqn:E; [|done|done].
  cbn [mbind outcome_bind]. apply place_mine_placed in E as (x & y & A).
  destruct A. apply IH; [auto|lia|lia].
Qed.

Lemma place_mines_no_space rng fuel n st :
  BOARD_WIDTH st <= 0 ∨ BOARD_HEIGHT st <= 0 →
  place_mines rng (S n) fuel st = Raised ValueError.
Proof.
  intros H. cbn [place_mines]. unfold place_mine, randint.
  destruct (BOARD_HEIGHT st - 1 <? 0) eqn:E1; [done|].
  cbn [mbind outcome_bind].
  change (BOARD_WIDTH (with_draws (S (draws st)) st)) with (BOARD_WIDTH st).
  destruct (BOARD_WIDTH st - 1 <? 0) eqn:E2; [done|].
  apply Z.ltb_ge in E1, E2. lia.
Qed.

Lemma without_room rng fuel st :
  0 <= BOARD_WIDTH st → 0 <= BOARD_HEIGHT st →
  BOARD_WIDTH st * BOARD_HEIGHT st < TOTAL_MINES st →
  GenerateBoard rng fuel st =
    if decide (0 < BOARD_WIDTH st ∧ 0 < BOARD_HEIGHT st) then OutOfFuel
    else Raised ValueError.
Proof.
  intros Hw Hh Hm. case_decide as Hpos.
  - pose proof (overfull_never_done rng fuel st) as Hd.
    pose proof (place_mines_not_raised rng fuel (Z.to_nat (TOTAL_MINES st))
                  (cleared st) (cleared_placing st)) as Hn.
    unfold GenerateBoard in *. cbv zeta in *.
    change (TOTAL_MINES (with_babymode _ _)) with (TOTAL_MINES st) in *.
    fold (cleared st) in *.
    destruct (place_mines _ _ _ _) as [?| |]; [|by specialize (Hn (proj1 Hpos) (proj2 Hpos))|done].
    discriminate Hd. nia.
  - unfold GenerateBoard. cbv zeta.
    change (TOTAL_MINES (with_babymode _ _)) with (TOTAL_MINES st).
    destruct (Z.to_nat (TOTAL_MINES st)) as [|n] eqn:E; [nia|].
    apply place_mines_no_space. simpl. lia.
Qed.

(** X13.  When [TOTAL_MINES] is larger than the number of spaces,
    [GenerateBoard] never returns a board: on a board with a space the
    inner [while] draws for ever once every space is a mine, so the call
    is still running whatever it is given, and on a board without a
    space the first [randint] over an empty range raises [ValueError]. *)
Theorem GenerateBoard_without_room rng fuel st :
  0 <= BOARD_WIDTH st → 0 <= BOARD_HEIGHT st →
  BOARD_WIDTH st * BOARD_HEIGHT st < TOTAL_MINES st →
  GenerateBoard rng fuel st =
    if decide (0 < BOARD_WIDTH st ∧ 0 < BOARD_HEIGHT st) then OutOfFuel
    else Raised ValueError.
Proof. apply without_room. Qed.

Lemma GenerateBoard_without_room_witness :
  GenerateBoard (round_robin 2 2) 100 (with_config 2 2 5 plain_start) = OutOfFuel ∧
  GenerateBoard (round_robin 2 2) 100 (with_config 0 2 1 plain_start)
    = Raised ValueError.
Proof.
  split.
  - apply (GenerateBoard_without_room (round_robin 2 2) 100
             (with_config 2 2 5 plain_start)); simpl; lia.
  - apply (GenerateBoard_without_room (round_robin 2 2) 100
             (with_config 0 2 1 plain_start)); simpl; lia.
Defined.

(** ** A new game *)

Lemma place_mine_tally rng fuel p st st' :
  (∀ c, p (incr_count c) = p c) → (∀ c, p (set_type MINE c) = p c) →
  place_mine rng fuel st = Done st' →
  tally p (spaces st') = tally p (spaces st).
Proof.
  intros Hcount Hmine. unfold place_mine. intros H.
  apply bind_Done in H as ([y0 st1] & H1 & H).
  apply bind_Done in H as ([x0 st2] & H2 & H).
  apply bind_Done in H as ([[x y] st3] & H3 & H).
  apply bind_Done in H as ([[i j] c] & H4 & H5).
  apply randint_Done in H1 as (B1 & _ & ->).
  apply randint_Done in H2 as (B2 & _ & ->).
  cbn [with_draws BOARD_WIDTH draws] in *.
  set (st2 := with_draws _ (with_draws _ st)) in *.
  assert (Hb0 : in_board st2 x0 y0 = true).
  { apply in_board_bounds. subst st2. simpl. lia. }
  destruct (redraw_Done _ _ _ _ _ _ _ _ Hb0 H3) as (Hb & [k ->] & _).
  cbn [with_draws spaces] in H4.
  apply piece_at_lookup in H4 as (col & Hi & Hj).
  apply each_AddCount_counted in H5 as (_ & _ & T5 & _); [|apply around_NoDup].
  rewrite T5 by done.
  assert (∀ s, spaces (if PRINT_DEBUG_INFO s then emit (EvPlaced x y) s else s)
               = spaces s) as -> by (intros s; by destruct (PRINT_DEBUG_INFO s)).
  cbn [assign with_spaces spaces with_draws].
  apply Nat2Z.inj. rewrite (tally_update _ _ _ _ _ _ _ Hi Hj), Hmine.
  subst st2. cbn [with_draws spaces]. lia.
Qed.

Lemma place_mines_tally rng fuel p n :
  (∀ c, p (incr_count c) = p c) → (∀ c, p (set_type MINE c) = p c) →
  ∀ st st', place_mines rng n fuel st = Done st' →
    tally p (spaces st') = tally p (spaces st).
Proof.
  intros Hcount Hmine. induction n as [|n IH]; intros st st' H; simpl in H.
  - by injection H as <-.
  - apply bind_Done in H as (st1 & H1 & H).
    rewrite (IH _ _ H). by apply (place_mine_tally rng fuel).
Qed.

Lemma GenerateBoard_new_game rng st :
  0 <= BOARD_WIDTH st → 0 <= BOARD_HEIGHT st →
  0 <= TOTAL_MINES st <= BOARD_WIDTH st * BOARD_HEIGHT st →
  fair rng (draws st) (BOARD_WIDTH st) (BOARD_HEIGHT st) →
  ∃ fuel st', GenerateBoard rng fuel st = Done st' ∧ new_game st st'.
Proof.
  intros Hw Hh Hm Hfair.
  destruct (place_mines_total rng (draws st) (Z.to_nat (TOTAL_MINES st)) 0
              (cleared st)) as (fuel & st' & H).
  - apply cleared_placing.
  - exact Hfair.
  - simpl. lia.
  - unfold mine_count. simpl. unfold ClearBoard.
    rewrite tally_replicate by done. simpl. nia.
  - exists fuel, st'. split; [exact H|].
    pose proof (GenerateBoard_wf rng fuel st st' Hw Hh (proj1 Hm) H) as Hwf.
    pose proof (place_mines_tally rng fuel is_flagged _
                  (λ _, eq_refl) (λ _, eq_refl) _ _ H) as Hfl.
    pose proof (GenerateBoard_placed rng fuel st st' H) as (l & Hlen & A).
    destruct A.
    assert (E0 : mine_count (cleared st) = 0%nat).
    { unfold mine_count. simpl. by apply tally_replicate. }
    assert (Hp : pieces_left st' =
                 BOARD_WIDTH st * BOARD_HEIGHT st - TOTAL_MINES st).
    { rewrite ap_pieces0. simpl. lia. }
    split; try done.
    + lia.
    + rewrite <- (wf_pieces _ Hwf). exact Hp.
    + exact (pl_no_empty _ (ap_placing0 (cleared_placing st))).
    + intros x y c Hc. unfold space_at in Hc.
      destruct (in_board st' x y); [|done].
      apply (tally_zero is_flagged _ _ _ _) in Hc; [done|].
      rewrite Hfl. simpl. by apply tally_replicate.
    + exists l. split; [lia|done].
Qed.

(** X14.  [NewGame] with a request that fits, that is with no more mines
    than spaces, and draws that are fair for the new size starts a game
    of the requested size: the board has the requested number of mines,
    every other space is hidden and none is flagged, [pieces_left] counts
    the spaces without a mine, and baby mode is off, whatever the game
    before was. *)
Theorem NewGame_fitting_request rng w h m st :
  0 <= w → 0 <= h → 0 <= m <= w * h →
  fair rng (draws st) w h →
  ∃ fuel st', NewGame rng fuel w h m st = Done st' ∧
    BOARD_WIDTH st' = w ∧ BOARD_HEIGHT st' = h ∧ TOTAL_MINES st' = m ∧
    wf st' ∧ Z.of_nat (mine_count st') = m ∧
    Z.of_nat (hidden_count st') = w * h - m ∧
    pieces_left st' = w * h - m ∧
    revealed_count st' = 0%nat ∧
    (∀ x y c, space_at st' x y = Some c → flag c = false) ∧
    babymode st' = false.
Proof.
  intros Hw Hh Hm Hfair. unfold NewGame, NewGame_config. cbv zeta.
  destruct (m <=? w * h) eqn:E; [|apply Z.leb_gt in E; lia].
  destruct (GenerateBoard_new_game rng
              (with_config w h m (with_config w h (TOTAL_MINES st) st)))
    as (fuel & st' & Hgen & G); [done..|].
  destruct G as [G1 G2 G3 G4 G5 G6 G7 G8 G9 G10 G11].
  cbn [with_config BOARD_WIDTH BOARD_HEIGHT TOTAL_MINES] in *.
  exists fuel, st'. repeat (split; [assumption|]). assumption.
Qed.

Lemma NewGame_fitting_request_witness :
  ∃ fuel st', NewGame (round_robin 3 3) fuel 3 3 2 plain_start = Done st' ∧
    BOARD_WIDTH st' = 3 ∧ BOARD_HEIGHT st' = 3 ∧ TOTAL_MINES st' = 2 ∧
    wf st' ∧ Z.of_nat (mine_count st') = 2 ∧
    Z.of_nat (hidden_count st') = 3 * 3 - 2 ∧
    pieces_left st' = 3 * 3 - 2 ∧
    revealed_count st' = 0%nat ∧
    (∀ x y c, space_at st' x y = Some c → flag c = false) ∧
    babymode st' = false.
Proof.
  apply (NewGame_fitting_request (round_robin 3 3) 3 3 2 plain_start).
  - lia.
  - lia.
  - lia.
  - apply (round_robin_fair 3 3); lia.
Defined.

(** X15.  [NewGame] with more mines requested than the new board has
    spaces never returns when debug output is on, since [TOTAL_MINES]
    becomes [new_m * new_h], nor when the total of the game before does
    not fit either, since it is kept with debug output off: the placement
    loop runs for ever. *)
Theorem NewGame_oversize_request_hangs rng fuel w h m st :
  0 < w → 0 < h → w * h < m →
  PRINT_DEBUG_INFO st = true ∨ w * h < TOTAL_MINES st →
  NewGame rng fuel w h m st = OutOfFuel.
Proof.
  intros Hw Hh Hm Hcase. unfold NewGame, NewGame_config. cbv zeta.
  destruct (m <=? w * h) eqn:E; [apply Z.leb_le in E; lia|].
  change (PRINT_DEBUG_INFO (with_config w h (TOTAL_MINES st) st))
    with (PRINT_DEBUG_INFO st).
  destruct (PRINT_DEBUG_INFO st) eqn:Ed.
  - rewrite without_room; cbn [with_config BOARD_WIDTH BOARD_HEIGHT TOTAL_MINES];
      [|lia|lia|nia].
    by rewrite decide_True by lia.
  - destruct Hcase as [?|Hold]; [done|].
    rewrite without_room; cbn [with_config BOARD_WIDTH BOARD_HEIGHT TOTAL_MINES];
      [|lia|lia|lia].
    by rewrite decide_True by lia.
Qed.

Lemma NewGame_oversize_request_hangs_witness :
  NewGame (round_robin 1 1) 100 1 1 2 debug_start = OutOfFuel.
Proof.
  apply (NewGame_oversize_request_hangs (round_robin 1 1) 100 1 1 2 debug_start).
  - lia.
  - lia.
  - lia.
  - left. reflexivity.
Defined.

(** X16.  With debug output off, [NewGame] drops a request for more mines
    than the new board has spaces without a message: when the total of
    the game before fits the new board, the new game has the new size
    and that earlier number of mines, and nothing is printed. *)
Theorem NewGame_oversize_request_dropped rng w h m st :
  0 <= w → 0 <= h → w * h < m →
  PRINT_DEBUG_INFO st = false →
  0 <= TOTAL_MINES st <= w * h →
  fair rng (draws st) w h →
  ∃ fuel st', NewGame rng fuel w h m st = Done st' ∧
    BOARD_WIDTH st' = w ∧ BOARD_HEIGHT st' = h ∧
    TOTAL_MINES st' = TOTAL_MINES st ∧
    Z.of_nat (mine_count st') = TOTAL_MINES st ∧
    pieces_left st' = w * h - TOTAL_MINES st ∧
    trace st' = trace st.
Proof.
  intros Hw Hh Hm Hd Hold Hfair. unfold NewGame, NewGame_config. cbv zeta.
  destruct (m <=? w * h) eqn:E; [apply Z.leb_le in E; lia|].
  change (PRINT_DEBUG_INFO (with_config w h (TOTAL_MINES st) st))
    with (PRINT_DEBUG_INFO st).
  rewrite Hd.
  destruct (GenerateBoard_new_game rng (with_config w h (TOTAL_MINES st) st))
    as (fuel & st' & Hgen & G); [done..|].
  destruct G as [G1 G2 G3 G4 G5 G6 G7 G8 G9 G10 (l & Hl & Ht)].
  cbn [with_config BOARD_WIDTH BOARD_HEIGHT TOTAL_MINES] in *.
  exists fuel, st'. repeat (split; [assumption|]).
  rewrite Ht. cbn [with_config PRINT_DEBUG_INFO trace]. rewrite Hd.
  apply app_nil_r.
Qed.

Lemma NewGame_oversize_request_dropped_witness :
  ∃ fuel st', NewGame (round_robin 3 3) fuel 3 3 10 demo_start = Done st' ∧
    BOARD_WIDTH st' = 3 ∧ BOARD_HEIGHT st' = 3 ∧
    TOTAL_MINES st' = TOTAL_MINES demo_start ∧
    Z.of_nat (mine_count st') = TOTAL_MINES demo_start ∧
    pieces_left st' = 3 * 3 - TOTAL_MINES demo_start ∧
    trace st' = trace demo_start.
Proof.
  apply (NewGame_oversize_request_dropped (round_robin 3 3) 3 3 10 demo_start).
  - lia.
  - lia.
  - lia.
  - reflexivity.
  - split; vm_compute; discriminate.
  - apply (round_robin_fair 3 3); lia.
Defined.

(** ** A negative mine total *)

Lemma lookup_cell sp i j col c :
  sp !! i = Some col → col !! j = Some c →
  cell sp (Z.of_nat i) (Z.of_nat j) = Some c.
Proof.
  intros Hi Hj. unfold cell.
  rewrite (proj2 (Z.leb_le 0 (Z.of_nat i))), (proj2 (Z.leb_le 0 (Z.of_nat j))) by lia.
  simpl. rewrite !Nat2Z.id, Hi. done.
Qed.

Lemma act_unwinnable fuel a st st' :
  unwinnable st → act fuel a st = Done st' →
  unwinnable st' ∧ trace st' = trace st.
Proof.
  intros [Hm Hlt] H. destruct a as [x y|x y]; simpl in H.
  - unfold ClickSpace in H. apply bind_Done in H as ([[i j] c] & Hp & H).
    destruct (flag c); [by injection H as <-|].
    destruct (decide (type c = MINE)) as [Hc|_].
    { exfalso. apply piece_at_lookup in Hp as (col & Hi & Hj).
      pose proof (tally_zero is_mine _ _ _ _ Hm (lookup_cell _ _ _ _ _ Hi Hj)) as Hf.
      unfold is_mine in Hf. by rewrite Hc in Hf. }
    destruct (decide (type c = HIDDEN)); [|by injection H as <-].
    pose proof (RevealEmpty_reveals _ _ _ _ _ H) as R.
    split; [split|].
    + by rewrite (pg_mine_count _ _ (reveals_progress _ _ R)).
    + rewrite (rv_pieces _ _ R). lia.
    + by eapply RevealEmpty_quiet.
  - unfold RightClickSpace in H. apply bind_Done in H as ([[i j] c] & Hp & H).
    apply piece_at_lookup in Hp as (col & Hi & Hj).
    destruct (decide (_ ∨ _)); [|by injection H as <-].
    assert (∀ v, unwinnable (assign (i, j) (set_flag v) st)) as Hv.
    { intros v. split.
      - by rewrite (pg_mine_count _ _ (set_flag_progress st i j col c v Hi Hj)).
      - unfold hidden_count. cbn [assign with_spaces spaces pieces_left].
        rewrite (tally_update _ _ _ _ _ _ _ Hi Hj).
        change (is_hidden (set_flag v c)) with (is_hidden c).
        unfold hidden_count in Hlt. lia. }
    destruct (flag c); injection H as <-; by split.
Qed.

Lemma play_unwinnable fuel acts :
  ∀ st st', unwinnable st → play fuel acts st = Done st' →
    unwinnable st' ∧ trace st' = trace st.
Proof.
  induction acts as [|a acts IH]; intros st st' Hu H; simpl in H.
  - by injection H as <-.
  - apply bind_Done in H as (st1 & H1 & H).
    destruct (act_unwinnable _ _ _ _ Hu H1) as [Hu1 T1].
    destruct (IH _ _ Hu1 H) as [Hu' T']. split; [done|congruence].
Qed.

(** X17.  Started with a negative mine total, which start-up does not
    reject, [GenerateBoard] places no mine and sets [pieces_left] above
    the number of spaces; from then on no click opens a dialog, and
    [pieces_left] stays positive even when every space is revealed: the
    game can be neither lost nor won. *)
Theorem negative_total_never_ends rng fuel st0 :
  0 <= BOARD_WIDTH st0 → 0 <= BOARD_HEIGHT st0 → TOTAL_MINES st0 < 0 →
  ∃ st, GenerateBoard rng fuel st0 = Done st ∧
    mine_count st = 0%nat ∧
    pieces_left st = Z.of_nat (hidden_count st) - TOTAL_MINES st0 ∧
    trace st = trace st0 ∧
    ∀ fuel' acts st', play fuel' acts st = Done st' →
      trace st' = trace st0 ∧ Z.of_nat (hidden_count st') < pieces_left st'.
Proof.
  intros Hw Hh Hm. exists (cleared st0).
  assert (Hmc : mine_count (cleared st0) = 0%nat).
  { unfold mine_count. simpl. by apply tally_replicate. }
  assert (Hhc : Z.of_nat (hidden_count (cleared st0)) =
                BOARD_HEIGHT st0 * BOARD_WIDTH st0).
  { pose proof (cleared_placing st0) as [[Hl Hc] _ He].
    pose proof (tally_partition _ _ Hc) as Hpart.
    unfold mine_count in Hmc. unfold hidden_count.
    rewrite He, Hmc, Hl, !Nat.add_0_r in Hpart. rewrite Hpart.
    cbn [cleared with_babymode with_pieces_left with_spaces BOARD_WIDTH BOARD_HEIGHT].
    rewrite Nat2Z.inj_mul, !Z2Nat.id by lia. lia. }
  split; [|split; [done|split; [|split; [done|]]]].
  - unfold GenerateBoard. cbv zeta.
    change (TOTAL_MINES (with_babymode _ _)) with (TOTAL_MINES st0).
    replace (Z.to_nat (TOTAL_MINES st0)) with 0%nat by lia. done.
  - rewrite Hhc. done.
  - intros fuel' acts st' H.
    destruct (play_unwinnable fuel' acts (cleared st0) st') as [[_ Hlt] Ht];
      [|done|].
    + split; [done|]. rewrite Hhc. simpl. lia.
    + split; [exact Ht|exact Hlt].
Qed.

Lemma negative_total_never_ends_witness :
  ∃ st, GenerateBoard (round_robin 3 3) 1 (startup [3; 3; -1] None) = Done st ∧
    mine_count st = 0%nat ∧
    pieces_left st =
      Z.of_nat (hidden_count st) - TOTAL_MINES (startup [3; 3; -1] None) ∧
    trace st = trace (startup [3; 3; -1] None) ∧
    ∀ fuel' acts st', play fuel' acts st = Done st' →
      trace st' = trace (startup [3; 3; -1] None) ∧
      Z.of_nat (hidden_count st') < pieces_left st'.
Proof.
  apply (negative_total_never_ends (round_robin 3 3) 1 (startup [3; 3; -1] None)).
  - vm_compute. discriminate.
  - vm_compute. discriminate.
  - vm_compute. reflexivity.
Defined.

(** ** The order of left clicks *)

Lemma reach_split st s x y a b :
  grows st s → closed s → reach st x y a b →
  type_at s a b = Some EMPTY ∨ reach s x y a b.
Proof.
  intros Hg Hcl. induction 1 as [Hh|a b c p Hr IH Hc Hn Hp Hh].
  - destruct (grows_cases st s x y Hg Hh) as [E|E]; [right|by left].
    apply reach_here. unfold type_at in *. by rewrite E.
  - destruct (grows_cases st s _ _ Hg Hh) as [Ep|Ep]; [|by left].
    assert (Hps : type_at s p.1 p.2 = Some HIDDEN)
      by (unfold type_at in *; by rewrite Ep).
    destruct IH as [He|Hrs].
    + exfalso. unfold type_at in He.
      destruct (space_at s a b) as [c'|] eqn:Ec'; [|done].
      destruct (grows_back st s a b c' Hg Ec') as (c0 & Ec0 & Hstep).
      assert (c0 = c) as -> by congruence.
      injection He as He.
      apply (Hcl a b c' p Ec' He); [|done|done].
      destruct Hstep as [->|[_ ->]]; simpl; lia.
    + right. eapply (reach_next s x y a b c p); eauto.
      rewrite <- Hc. apply grows_hidden; [done|]. by eapply reach_hidden.
Qed.

Lemma click_swept fuel st s x y :
  grows st s → wf s → (hidden_count s < fuel)%nat →
  in_board s x y = true → mine_at s x y = false →
  ∃ s', ClickSpace fuel x y s = Done s' ∧ reveals s s' ∧ wf s' ∧
    ∀ a b, type_at s' a b = Some EMPTY ↔
           type_at s a b = Some EMPTY ∨ (unflagged st x y ∧ reach st x y a b).
Proof.
  intros Hg Hwf Hfuel Hb Hm.
  destruct (rect_space_at s x y (wf_rect _ Hwf) Hb) as [c Hc].
  pose proof (space_at_Some _ _ _ _ Hc) as (_ & _ & _ & Hp).
  destruct (grows_back st s x y c Hg Hc) as (c0 & Hc0 & Hstep).
  unfold ClickSpace. rewrite Hp. cbn [mbind outcome_bind].
  assert (Hstay : (unflagged st x y → type_at s x y = Some HIDDEN → False) →
            ∃ s', Done s = Done s' ∧ reveals s s' ∧ wf s' ∧
              ∀ a b, type_at s' a b = Some EMPTY ↔
                type_at s a b = Some EMPTY ∨
                (unflagged st x y ∧ reach st x y a b)).
  { intros Hno. exists s. split; [done|]. split; [apply reveals_refl|].
    split; [done|]. intros a b. split; [by left|].
    intros [He|[Hu Hr]]; [done|].
    destruct (reach_split st s x y a b Hg (wf_closed _ Hwf) Hr) as [He|Hrs]; [done|].
    exfalso. apply (Hno Hu). by eapply reach_start. }
  destruct (flag c) eqn:Hf.
  { apply Hstay. intros (c1 & Hc1 & Hf1) _.
    assert (c1 = c0) as -> by congruence.
    destruct Hstep as [->|[_ ->]]; simpl in Hf; congruence. }
  destruct (decide (type c = MINE)) as [Hmine|_].
  { exfalso. unfold mine_at in Hm. rewrite Hc in Hm. simpl in Hm.
    unfold is_mine in Hm. by rewrite Hmine in Hm. }
  destruct (decide (type c = HIDDEN)) as [Hh|Hnh].
  - destruct (RevealEmpty_total fuel x y s (wf_rect _ Hwf) Hfuel) as [s' H].
    exists s'. split; [done|]. split; [by eapply RevealEmpty_reveals|].
    split; [by eapply RevealEmpty_wf|].
    intros a b. rewrite (RevealEmpty_exact _ _ _ _ _ H a b).
    split; (intros [He|Hr]; [by left|]).
    + right. split; [|by eapply reach_grows].
      exists c0. split; [done|].
      destruct Hstep as [->|[_ ->]]; [done|]. simpl in Hh. done.
    + destruct Hr as [_ Hr].
      destruct (reach_split st s x y a b Hg (wf_closed _ Hwf) Hr); [by left|by right].
  - apply Hstay. intros _ Ht. unfold type_at in Ht. rewrite Hc in Ht.
    injection Ht as Ht. done.
Qed.

Lemma clicks_swept fuel st l :
  ∀ s, grows st s → wf s → (hidden_count s < fuel)%nat →
    (∀ p, p ∈ l → in_board s p.1 p.2 = true ∧ mine_at s p.1 p.2 = false) →
    ∃ s', play fuel (clicks l) s = Done s' ∧ reveals s s' ∧ wf s' ∧
      ∀ a b, type_at s' a b = Some EMPTY ↔
             type_at s a b = Some EMPTY ∨ swept st l a b.
Proof.
  induction l as [|[x y] l IH]; intros s Hg Hwf Hfuel Hl.
  - exists s. split; [done|]. split; [apply reveals_refl|]. split; [done|].
    intros a b. split; [by left|]. intros [?|(p & Hp & _)]; [done|].
    by apply elem_of_nil in Hp.
  - destruct (Hl (x, y) (list_elem_of_here _ _)) as [Hb Hm].
    destruct (click_swept fuel st s x y Hg Hwf Hfuel Hb Hm)
      as (s1 & H1 & R1 & Hwf1 & E1).
    pose proof (reveals_grows _ _ R1) as G1.
    destruct (IH s1) as (s' & H & R & Hwf' & E).
    + by eapply grows_trans.
    + done.
    + pose proof (reveals_hidden_le _ _ R1). lia.
    + intros p Hp. destruct (Hl p (list_elem_of_further _ _ _ Hp)) as [Hb' Hm'].
      split.
      * apply in_board_bounds. apply in_board_bounds in Hb'.
        by rewrite (rv_width _ _ R1), (rv_height _ _ R1).
      * by rewrite (grows_mine_at _ _ _ _ G1).
    + exists s'. split; [|split; [by eapply reveals_trans|split; [done|]]].
      { unfold clicks. cbn [map play act fst snd]. rewrite H1.
        cbn [mbind outcome_bind]. exact H. }
      intros a b. rewrite E, E1. unfold swept. split.
      * intros [[He|[Hu Hr]]|(p & Hp & Hu & Hr)].
        -- by left.
        -- right. exists (x, y). split; [apply list_elem_of_here|done].
        -- right. exists p. split; [by apply list_elem_of_further|done].
      * intros [He|(p & Hp & Hu & Hr)]; [by left; left|].
        apply elem_of_cons in Hp as [->|Hp].
        -- left. right. done.
        -- right. exists p. done.
Qed.

Lemma board_step_determined sp sp1 sp2 :
  board_step sp sp1 → board_step sp sp2 →
  (∀ i j col1 col2 c1 c2,
     sp1 !! i = Some col1 → col1 !! j = Some c1 →
     sp2 !! i = Some col2 → col2 !! j = Some c2 →
     (type c1 = EMPTY ↔ type c2 = EMPTY)) →
  sp1 = sp2.
Proof.
  intros H1 H2 Hiff. apply list_eq. intros i.
  destruct (sp1 !! i) as [col1|] eqn:E1.
  - destruct (Forall2_lookup_r _ _ _ _ _ H1 E1) as (col & Ec & Hc1).
    destruct (Forall2_lookup_l _ _ _ _ _ H2 Ec) as (col2 & E2 & Hc2).
    rewrite E2. f_equal. apply list_eq. intros j.
    destruct (col1 !! j) as [c1|] eqn:F1.
    + destruct (Forall2_lookup_r _ _ _ _ _ Hc1 F1) as (c & Fc & S1).
      destruct (Forall2_lookup_l _ _ _ _ _ Hc2 Fc) as (c2 & F2 & S2).
      rewrite F2. f_equal.
      pose proof (Hiff i j col1 col2 c1 c2 E1 F1 E2 F2) as Hi.
      destruct S1 as [->|[T1 ->]], S2 as [->|[T2 ->]]; try done.
      * simpl in Hi. destruct Hi as [_ Hi]. rewrite Hi in T2; done.
      * simpl in Hi. destruct Hi as [Hi _]. rewrite Hi in T1; done.
    + symmetry. apply lookup_ge_None. apply lookup_ge_None in F1.
      apply Forall2_length in Hc1, Hc2. lia.
  - symmetry. apply lookup_ge_None. apply lookup_ge_None in E1.
    apply Forall2_length in H1, H2. lia.
Qed.

Lemma State_eq (s1 s2 : State) :
  BOARD_WIDTH s1 = BOARD_WIDTH s2 → BOARD_HEIGHT s1 = BOARD_HEIGHT s2 →
  TOTAL_MINES s1 = TOTAL_MINES s2 → PRINT_DEBUG_INFO s1 = PRINT_DEBUG_INFO s2 →
  spaces s1 = spaces s2 → pieces_left s1 = pieces_left s2 →
  babymode s1 = babymode s2 → draws s1 = draws s2 → trace s1 = trace s2 →
  s1 = s2.
Proof. destruct s1, s2. simpl. by intros -> -> -> -> -> -> -> -> ->. Qed.

Lemma reveals_determined fuel l1 l2 st s1 s2 :
  wf st → play fuel (clicks l1) st = Done s1 → play fuel (clicks l2) st = Done s2 →
  reveals st s1 → reveals st s2 → wf s1 → wf s2 →
  (∀ a b, type_at s1 a b = Some EMPTY ↔ type_at s2 a b = Some EMPTY) →
  s1 = s2.
Proof.
  intros Hwf P1 P2 R1 R2 W1 W2 Hiff.
  assert (Hsp : spaces s1 = spaces s2).
  { apply (board_step_determined (spaces st)); [apply R1|apply R2|].
    intros i j col1 col2 c1 c2 E1 F1 E2 F2.
    pose proof (lookup_space_at s1 i j col1 c1 (wf_rect _ W1) E1 F1) as A1.
    pose proof (lookup_space_at s2 i j col2 c2 (wf_rect _ W2) E2 F2) as A2.
    specialize (Hiff (Z.of_nat i) (Z.of_nat j)). unfold type_at in Hiff.
    rewrite A1, A2 in Hiff. simpl in Hiff.
    split; intros Ht; [destruct Hiff as [Hiff _]|destruct Hiff as [_ Hiff]];
      (specialize (Hiff ltac:(by rewrite Ht)); congruence). }
  assert (Hh : hidden_count s1 = hidden_count s2)
    by (unfold hidden_count; by rewrite Hsp).
  destruct (play_wins _ _ _ _ Hwf P1) as (n1 & T1 & N1).
  destruct (play_wins _ _ _ _ Hwf P2) as (n2 & T2 & N2).
  destruct (rv_trace _ _ R1) as [k1 K1], (rv_trace _ _ R2) as [k2 K2].
  assert (n1 = replicate k1 EvGameWin) as ->
    by (apply (app_inv_head (trace st)); congruence).
  assert (n2 = replicate k2 EvGameWin) as ->
    by (apply (app_inv_head (trace st)); congruence).
  rewrite wins_replicate in N1, N2. rewrite Hh in N1.
  apply State_eq.
  - by rewrite (rv_width _ _ R1), (rv_width _ _ R2).
  - by rewrite (rv_height _ _ R1), (rv_height _ _ R2).
  - by rewrite (rv_mines _ _ R1), (rv_mines _ _ R2).
  - by rewrite (rv_debug _ _ R1), (rv_debug _ _ R2).
  - done.
  - rewrite (rv_pieces _ _ R1), (rv_pieces _ _ R2). by rewrite Hh.
  - by rewrite (rv_baby _ _ R1), (rv_baby _ _ R2).
  - by rewrite (rv_draws _ _ R1), (rv_draws _ _ R2).
  - rewrite K1, K2. f_equal. f_equal. congruence.
Qed.

(** X18.  The order of left clicks does not matter, nor does clicking a
    space more than once: on a well-formed board, two sequences of left
    clicks on the same spaces, none of them a mine, leave the program in
    the same state, and the spaces revealed are those revealed before
    together with what [RevealEmpty] walks to from each clicked space
    that carried no flag at the start. *)
Theorem left_clicks_order_irrelevant fuel st l l' :
  wf st → (hidden_count st < fuel)%nat →
  (∀ p, p ∈ l → in_board st p.1 p.2 = true ∧ mine_at st p.1 p.2 = false) →
  (∀ p, p ∈ l ↔ p ∈ l') →
  ∃ st', play fuel (clicks l) st = Done st' ∧
    play fuel (clicks l') st = Done st' ∧
    ∀ a b, type_at st' a b = Some EMPTY ↔
           type_at st a b = Some EMPTY ∨ swept st l a b.
Proof.
  intros Hwf Hfuel Hl Hll'.
  destruct (clicks_swept fuel st l st (grows_refl st) Hwf Hfuel Hl)
    as (s1 & P1 & R1 & W1 & E1).
  destruct (clicks_swept fuel st l' st (grows_refl st) Hwf Hfuel)
    as (s2 & P2 & R2 & W2 & E2).
  { intros p Hp. apply Hl. by apply Hll'. }
  exists s1. split; [done|]. split; [|done].
  rewrite P2. f_equal. symmetry.
  apply (reveals_determined fuel l l' st); try done.
  intros a b. rewrite E1, E2. unfold swept.
  split; (intros [He|(p & Hp & Hr)]; [by left|]); right; exists p;
    (split; [by apply Hll'|done]).
Qed.

Lemma left_clicks_order_irrelevant_witness :
  ∃ st', play 8 (clicks [(2, 0); (0, 2); (1, 1)]) demo_board = Done st' ∧
    play 8 (clicks [(1, 1); (0, 2); (2, 0); (0, 2)]) demo_board = Done st' ∧
    ∀ a b, type_at st' a b = Some EMPTY ↔
           type_at demo_board a b = Some EMPTY ∨
           swept demo_board [(2, 0); (0, 2); (1, 1)] a b.
Proof.
  apply (left_clicks_order_irrelevant 8 demo_board).
  - apply demo_board_wf.
  - vm_compute. lia.
  - intros p Hp. repeat (apply elem_of_cons in Hp as [->|Hp]); [done..|].
    by apply elem_of_nil in Hp.
  - intros p. rewrite !elem_of_cons, !elem_of_nil. tauto.
Defined.

(** ** Launching and starting over *)

(** X19.  Launched with non-negative arguments, the program always gets
    its first board: the clamp of start-up leaves no more mines than
    spaces, so that with fair draws the first [GenerateBoard] returns, and
    the board has as many mines as requested or, when that is too many,
    as it has spaces. *)
Theorem launch_generates_board rng args debug :
  let st0 := startup args debug in
  let m := default 60 (args !! 2%nat) in
  0 <= BOARD_WIDTH st0 → 0 <= BOARD_HEIGHT st0 → 0 <= m →
  fair rng 0 (BOARD_WIDTH st0) (BOARD_HEIGHT st0) →
  ∃ fuel st, GenerateBoard rng fuel st0 = Done st ∧ wf st ∧
    BOARD_WIDTH st = BOARD_WIDTH st0 ∧ BOARD_HEIGHT st = BOARD_HEIGHT st0 ∧
    Z.of_nat (mine_count st) = Z.min m (BOARD_WIDTH st0 * BOARD_HEIGHT st0) ∧
    Z.of_nat (hidden_count st) =
      BOARD_WIDTH st0 * BOARD_HEIGHT st0 - Z.of_nat (mine_count st) ∧
    pieces_left st = Z.of_nat (hidden_count st) ∧
    revealed_count st = 0%nat.
Proof.
  intros st0 m Hw Hh Hm Hfair.
  destruct (startup_mine_total args debug) as (H1 & _ & _).
  fold st0 m in H1.
  destruct (GenerateBoard_new_game rng st0) as (fuel & st & Hgen & G);
    [done|done|nia|exact Hfair|].
  destruct G as [G1 G2 G3 G4 G5 G6 G7 G8 G9 G10 G11].
  exists fuel, st. split; [done|]. split; [done|]. split; [done|].
  split; [done|]. split; [|split; [|split]].
  - rewrite G5, H1. f_equal. lia.
  - rewrite G6, G5. done.
  - rewrite G7, G6. done.
  - done.
Qed.

Lemma launch_generates_board_witness :
  ∃ fuel st, GenerateBoard (round_robin 2 2) fuel (startup [2; 2; 5] None) = Done st ∧
    wf st ∧
    BOARD_WIDTH st = BOARD_WIDTH (startup [2; 2; 5] None) ∧
    BOARD_HEIGHT st = BOARD_HEIGHT (startup [2; 2; 5] None) ∧
    Z.of_nat (mine_count st) =
      Z.min 5 (BOARD_WIDTH (startup [2; 2; 5] None) *
               BOARD_HEIGHT (startup [2; 2; 5] None)) ∧
    Z.of_nat (hidden_count st) =
      BOARD_WIDTH (startup [2; 2; 5] None) * BOARD_HEIGHT (startup [2; 2; 5] None)
      - Z.of_nat (mine_count st) ∧
    pieces_left st = Z.of_nat (hidden_count st) ∧
    revealed_count st = 0%nat.
Proof.
  apply (launch_generates_board (round_robin 2 2) [2; 2; 5] None).
  - vm_compute. discriminate.
  - vm_compute. discriminate.
  - vm_compute. discriminate.
  - apply (round_robin_fair 2 2); lia.
Defined.

(** X20.  [GenerateBoard], which the Retry and New Game buttons of the
    dialogs call, starts over whatever the game was, whatever was
    revealed or flagged and whether baby mode was set: with a total that
    fits and fair draws, the board it returns has nothing revealed and no
    flag, [pieces_left] is back to the number of spaces without a mine
    and baby mode is off, while size and total are kept. *)
Theorem retry_starts_over rng st :
  0 <= BOARD_WIDTH st → 0 <= BOARD_HEIGHT st →
  0 <= TOTAL_MINES st <= BOARD_WIDTH st * BOARD_HEIGHT st →
  fair rng (draws st) (BOARD_WIDTH st) (BOARD_HEIGHT st) →
  ∃ fuel st', GenerateBoard rng fuel st = Done st' ∧ wf st' ∧
    BOARD_WIDTH st' = BOARD_WIDTH st ∧ BOARD_HEIGHT st' = BOARD_HEIGHT st ∧
    TOTAL_MINES st' = TOTAL_MINES st ∧
    Z.of_nat (mine_count st') = TOTAL_MINES st ∧
    revealed_count st' = 0%nat ∧
    (∀ x y c, space_at st' x y = Some c → flag c = false) ∧
    pieces_left st' = BOARD_WIDTH st * BOARD_HEIGHT st - TOTAL_MINES st ∧
    babymode st' = false.
Proof.
  intros Hw Hh Hm Hfair.
  destruct (GenerateBoard_new_game rng st Hw Hh Hm Hfair) as (fuel & st' & Hgen & G).
  destruct G as [G1 G2 G3 G4 G5 G6 G7 G8 G9 G10 G11].
  exists fuel, st'. repeat (split; [assumption|]). assumption.
Qed.

Lemma retry_starts_over_witness :
  ∃ fuel st',
    GenerateBoard (λ n, round_robin 3 3 (n - 4)) fuel (SetBabyMode demo_played)
      = Done st' ∧ wf st' ∧
    BOARD_WIDTH st' = BOARD_WIDTH (SetBabyMode demo_played) ∧
    BOARD_HEIGHT st' = BOARD_HEIGHT (SetBabyMode demo_played) ∧
    TOTAL_MINES st' = TOTAL_MINES (SetBabyMode demo_played) ∧
    Z.of_nat (mine_count st') = TOTAL_MINES (SetBabyMode demo_played) ∧
    revealed_count st' = 0%nat ∧
    (∀ x y c, space_at st' x y = Some c → flag c = false) ∧
    pieces_left st' =
      BOARD_WIDTH (SetBabyMode demo_played) * BOARD_HEIGHT (SetBabyMode demo_played)
      - TOTAL_MINES (SetBabyMode demo_played) ∧
    babymode st' = false.
Proof.
  apply (retry_starts_over (λ n, round_robin 3 3 (n - 4)) (SetBabyMode demo_played)).
  - vm_compute. discriminate.
  - vm_compute. discriminate.
  - split; vm_compute; discriminate.
  - intros k x y Hx Hy.
    destruct (round_robin_fair 3 3 ltac:(lia) ltac:(lia) k x y Hx Hy)
      as (j & Hj & E1 & E2).
    exists j. split; [done|].
    change (draws (SetBabyMode demo_played)) with 4%nat.
    change (BOARD_WIDTH (SetBabyMode demo_played)) with 3.
    change (BOARD_HEIGHT (SetBabyMode demo_played)) with 3.
    replace (4 + 2 * j - 4)%nat with (0 + 2 * j)%nat by lia.
    replace (4 + 2 * j + 1 - 4)%nat with (0 + 2 * j + 1)%nat by lia.
    done.
Defined.

(** ** Clicks return when the depth allows *)

Lemma act_returns fuel a st :
  wf st → (hidden_count st < fuel)%nat →
  in_board st (target a).1 (target a).2 = true →
  ∃ st', act fuel a st = Done st'.
Proof.
  intros Hwf Hfuel Hb.
  destruct (rect_space_at st _ _ (wf_rect _ Hwf) Hb) as [c Hc].
  pose proof (space_at_Some _ _ _ _ Hc) as (_ & _ & _ & Hp).
  destruct a as [x y|x y]; cbn [target fst snd] in *; cbn [act].
  - unfold ClickSpace. rewrite Hp. cbn [mbind outcome_bind].
    destruct (flag c); [by eexists|].
    destruct (decide (type c = MINE)); [by eexists|].
    destruct (decide (type c = HIDDEN)); [|by eexists].
    by apply RevealEmpty_total; [apply Hwf|].
  - unfold RightClickSpace. rewrite Hp. cbn [mbind outcome_bind].
    destruct (decide (_ ∨ _)); [|by eexists].
    destruct (flag c); by eexists.
Qed.

(** * The recursion limit *)

(** ** Within the limit *)

Lemma piece_at_fails sp x y :
  match piece_at sp x y with
  | Done _ => True
  | Raised e => e = IndexError
  | OutOfFuel => False
  end.
Proof.
  unfold piece_at, getitem.
  destruct (index sp x) as [i|]; [|done].
  destruct (sp !! i) as [col|]; [|done]. cbn [mbind outcome_bind].
  destruct (index col y) as [j|]; [|done].
  destruct (col !! j) as [c|]; done.
Qed.

Lemma each_agrees f g l :
  (∀ a b st, agrees (f a b st) (g a b st)) →
  ∀ st, agrees (each f l st) (each_limited g l st).
Proof.
  intros Hfg. induction l as [|[a b] l IH]; intros st; [done|].
  change (each f ((a, b) :: l) st) with (f a b st ≫= each f l).
  cbn [each_limited]. specialize (Hfg a b st).
  destruct (f a b st) as [st1|e0|]; cbn [mbind outcome_bind agrees] in *.
  - rewrite Hfg. apply IH.
  - destruct Hfg as [s ->]. by exists s.
  - destruct Hfg as [s ->]. by exists s.
Qed.

Lemma RevealEmpty_agrees limit :
  ∀ x y st, agrees (RevealEmpty limit x y st) (RevealEmpty_limited limit x y st).
Proof.
  induction limit as [|limit IH]; intros x y st; [by exists st|].
  rewrite RevealEmpty_S. cbn [RevealEmpty_limited].
  destruct (in_board st x y); [|done].
  pose proof (piece_at_fails (spaces st) x y) as Hp.
  destruct (piece_at (spaces st) x y) as [[[i j] c]|e0|];
    cbn [mbind outcome_bind]; [|subst e0; by exists st|done].
  destruct (decide (type c = HIDDEN)); [|done]. cbv zeta.
  set (st2 := assign (i, j) (set_type EMPTY) _).
  destruct (0 <? count c).
  - cbn [mbind outcome_bind]. by destruct (_ <=? _).
  - pose proof (each_agrees _ _ (around x y) IH st2) as He.
    destruct (each (RevealEmpty limit) (around x y) st2) as [st3|e0|];
      cbn [mbind outcome_bind agrees] in *.
    + rewrite He. by destruct (_ <=? _).
    + destruct He as [s ->]. by exists s.
    + destruct He as [s ->]. by exists s.
Qed.

Lemma ClickSpace_agrees limit x y st :
  agrees (ClickSpace limit x y st) (ClickSpace_limited limit x y st).
Proof.
  unfold ClickSpace, ClickSpace_limited.
  pose proof (piece_at_fails (spaces st) x y) as Hp.
  destruct (piece_at (spaces st) x y) as [[[i j] c]|e0|];
    cbn [mbind outcome_bind]; [|subst e0; by exists st|done].
  destruct (flag c); [done|].
  destruct (decide (type c = MINE)); [done|].
  destruct (decide (type c = HIDDEN)); [|done].
  apply RevealEmpty_agrees.
Qed.

Lemma act_agrees limit a st : agrees (act limit a st) (act_limited limit a st).
Proof.
  destruct a as [x y|x y]; cbn [act act_limited]; [apply ClickSpace_agrees|].
  unfold RightClickSpace.
  pose proof (piece_at_fails (spaces st) x y) as Hp.
  destruct (piece_at (spaces st) x y) as [[[i j] c]|e0|];
    cbn [mbind outcome_bind]; [|subst e0; by exists st|done].
  destruct (decide (_ ∨ _)); [|done]. by destruct (flag c).
Qed.

Lemma RevealEmpty_limited_Done limit x y st st' :
  RevealEmpty limit x y st = Done st' →
  RevealEmpty_limited limit x y st = Returns st'.
Proof. intros H. pose proof (RevealEmpty_agrees limit x y st) as A. by rewrite H in A. Qed.

Lemma ClickSpace_limited_Done limit x y st st' :
  ClickSpace limit x y st = Done st' →
  ClickSpace_limited limit x y st = Returns st'.
Proof. intros H. pose proof (ClickSpace_agrees limit x y st) as A. by rewrite H in A. Qed.

Lemma act_limited_Returns limit a st st' :
  act_limited limit a st = Returns st' ↔ act limit a st = Done st'.
Proof.
  pose proof (act_agrees limit a st) as A. split; intros H.
  - rewrite H in A. destruct (act limit a st) as [s|e0|]; cbn in A.
    + by injection A as ->.
    + by destruct A.
    + by destruct A.
  - by rewrite H in A.
Qed.

Lemma play_limited_Done limit acts :
  ∀ st st', play limit acts st = Done st' →
    play_limited limit acts st = st' ∧ all_return limit acts st.
Proof.
  induction acts as [|a acts IH]; intros st st' H; cbn [play] in H.
  - by injection H as <-.
  - apply bind_Done in H as (st1 & H1 & H).
    apply act_limited_Returns in H1. cbn [play_limited all_return].
    rewrite H1. cbn [settle]. destruct (IH _ _ H) as [E A].
    split; [done|]. split; [by exists st1|done].
Qed.

Lemma all_return_play limit acts :
  ∀ st, all_return limit acts st →
    play limit acts st = Done (play_limited limit acts st).
Proof.
  induction acts as [|a acts IH]; intros st H; [done|].
  destruct H as [[st1 H1] H]. cbn [play play_limited].
  rewrite H1 in *. cbn [settle] in *.
  apply act_limited_Returns in H1. rewrite H1. cbn [mbind outcome_bind].
  by apply IH.
Qed.

(** ** Beyond the limit *)

Lemma RevealEmpty_limited_skip limit x y st :
  rect st → type_at st x y ≠ Some HIDDEN →
  RevealEmpty_limited (S limit) x y st = Returns st.
Proof.
  intros Hr Hn. apply RevealEmpty_limited_Done. by apply RevealEmpty_not_hidden.
Qed.

(** The column with its first [y] spaces revealed and room for [f] nested
    calls: the reveal marks the next [f] spaces and is abandoned there. *)
Lemma column_overflow n :
  ∀ f y, (f + y <= n)%nat →
    RevealEmpty_limited f 0 (Z.of_nat y) (column_below n y) =
    Raises RecursionError (column_below n (y + f)).
Proof.
  induction f as [|f IH]; intros y Hfy.
  { cbn [RevealEmpty_limited]. by rewrite Nat.add_0_r. }
  assert (Hy : (y < n)%nat) by lia.
  pose proof (column_below_space n y y ltac:(lia) Hy) as Hc.
  rewrite decide_False in Hc by lia.
  pose proof (space_at_Some _ _ _ _ Hc) as (Hb & _ & _ & Hp).
  cbn [RevealEmpty_limited]. rewrite Hb, Hp.
  rewrite decide_True by done.
  change (flag blank) with false. change (0 <? count blank) with false.
  cbv beta iota zeta. rewrite column_below_mark by done.
  destruct f as [|f].
  { unfold around. cbn [each_limited RevealEmpty_limited].
    by replace (y + 1)%nat with (S y) by lia. }
  assert (Hskip : ∀ a b, type_at (column_below n (S y)) a b ≠ Some HIDDEN →
            RevealEmpty_limited (S f) a b (column_below n (S y))
            = Returns (column_below n (S y))).
  { intros a b. apply RevealEmpty_limited_skip, column_below_rect. lia. }
  assert (Hleft : ∀ b, type_at (column_below n (S y)) (0 - 1) b ≠ Some HIDDEN).
  { intros b. unfold type_at, space_at.
    replace (in_board (column_below n (S y)) (0 - 1) b) with false; [done|].
    symmetry. apply not_true_iff_false. rewrite in_board_bounds. lia. }
  assert (Hup : type_at (column_below n (S y)) 0 (Z.of_nat y - 1) ≠ Some HIDDEN).
  { destruct y as [|y].
    - unfold type_at, space_at.
      replace (in_board (column_below n 1) 0 (Z.of_nat 0 - 1)) with false; [done|].
      symmetry. apply not_true_iff_false. rewrite in_board_bounds. lia.
    - replace (Z.of_nat (S y) - 1) with (Z.of_nat y) by lia.
      unfold type_at. rewrite column_below_space by lia.
      rewrite decide_True by lia. done. }
  unfold around. cbn [each_limited].
  rewrite !(Hskip _ _ (Hleft _)), (Hskip _ _ Hup).
  replace (Z.of_nat y + 1) with (Z.of_nat (S y)) by lia.
  rewrite IH by lia. f_equal. f_equal. lia.
Qed.

Lemma column_below_hidden n y b :
  (y <= b < n)%nat →
  space_at (column_below n y) 0 (Z.of_nat b) = Some blank.
Proof.
  intros Hb. rewrite column_below_space by lia. by rewrite decide_False by lia.
Qed.

Lemma column_zero_region n b :
  (b < n)%nat → zero_region (column_start n) 0 0 0 (Z.of_nat b).
Proof.
  intros Hb. rewrite <- column_start_below.
  induction b as [|b IH].
  - apply (zero_start _ 0 0 blank); [|done].
    apply (column_below_hidden n 0 0). lia.
  - apply (zero_next _ 0 0 0 (Z.of_nat b) blank (0, Z.of_nat (S b))).
    + apply IH. lia.
    + apply elem_of_around. simpl. lia.
    + apply (column_below_hidden n 0 (S b)). lia.
    + done.
Qed.

Lemma column_start_wf n : wf (column_start n).
Proof.
  apply (GenerateBoard_wf (λ _, 0) 0 (column_start n)).
  - done.
  - simpl. lia.
  - simpl. destruct (_ <? _); lia.
  - unfold GenerateBoard, column_start, startup, with_babymode,
      with_pieces_left, with_spaces, ClearBoard. simpl.
    destruct (Z.of_nat n * 1 <? 0) eqn:E; [apply Z.ltb_lt in E; lia|]. reflexivity.
Qed.

Lemma column_click limit n :
  (limit <= n)%nat → (0 < n)%nat →
  ClickSpace_limited limit 0 0 (column_start n)
  = Raises RecursionError (column_below n limit).
Proof.
  intros Hl Hn. rewrite <- column_start_below.
  pose proof (column_below_hidden n 0 0 ltac:(lia)) as Hc.
  pose proof (space_at_Some _ _ _ _ Hc) as (_ & _ & _ & Hp).
  unfold ClickSpace_limited. change (Z.of_nat 0) with 0 in Hp. rewrite Hp.
  change (flag blank) with false. cbv iota.
  rewrite decide_False by done. rewrite decide_True by done.
  apply (column_overflow n limit 0%nat). lia.
Qed.

Lemma column_below_type n y b :
  (y <= n)%nat →
  type_at (column_below n y) 0 b =
  if decide (0 <= b < Z.of_nat y) then Some EMPTY
  else if decide (0 <= b < Z.of_nat n) then Some HIDDEN else None.
Proof.
  intros Hy. destruct (decide (0 <= b < Z.of_nat n)) as [Hb|Hb].
  - unfold type_at. replace b with (Z.of_nat (Z.to_nat b)) at 1 by lia.
    rewrite column_below_space by lia.
    repeat case_decide; try lia; done.
  - rewrite decide_False by lia.
    unfold type_at, space_at.
    replace (in_board (column_below n y) 0 b) with false; [done|].
    symmetry. apply not_true_iff_false. rewrite in_board_bounds. simpl. lia.
Qed.

Lemma fresh_in_column_prefix a l l' :
  fresh_in_column (replicate a blank ++ l) (replicate a revealed_blank ++ l')
  = (a + fresh_in_column l l')%nat.
Proof. induction a as [|a IH]; simpl; [done|]. by rewrite IH. Qed.

Lemma fresh_in_column_same l : fresh_in_column l l = 0%nat.
Proof.
  induction l as [|c l IH]; simpl; [done|]. rewrite IH.
  unfold fresh. by destruct (is_empty c).
Qed.

Lemma column_newly_revealed n y :
  (y <= n)%nat →
  newly_revealed (spaces (column_start n)) (spaces (column_below n y)) = y.
Proof.
  intros Hy. rewrite <- column_start_below. unfold column_below.
  cbn [with_spaces spaces newly_revealed replicate app].
  rewrite Nat.sub_0_r.
  replace n with (y + (n - y))%nat at 1 by lia.
  rewrite replicate_add, fresh_in_column_prefix, fresh_in_column_same. lia.
Qed.

(** C1.  The claim holds of the code only while the recursion fits:
    launched as [Minesweeper.py 1 n 0] the program generates a column of
    [n] spaces, all of count 0, which are one zero region; with room for
    [limit] nested calls, fewer than the column has spaces, [ClickSpace]
    on the top space raises [RecursionError] and leaves the first
    [limit] spaces revealed and every later space of the region hidden. *)
Theorem RevealEmpty_exceeds_recursion_limit rng fuel limit k :
  let n := (limit + S k)%nat in
  let st := column_start n in
  GenerateBoard rng fuel st = Done st ∧ wf st ∧
  space_at st 0 0 = Some blank ∧
  (∀ b, 0 <= b < Z.of_nat n → zero_region st 0 0 0 b) ∧
  ∃ st', ClickSpace_limited limit 0 0 st = Raises RecursionError st' ∧
    (∀ b, type_at st' 0 b = Some EMPTY ↔ 0 <= b < Z.of_nat limit) ∧
    (∀ b, Z.of_nat limit <= b < Z.of_nat n → type_at st' 0 b = Some HIDDEN).
Proof.
  intros n st. subst st.
  split; [|split; [apply column_start_wf|split; [|split]]].
  - unfold GenerateBoard, column_start, startup, with_babymode,
      with_pieces_left, with_spaces, ClearBoard. simpl.
    destruct (Z.of_nat n * 1 <? 0) eqn:E; [apply Z.ltb_lt in E; lia|]. reflexivity.
  - rewrite <- column_start_below.
    apply (column_below_hidden n 0 0). lia.
  - intros b Hb. replace b with (Z.of_nat (Z.to_nat b)) by lia.
    apply column_zero_region. lia.
  - exists (column_below n limit). split; [apply column_click; lia|]. split.
    + intros b. rewrite column_below_type by lia.
      repeat case_decide; split; intros; try done; lia.
    + intros b Hb. rewrite column_below_type by lia.
      rewrite decide_False by lia. by rewrite decide_True by lia.
Qed.

Lemma column_start_pieces n : pieces_left (column_start n) = Z.of_nat n.
Proof.
  unfold column_start, startup, with_spaces. simpl.
  destruct (Z.of_nat n * 1 <? 0) eqn:E; [apply Z.ltb_lt in E|]; lia.
Qed.

Lemma column_below_hidden_count n y :
  (y <= n)%nat → hidden_count (column_below n y) = (n - y)%nat.
Proof.
  intros Hy. unfold hidden_count, column_below. cbn [with_spaces spaces tally].
  rewrite Nat.add_0_r.
  assert (∀ a, count_if is_hidden (replicate a revealed_blank) = 0%nat) as Hz
    by (induction a as [|a IH]; simpl; [done|exact IH]).
  assert (∀ a, count_if is_hidden (replicate a blank) = a) as Hh
    by (induction a as [|a IH]; simpl; [done|by rewrite IH]).
  assert (∀ l l', count_if is_hidden (l ++ l') =
            (count_if is_hidden l + count_if is_hidden l')%nat) as Happ
    by (induction l as [|c l IH]; intros l'; simpl; [done|rewrite IH; lia]).
  rewrite Happ, Hz, Hh. lia.
Qed.

(** C8.  The claim holds of a reveal that returns, not of one that is
    abandoned: on the column of [n] spaces that [Minesweeper.py 1 n 0]
    generates, with room for no more nested calls than the column has
    spaces, the call raises [RecursionError] after it has turned as many
    spaces to revealed as it had room for, and [pieces_left] is what it
    was before the call. *)
Theorem pieces_left_misses_abandoned_reveal limit k :
  let n := (S limit + k)%nat in
  let st := column_start n in
  pieces_left st = Z.of_nat n ∧
  ∃ st', RevealEmpty_limited (S limit) 0 0 st = Raises RecursionError st' ∧
    ClickSpace_limited (S limit) 0 0 st = Raises RecursionError st' ∧
    newly_revealed (spaces st) (spaces st') = S limit ∧
    hidden_count st' = k ∧
    pieces_left st' = pieces_left st.
Proof.
  intros n st. subst st. split; [apply column_start_pieces|].
  exists (column_below n (S limit)).
  split; [|split; [apply column_click; lia|split; [|split; [|done]]]].
  - rewrite <- column_start_below.
    apply (column_overflow n (S limit) 0%nat). lia.
  - apply column_newly_revealed. lia.
  - rewrite column_below_hidden_count by lia. lia.
Qed.

(** ** What an abandoned reveal leaves behind *)

Lemma RevealEmpty_limited_Returns limit x y st st' :
  RevealEmpty_limited limit x y st = Returns st' →
  RevealEmpty limit x y st = Done st'.
Proof.
  intros H. pose proof (RevealEmpty_agrees limit x y st) as A. rewrite H in A.
  destruct (RevealEmpty limit x y st) as [s|e0|]; cbn in A.
  - by injection A as ->.
  - by destruct A.
  - by destruct A.
Qed.

Lemma grows_rect st st' : grows st st' → rect st → rect st'.
Proof. intros (Hw & Hh & Hb). by apply board_step_rect. Qed.

Lemma grows_hidden_le st st' :
  grows st st' → (hidden_count st' <= hidden_count st)%nat.
Proof.
  intros (_ & _ & Hb). unfold hidden_count.
  destruct (newly_revealed_hidden _ _ Hb). lia.
Qed.

Lemma reveals_surplus st st' : reveals st st' → surplus st' = surplus st.
Proof. intros R. unfold surplus. rewrite (rv_pieces _ _ R). lia. Qed.

Lemma each_limited_Raises g l :
  (∀ a b st st', rect st → g a b st = Returns st' → reveals st st') →
  (∀ a b st e st', rect st → g a b st = Raises e st' →
     e = RecursionError ∧ abandoned st st') →
  ∀ st e st', rect st → each_limited g l st = Raises e st' →
    e = RecursionError ∧ abandoned st st'.
Proof.
  intros Hret Hraise. induction l as [|[a b] l IH]; intros st e st' Hr H; [done|].
  cbn [each_limited] in H.
  destruct (g a b st) as [st1|e1 st1] eqn:E.
  - pose proof (Hret _ _ _ _ Hr E) as R.
    destruct (IH st1 e st' (reveals_rect _ _ R Hr) H) as (-> & G & S & P).
    split; [done|]. split; [|split].
    + eapply grows_trans; [by apply reveals_grows|done].
    + rewrite <- (reveals_surplus _ _ R). done.
    + pose proof (pg_pieces _ _ (reveals_progress _ _ R)). lia.
  - injection H as <- <-. by apply (Hraise a b).
Qed.

Lemma RevealEmpty_limited_Raises limit :
  ∀ x y st e st', rect st → RevealEmpty_limited limit x y st = Raises e st' →
    e = RecursionError ∧ abandoned st st' ∧
    ((0 < limit)%nat →
       type_at st x y = Some HIDDEN ∧ type_at st' x y = Some EMPTY ∧
       surplus st < surplus st').
Proof.
  induction limit as [|limit IH]; intros x y st e st' Hr H.
  { injection H as <- <-. split; [done|]. split; [|lia].
    split; [apply grows_refl|]. lia. }
  cbn [RevealEmpty_limited] in H.
  destruct (in_board st x y) eqn:Hb; [|done].
  destruct (rect_space_at st x y Hr Hb) as [c Hc].
  pose proof (space_at_Some _ _ _ _ Hc) as (_ & Hx & Hy & Hp).
  rewrite Hp in H.
  destruct (decide (type c = HIDDEN)) as [Hh|]; [|done].
  cbv zeta in H.
  pose proof Hp as Hl. apply piece_at_lookup in Hl as (col & Hi & Hj).
  destruct (mark_step st _ _ col c Hi Hj Hh) as [Hstep Hcount].
  assert (Hcell : cell (spaces st) x y = Some c).
  { unfold space_at in Hc. by rewrite Hb in Hc. }
  pose proof (mark_space_at st x y c x y Hb Hcell) as Hmark.
  rewrite decide_True in Hmark by done.
  set (st2 := assign (Z.to_nat x, Z.to_nat y) (set_type EMPTY)
                (if flag c then assign (Z.to_nat x, Z.to_nat y) (set_flag false) st
                 else st)) in *.
  assert (Hset : BOARD_WIDTH st2 = BOARD_WIDTH st ∧
                 BOARD_HEIGHT st2 = BOARD_HEIGHT st ∧
                 pieces_left st2 = pieces_left st)
    by (subst st2; by destruct (flag c)).
  destruct Hset as (Hw2 & Hh2 & Hp2).
  assert (G2 : grows st st2) by (by repeat split).
  assert (Hr2 : rect st2) by (by eapply grows_rect).
  destruct (0 <? count c); [by destruct (_ <=? _)|].
  destruct (each_limited (RevealEmpty_limited limit) (around x y) st2)
    as [st3|e3 st3] eqn:E; [by destruct (_ <=? _)|].
  injection H as <- <-.
  destruct (each_limited_Raises (RevealEmpty_limited limit) (around x y))
    with (st := st2) (e := e3) (st' := st3) as (-> & G & S & P); [| |done|done|].
  { intros a b s s' _ Hs. eapply RevealEmpty_reveals.
    by apply RevealEmpty_limited_Returns. }
  { intros a b s e' s' Hrs Hs. destruct (IH a b s e' s' Hrs Hs) as (? & ? & _). done. }
  assert (S2 : surplus st2 = surplus st + 1) by (unfold surplus; lia).
  split; [done|]. split; [split; [|split]|].
  - by eapply grows_trans.
  - lia.
  - lia.
  - intros _. split; [|split].
    + unfold type_at. rewrite Hc. simpl. by f_equal.
    + apply (grows_empty st2 st3); [done|]. unfold type_at. by rewrite Hmark.
    + lia.
Qed.

Lemma ClickSpace_limited_Raises limit x y st e st' :
  rect st → in_board st x y = true →
  ClickSpace_limited limit x y st = Raises e st' →
  e = RecursionError ∧ abandoned st st' ∧ (limit <= hidden_count st)%nat ∧
  ((0 < limit)%nat →
     type_at st x y = Some HIDDEN ∧ type_at st' x y = Some EMPTY ∧
     surplus st < surplus st').
Proof.
  intros Hr Hb H.
  assert (Hlim : (limit <= hidden_count st)%nat).
  { destruct (decide (hidden_count st < limit)%nat) as [Hlt|]; [|lia]. exfalso.
    pose proof (ClickSpace_agrees limit x y st) as A. rewrite H in A.
    unfold ClickSpace in A.
    destruct (rect_space_at st x y Hr Hb) as [c Hc].
    pose proof (space_at_Some _ _ _ _ Hc) as (_ & _ & _ & Hp).
    rewrite Hp in A. cbn [mbind outcome_bind] in A.
    destruct (flag c); [done|].
    destruct (decide (type c = MINE)); [done|].
    destruct (decide (type c = HIDDEN)); [|done].
    destruct (RevealEmpty_total limit x y st Hr Hlt) as [s Hs].
    rewrite Hs in A. done. }
  unfold ClickSpace_limited in H.
  destruct (rect_space_at st x y Hr Hb) as [c Hc].
  pose proof (space_at_Some _ _ _ _ Hc) as (_ & _ & _ & Hp).
  rewrite Hp in H.
  destruct (flag c); [done|].
  destruct (decide (type c = MINE)); [done|].
  destruct (decide (type c = HIDDEN)); [|done].
  destruct (RevealEmpty_limited_Raises limit x y st e st' Hr H) as (? & ? & ?).
  done.
Qed.

(** ** The board after the win dialog *)

(** C5.  The handlers test no game state; what keeps clicks away from a
    finished game is the dialog.  Every way out of the game-over dialog
    starts a new board, ends the program or sets baby mode, the close
    button of its window included.  The win dialog has no handler for
    that button: on the board of [Minesweeper.py 2 1 1] with the mine on
    the left, the click on the right space wins, closing the dialog
    leaves that board as it is, without baby mode, and then a right
    click flags the mine and a left click on it opens the game-over
    dialog. *)
Theorem won_board_stays_clickable rng fuel :
  GenerateBoard (round_robin 2 1) 1 pair_start = Done pair_board ∧
  ClickSpace 2 1 0 pair_board = Done won_board ∧
  trace won_board = [EvGameWin] ∧ pieces_left won_board = 0 ∧
  (∀ a b, type_at won_board a b ≠ Some HIDDEN) ∧
  (∀ e st s, leave_GameOver rng fuel e st = Done (Some s) →
     s = SetBabyMode st ∨ GenerateBoard rng fuel st = Done s) ∧
  leave_GameWin rng fuel CloseGameWin won_board = Done (Some won_board) ∧
  babymode won_board = false ∧
  space_at won_board 0 0 = Some {| type := MINE; count := 0; flag := false |} ∧
  (∃ st', RightClickSpace 0 0 won_board = Done st' ∧
     space_at st' 0 0 = Some {| type := MINE; count := 0; flag := true |}) ∧
  (∃ st', ClickSpace 2 0 0 won_board = Done st' ∧
     trace st' = [EvGameWin; EvGameOver 0 0]).
Proof.
  split; [reflexivity|]. split; [reflexivity|]. split; [reflexivity|].
  split; [reflexivity|]. split; [|split; [|split; [reflexivity|]]].
  - apply no_hidden_iff; [|reflexivity]. apply (reveals_rect pair_board).
    + apply (RevealEmpty_reveals 2 1 0). reflexivity.
    + apply pair_board_wf.
  - intros e st s H. destruct e; cbn [leave_GameOver] in H.
    + apply bind_Done in H as (st' & Hg & H). injection H as ->. by right.
    + discriminate.
    + injection H as <-. by left.
    + apply bind_Done in H as (st' & Hg & H). injection H as ->. by right.
  - split; [reflexivity|]. split; [reflexivity|]. split.
    + eexists. split; reflexivity.
    + eexists. split; reflexivity.
Qed.

(** ** A click, returned or abandoned *)

Lemma ClickSpace_limited_Returns limit x y st st' :
  ClickSpace_limited limit x y st = Returns st' →
  ClickSpace limit x y st = Done st'.
Proof. apply (act_limited_Returns limit (LeftClick x y) st st'). Qed.

Lemma reveal_target_Done fuel st x y c st' :
  space_at st x y = Some c → type c = HIDDEN →
  RevealEmpty fuel x y st = Done st' →
  type_at st' x y = Some EMPTY ∧ pieces_left st' < pieces_left st ∧
  (hidden_count st' < hidden_count st)%nat.
Proof.
  intros Hc Ht H.
  pose proof (RevealEmpty_strict _ _ _ _ _ _ Hc Ht H) as Hlt.
  pose proof (RevealEmpty_reveals _ _ _ _ _ H) as R.
  split; [|split; [|done]].
  - pose proof (reveals_grows _ _ R) as Hg.
    destruct (RevealEmpty_walked _ _ _ _ _ H) as (W1 & _ & _).
    specialize (W1 (x, y) (list_elem_of_here _ _)). simpl in W1.
    destruct (grows_cases st st' x y Hg) as [E|E]; [| |done].
    + unfold type_at. rewrite Hc. simpl. by f_equal.
    + exfalso. apply W1. unfold type_at. rewrite E, Hc. simpl. by f_equal.
  - pose proof (rv_pieces _ _ R). lia.
Qed.

(** X5.  A left click on a hidden space that is neither flagged nor a
    mine, with room for at least one call of [RevealEmpty], reveals that
    space and lowers the number of hidden spaces whether the reveal
    returns or is abandoned.  When it returns [pieces_left] is smaller
    than before, and it returns whenever there is room for more nested
    calls than spaces are hidden.  The only exception it can raise is
    [RecursionError], when there is no such room, and then [pieces_left]
    is further above the number of hidden spaces than it was. *)
Theorem click_reveals_target limit st x y c :
  rect st → space_at st x y = Some c → type c = HIDDEN → flag c = false →
  let r := ClickSpace_limited (S limit) x y st in
  type_at (settle r) x y = Some EMPTY ∧
  (hidden_count (settle r) < hidden_count st)%nat ∧
  (∀ st', r = Returns st' → pieces_left st' < pieces_left st) ∧
  ((hidden_count st <= limit)%nat → ∃ st', r = Returns st') ∧
  (∀ e st', r = Raises e st' →
     e = RecursionError ∧ (limit < hidden_count st)%nat ∧
     surplus st < surplus st').
Proof.
  intros Hr Hc Ht Hfl r.
  pose proof (space_at_Some _ _ _ _ Hc) as (Hb & _ & _ & Hp).
  destruct r as [s|e s] eqn:E; subst r; cbn [settle].
  - pose proof (ClickSpace_limited_Returns _ _ _ _ _ E) as H.
    unfold ClickSpace in H. rewrite Hp in H. cbn [mbind outcome_bind] in H.
    rewrite Hfl in H. rewrite decide_False in H by congruence.
    rewrite decide_True in H by done.
    destruct (reveal_target_Done _ _ _ _ _ _ Hc Ht H) as (T & P & L).
    split; [done|]. split; [done|]. split; [by intros ? [= <-]|].
    split; [by exists s|]. intros ? ? [=].
  - destruct (ClickSpace_limited_Raises _ _ _ _ _ _ Hr Hb E)
      as (-> & (G & S & P) & Hlim & Hpos).
    destruct (Hpos ltac:(lia)) as (_ & T & Slt).
    unfold surplus in *.
    split; [done|]. split; [lia|]. split; [intros ? [=]|].
    split; [intros ?; lia|]. intros ? ? [= <- <-]. split; [done|]. split; lia.
Qed.

Lemma click_reveals_target_witness :
  let r := ClickSpace_limited 8 1 1 demo_board in
  type_at (settle r) 1 1 = Some EMPTY ∧
  (hidden_count (settle r) < hidden_count demo_board)%nat ∧
  (∀ st', r = Returns st' → pieces_left st' < pieces_left demo_board) ∧
  ((hidden_count demo_board <= 7)%nat → ∃ st', r = Returns st') ∧
  (∀ e st', r = Raises e st' →
     e = RecursionError ∧ (7 < hidden_count demo_board)%nat ∧
     surplus demo_board < surplus st').
Proof.
  apply (click_reveals_target 7 demo_board 1 1
           {| type := HIDDEN; count := 2; flag := false |}).
  - exact (wf_rect _ demo_board_wf).
  - reflexivity.
  - reflexivity.
  - reflexivity.
Defined.

(** ** Clicks one after the other *)

Lemma act_Done_step fuel a st st' :
  rect st → act fuel a st = Done st' →
  rect st' ∧ surplus st' = surplus st.
Proof.
  intros Hr H. destruct a as [x y|x y]; simpl in H.
  - unfold ClickSpace in H. apply bind_Done in H as ([[i j] c] & _ & H).
    destruct (flag c); [by injection H as <-|].
    destruct (decide (type c = MINE)); [by injection H as <-|].
    destruct (decide (type c = HIDDEN)); [|by injection H as <-].
    pose proof (RevealEmpty_reveals _ _ _ _ _ H) as R.
    split; [by eapply reveals_rect|by apply reveals_surplus].
  - unfold RightClickSpace in H. apply bind_Done in H as ([[i j] c] & Hp & H).
    apply piece_at_lookup in Hp as (col & Hi & Hj).
    destruct (decide (_ ∨ _)); [|by injection H as <-].
    assert (∀ v, rect (assign (i, j) (set_flag v) st) ∧
                 surplus (assign (i, j) (set_flag v) st) = surplus st) as Hv.
    { intros v. split.
      - destruct Hr as [Hl Hcs].
        split; simpl; [by rewrite update_length|by apply update_columns].
      - unfold surplus, hidden_count. cbn [assign with_spaces spaces pieces_left].
        rewrite (tally_update _ _ _ _ _ _ _ Hi Hj).
        change (is_hidden (set_flag v c)) with (is_hidden c). lia. }
    destruct (flag c); injection H as <-; apply Hv.
Qed.

(** What every click on the board does, whatever the room. *)
Lemma act_limited_step limit a st :
  rect st → in_board st (target a).1 (target a).2 = true →
  let r := act_limited limit a st in
  rect (settle r) ∧
  BOARD_WIDTH (settle r) = BOARD_WIDTH st ∧
  BOARD_HEIGHT (settle r) = BOARD_HEIGHT st ∧
  (hidden_count (settle r) <= hidden_count st)%nat ∧
  mine_count (settle r) = mine_count st ∧
  surplus st <= surplus (settle r) ∧
  (∀ st', r = Returns st' → surplus st' = surplus st) ∧
  ((hidden_count st < limit)%nat → ∃ st', r = Returns st') ∧
  (∀ e st', r = Raises e st' →
     e = RecursionError ∧ (limit <= hidden_count st)%nat ∧
     (∃ x y, a = LeftClick x y) ∧
     ((0 < limit)%nat → surplus st < surplus st')).
Proof.
  intros Hr Hb r.
  destruct r as [s|e s] eqn:E; subst r; cbn [settle].
  - pose proof (proj1 (act_limited_Returns _ _ _ _) E) as H.
    destruct (act_Done_step _ _ _ _ Hr H) as [Hr' S].
    destruct (act_progress _ _ _ _ H) as [P1 P2 _ _ P5 _ P7].
    split; [done|]. split; [done|]. split; [done|]. split; [done|].
    split; [done|]. split; [lia|]. split; [by intros ? [= <-]|].
    split; [by exists s|]. intros ? ? [=].
  - assert (∃ x y, a = LeftClick x y ∧ ClickSpace_limited limit x y st = Raises e s)
      as (x & y & -> & H).
    { destruct a as [x y|x y]; [by exists x, y|]. exfalso.
      cbn [act_limited target fst snd] in *.
      destruct (rect_space_at st x y Hr Hb) as [c Hc].
      pose proof (space_at_Some _ _ _ _ Hc) as (_ & _ & _ & Hp).
      unfold RightClickSpace in E. rewrite Hp in E. cbn [mbind outcome_bind] in E.
      destruct (decide (_ ∨ _)); [|done]. by destruct (flag c). }
    cbn [target fst snd] in Hb.
    destruct (ClickSpace_limited_Raises _ _ _ _ _ _ Hr Hb H)
      as (-> & (G & S & P) & Hlim & Hpos).
    destruct G as (Gw & Gh & Gb).
    destruct (newly_revealed_hidden _ _ Gb) as [Hn Hm].
    split; [by eapply grows_rect|]. split; [done|]. split; [done|].
    split; [unfold hidden_count; lia|]. split; [done|]. split; [done|].
    split; [intros ? [=]|]. split; [intros ?; lia|].
    intros ? ? [= <- <-]. split; [done|]. split; [done|].
    split; [by exists x, y|]. intros Hl. by destruct (Hpos Hl) as (_ & _ & ?).
Qed.

Lemma play_limited_steps limit acts :
  ∀ st, rect st →
    (∀ a, a ∈ acts → in_board st (target a).1 (target a).2 = true) →
    let s := play_limited limit acts st in
    rect s ∧ BOARD_WIDTH s = BOARD_WIDTH st ∧ BOARD_HEIGHT s = BOARD_HEIGHT st ∧
    (hidden_count s <= hidden_count st)%nat ∧
    mine_count s = mine_count st ∧ surplus st <= surplus s.
Proof.
  induction acts as [|a acts IH]; intros st Hr Hin; cbn [play_limited].
  { cbv zeta. split; [done|]. split; [done|]. split; [done|]. split; [lia|].
    split; [done|lia]. }
  destruct (act_limited_step limit a st Hr (Hin a (list_elem_of_here _ _)))
    as (R1 & W1 & H1 & L1 & M1 & S1 & _).
  destruct (IH (settle (act_limited limit a st)) R1) as (R & W & H & L & M & S).
  { intros b Hb. apply in_board_bounds. rewrite W1, H1.
    apply in_board_bounds. apply Hin. by apply list_elem_of_further. }
  cbv zeta. split; [done|]. split; [congruence|]. split; [congruence|].
  split; [lia|]. split; [congruence|lia].
Qed.

(** X21.  The only exception a click on the board can raise is
    [RecursionError]: whatever clicks came before and whether their
    reveals returned or were abandoned, the board stays a grid of the
    recorded size, a right click returns, and a left click returns
    whenever there is room for more nested calls than spaces are hidden;
    it is abandoned only when there is no such room. *)
Theorem clicks_raise_only_RecursionError limit acts a st :
  rect st →
  (∀ b, b ∈ acts ++ [a] → in_board st (target b).1 (target b).2 = true) →
  let s := play_limited limit acts st in
  let r := act_limited limit a s in
  rect s ∧ rect (settle r) ∧
  (hidden_count (settle r) <= hidden_count s <= hidden_count st)%nat ∧
  ((hidden_count s < limit)%nat → ∃ st', r = Returns st') ∧
  (∀ e st', r = Raises e st' →
     e = RecursionError ∧ (limit <= hidden_count s)%nat ∧
     ∃ x y, a = LeftClick x y).
Proof.
  intros Hr Hin s r.
  destruct (play_limited_steps limit acts st Hr) as (R & W & H & L & _).
  { intros b Hb. apply Hin. apply elem_of_app. by left. }
  fold s in R, W, H, L.
  destruct (act_limited_step limit a s R) as (R1 & _ & _ & L1 & _ & _ & _ & T & E).
  { apply in_board_bounds. rewrite W, H. apply in_board_bounds.
    apply Hin. apply elem_of_app. right. apply list_elem_of_here. }
  fold r in R1, L1, T, E.
  split; [done|]. split; [done|]. split; [lia|]. split; [done|].
  intros e st' He. destruct (E e st' He) as (? & ? & ? & _). done.
Qed.

Lemma clicks_raise_only_RecursionError_witness :
  let s := play_limited 3 [RightClick 2 2; LeftClick 0 0; LeftClick 0 2] demo_board in
  let r := act_limited 3 (LeftClick 2 2) s in
  rect s ∧ rect (settle r) ∧
  (hidden_count (settle r) <= hidden_count s <= hidden_count demo_board)%nat ∧
  ((hidden_count s < 3)%nat → ∃ st', r = Returns st') ∧
  (∀ e st', r = Raises e st' →
     e = RecursionError ∧ (3 <= hidden_count s)%nat ∧
     ∃ x y, LeftClick 2 2 = LeftClick x y).
Proof.
  apply (clicks_raise_only_RecursionError 3
           [RightClick 2 2; LeftClick 0 0; LeftClick 0 2] (LeftClick 2 2) demo_board).
  - exact (wf_rect _ demo_board_wf).
  - intros b Hb. cbn [app] in Hb.
    repeat (apply elem_of_cons in Hb as [->|Hb]); [done..|].
    by apply elem_of_nil in Hb.
Defined.

(** ** [pieces_left] through a game *)

Lemma play_limited_in_step limit acts :
  ∀ st, rect st →
    (∀ a, a ∈ acts → in_board st (target a).1 (target a).2 = true) →
    surplus (play_limited (S limit) acts st) = surplus st →
    all_return (S limit) acts st.
Proof.
  induction acts as [|a acts IH]; intros st Hr Hin Hs; [done|].
  cbn [play_limited all_return] in *.
  destruct (act_limited_step (S limit) a st Hr (Hin a (list_elem_of_here _ _)))
    as (R1 & W1 & H1 & _ & _ & S1 & Sret & _ & Sraise).
  assert (Hin1 : ∀ b, b ∈ acts →
            in_board (settle (act_limited (S limit) a st)) (target b).1 (target b).2
            = true).
  { intros b Hb. apply in_board_bounds. rewrite W1, H1.
    apply in_board_bounds. apply Hin. by apply list_elem_of_further. }
  destruct (play_limited_steps (S limit) acts _ R1 Hin1) as (_ & _ & _ & _ & _ & S2).
  destruct (act_limited (S limit) a st) as [s|e s] eqn:E; cbn [settle] in *.
  - split; [by exists s|]. apply IH; [done|done|].
    rewrite (Sret s eq_refl). lia.
  - exfalso. destruct (Sraise e s eq_refl) as (_ & _ & _ & Hlt).
    specialize (Hlt ltac:(lia)). lia.
Qed.

(** X9.  On a generated board and through any clicks on its spaces,
    with room for at least one call of [RevealEmpty]: [pieces_left] is
    never below the number of hidden spaces that are not mines, and it
    is that number exactly as long as every click has returned; once a
    reveal has been abandoned [pieces_left] stays above it.  However the
    clicks end, the hidden, revealed and mined spaces together are all
    the spaces of the board and the mines are as many as [TOTAL_MINES]. *)
Theorem pieces_left_is_hidden_count rng fuel st0 st limit acts :
  0 <= BOARD_WIDTH st0 → 0 <= BOARD_HEIGHT st0 → 0 <= TOTAL_MINES st0 →
  GenerateBoard rng fuel st0 = Done st →
  (∀ a, a ∈ acts → in_board st (target a).1 (target a).2 = true) →
  let st' := play_limited (S limit) acts st in
  Z.of_nat (hidden_count st') <= pieces_left st' ∧
  (pieces_left st' = Z.of_nat (hidden_count st') ↔ all_return (S limit) acts st) ∧
  Z.of_nat (hidden_count st' + revealed_count st' + mine_count st')
    = BOARD_WIDTH st0 * BOARD_HEIGHT st0 ∧
  Z.of_nat (mine_count st') = TOTAL_MINES st0.
Proof.
  intros Hw Hh Hm Hgen Hin st'.
  pose proof (GenerateBoard_wf _ _ _ _ Hw Hh Hm Hgen) as Hwf.
  destruct (generated_board_accounts rng fuel st0 st 0 [] st Hw Hh Hm Hgen eq_refl)
    as (P0 & _ & Part0 & M0).
  destruct (play_limited_steps (S limit) acts st (wf_rect _ Hwf) Hin)
    as ([Hl Hc] & W & H & L & M & S).
  fold st' in Hl, Hc, W, H, L, M, S.
  assert (S0 : surplus st = 0) by (unfold surplus; lia).
  split; [unfold surplus in S; lia|]. split; [|split].
  - split.
    + intros E. apply play_limited_in_step; [apply Hwf|done|].
      fold st'. unfold surplus in *. lia.
    + intros A. pose proof (all_return_play _ _ _ A) as Hplay. fold st' in Hplay.
      by destruct (generated_board_accounts rng fuel st0 st _ acts st'
                     Hw Hh Hm Hgen Hplay).
  - pose proof (tally_partition _ _ Hc) as Hp.
    unfold hidden_count, revealed_count, mine_count. rewrite Hp, Hl, W, H.
    destruct Hwf as [[Hl0 Hc0] _ _ _].
    pose proof (tally_partition _ _ Hc0) as Hp0.
    unfold hidden_count, revealed_count, mine_count in Part0.
    rewrite Hp0, Hl0 in Part0. exact Part0.
  - rewrite M. exact M0.
Qed.

Lemma pieces_left_is_hidden_count_witness :
  let st' := play_limited 8 [LeftClick 0 2; RightClick 0 0] demo_board in
  Z.of_nat (hidden_count st') <= pieces_left st' ∧
  (pieces_left st' = Z.of_nat (hidden_count st') ↔
     all_return 8 [LeftClick 0 2; RightClick 0 0] demo_board) ∧
  Z.of_nat (hidden_count st' + revealed_count st' + mine_count st')
    = BOARD_WIDTH demo_start * BOARD_HEIGHT demo_start ∧
  Z.of_nat (mine_count st') = TOTAL_MINES demo_start.
Proof.
  apply (pieces_left_is_hidden_count (round_robin 3 3) 1 demo_start demo_board
           7 [LeftClick 0 2; RightClick 0 0]).
  - vm_compute. discriminate.
  - vm_compute. discriminate.
  - vm_compute. discriminate.
  - reflexivity.
  - intros a Ha. repeat (apply elem_of_cons in Ha as [->|Ha]); [done..|].
    by apply elem_of_nil in Ha.
Defined.

(** X11.  With room for more nested calls than spaces are hidden, a
    well-formed board on which no hidden space that is not a mine is
    flagged can be won: left clicks, in any order, on a list of spaces of
    the board that holds no mine and holds every hidden space all return;
    afterwards no space that is not a mine is hidden, [pieces_left] is 0,
    and what the clicks have opened is the win dialog, once, or nothing
    at all when nothing was hidden. *)
Theorem clicking_every_safe_space_wins limit st l :
  wf st → no_hidden_flag st → (hidden_count st < limit)%nat →
  (∀ p, p ∈ l → in_board st p.1 p.2 = true ∧ mine_at st p.1 p.2 = false) →
  (∀ x y, type_at st x y = Some HIDDEN → (x, y) ∈ l) →
  let st' := play_limited limit (clicks l) st in
  all_return limit (clicks l) st ∧
  (∀ x y, type_at st' x y ≠ Some HIDDEN) ∧
  pieces_left st' = 0 ∧
  trace st' = trace st ++
    (if decide (0 < hidden_count st)%nat then [EvGameWin] else []).
Proof.
  intros Hwf Hnf Hf Hl Hall st'.
  destruct (safe_clicks_win limit st l Hwf Hnf Hf Hl Hall)
    as (s & Hplay & H1 & H2 & H3).
  destruct (play_limited_Done _ _ _ _ Hplay) as [E A].
  subst st'. rewrite E. done.
Qed.

Lemma clicking_every_safe_space_wins_witness :
  let l := [(2, 0); (0, 1); (1, 1); (2, 1); (0, 2); (1, 2); (2, 2)] in
  let st' := play_limited 8 (clicks l) demo_board in
  all_return 8 (clicks l) demo_board ∧
  (∀ x y, type_at st' x y ≠ Some HIDDEN) ∧
  pieces_left st' = 0 ∧
  trace st' = trace demo_board ++
    (if decide (0 < hidden_count demo_board)%nat then [EvGameWin] else []).
Proof.
  apply (clicking_every_safe_space_wins 8 demo_board).
  - apply demo_board_wf.
  - intros x y c Hc Ht.
    assert (Hb : in_board demo_board x y = true)
      by (by apply space_at_Some in Hc as (? & _)).
    apply in_board_bounds in Hb. change (BOARD_WIDTH demo_board) with 3 in Hb.
    change (BOARD_HEIGHT demo_board) with 3 in Hb.
    assert (Hx : x = 0 ∨ x = 1 ∨ x = 2) by lia.
    assert (Hy : y = 0 ∨ y = 1 ∨ y = 2) by lia.
    destruct Hx as [-> | [-> | ->]], Hy as [-> | [-> | ->]];
      vm_compute in Hc; injection Hc as <-; reflexivity.
  - vm_compute. lia.
  - intros p Hp. repeat (apply elem_of_cons in Hp as [->|Hp]); [done..|].
    by apply elem_of_nil in Hp.
  - intros x y Ht.
    assert (Hb : in_board demo_board x y = true).
    { unfold type_at, space_at in Ht. by destruct (in_board demo_board x y). }
    apply in_board_bounds in Hb. change (BOARD_WIDTH demo_board) with 3 in Hb.
    change (BOARD_HEIGHT demo_board) with 3 in Hb.
    assert (Hx : x = 0 ∨ x = 1 ∨ x = 2) by lia.
    assert (Hy : y = 0 ∨ y = 1 ∨ y = 2) by lia.
    destruct Hx as [-> | [-> | ->]], Hy as [-> | [-> | ->]];
      try (vm_compute in Ht; discriminate);
      repeat first [apply list_elem_of_here | apply list_elem_of_further].
Defined.

(** ** Reveals within the limit *)

(** X22.  With room for more nested calls than spaces are hidden, on a
    board whose counts are right and on which the revealed spaces of
    count 0 have no hidden neighbour, as on every board that is generated
    and then played with clicks that return, [RevealEmpty] on a hidden
    space that is not a mine and whose count is 0 returns, and afterwards
    the revealed spaces are those revealed before together with the
    connected region of count 0 around the space and the positive-count
    spaces bordering that region; a left click on the space, when it
    carries no flag, does the same.  No mine is touched. *)
Theorem reveal_within_limit_is_cascade limit st x y c :
  rect st → counts_ok st → closed st →
  space_at st x y = Some c → type c = HIDDEN → count c = 0 →
  (hidden_count st < limit)%nat →
  ∃ st', RevealEmpty_limited limit x y st = Returns st' ∧
    (flag c = false → ClickSpace_limited limit x y st = Returns st') ∧
    (∀ a b, type_at st' a b = Some EMPTY ↔
            type_at st a b = Some EMPTY ∨ cascade st x y a b) ∧
    (∀ a b, type_at st a b = Some MINE →
            space_at st' a b = space_at st a b).
Proof.
  intros Hr Hk Hcl Hc Ht Hz Hf.
  destruct (RevealEmpty_cascade limit st x y c Hr Hk Hcl Hc Ht Hz Hf)
    as (st' & H1 & H2 & H3 & H4).
  exists st'. split; [by apply RevealEmpty_limited_Done|].
  split; [|done]. intros Hfl. apply ClickSpace_limited_Done. by apply H2.
Qed.

Lemma reveal_within_limit_is_cascade_witness :
  ∃ st', RevealEmpty_limited 8 0 2 demo_board = Returns st' ∧
    (false = false → ClickSpace_limited 8 0 2 demo_board = Returns st') ∧
    (∀ a b, type_at st' a b = Some EMPTY ↔
            type_at demo_board a b = Some EMPTY ∨ cascade demo_board 0 2 a b) ∧
    (∀ a b, type_at demo_board a b = Some MINE →
            space_at st' a b = space_at demo_board a b).
Proof.
  apply (reveal_within_limit_is_cascade 8 demo_board 0 2
           {| type := HIDDEN; count := 0; flag := false |}).
  - exact (wf_rect _ demo_board_wf).
  - exact (wf_counts _ demo_board_wf).
  - exact (wf_closed _ demo_board_wf).
  - reflexivity.
  - reflexivity.
  - reflexivity.
  - vm_compute. lia.
Defined.

(** X23.  [pieces_left] and the spaces a call of [RevealEmpty] newly
    reveals, at any coordinate and for any room: when the call returns,
    [pieces_left] has dropped by exactly their number, and by nothing
    when the target was not a hidden space; when it is abandoned, which
    is by [RecursionError] and only without room for more nested calls
    than spaces are hidden, [pieces_left] has dropped by less than that
    number unless the call had no room at all. *)
Theorem pieces_left_counts_returned_reveals limit st x y :
  rect st →
  let r := RevealEmpty_limited limit x y st in
  let new := Z.of_nat (newly_revealed (spaces st) (spaces (settle r))) in
  (∀ st', r = Returns st' →
     pieces_left st' = pieces_left st - new ∧
     (type_at st x y ≠ Some HIDDEN → st' = st)) ∧
  (∀ e st', r = Raises e st' →
     e = RecursionError ∧ (limit <= hidden_count st)%nat ∧
     pieces_left st - new <= pieces_left st' ∧
     ((0 < limit)%nat → pieces_left st - new < pieces_left st')) ∧
  ((hidden_count st < limit)%nat → ∃ st', r = Returns st').
Proof.
  intros Hr r new.
  assert (Htot : (hidden_count st < limit)%nat → ∃ st', r = Returns st').
  { intros Hlt. destruct (RevealEmpty_total limit x y st Hr Hlt) as [s Hs].
    exists s. by apply RevealEmpty_limited_Done. }
  destruct r as [s|e s] eqn:E; subst r new; cbn [settle].
  - split; [|split; [intros ? ? [=]|done]].
    intros ? [= <-]. apply RevealEmpty_limited_Returns in E.
    split; [exact (reveals_pieces _ _ (RevealEmpty_reveals _ _ _ _ _ E))|].
    intros Hn. destruct limit as [|limit]; [done|].
    rewrite (RevealEmpty_not_hidden limit x y st Hr Hn) in E. by injection E.
  - split; [intros ? [=]|split; [|done]].
    intros ? ? [= <- <-].
    destruct (RevealEmpty_limited_Raises _ _ _ _ _ _ Hr E)
      as (-> & ((_ & _ & Gb) & S & _) & Hpos).
    destruct (newly_revealed_hidden _ _ Gb) as [Hn _].
    unfold surplus, hidden_count in *.
    split; [done|]. split.
    { destruct (decide (hidden_count st < limit)%nat) as [Hlt|]; [|unfold hidden_count in *; lia].
      destruct (Htot Hlt) as [? [=]]. }
    split; [lia|]. intros Hl. destruct (Hpos Hl) as (_ & _ & Slt). lia.
Qed.

Lemma pieces_left_counts_returned_reveals_witness :
  let r := RevealEmpty_limited 8 0 2 demo_board in
  let new := Z.of_nat (newly_revealed (spaces demo_board) (spaces (settle r))) in
  (∀ st', r = Returns st' →
     pieces_left st' = pieces_left demo_board - new ∧
     (type_at demo_board 0 2 ≠ Some HIDDEN → st' = demo_board)) ∧
  (∀ e st', r = Raises e st' →
     e = RecursionError ∧ (8 <= hidden_count demo_board)%nat ∧
     pieces_left demo_board - new <= pieces_left st' ∧
     ((0 < 8)%nat → pieces_left demo_board - new < pieces_left st')) ∧
  ((hidden_count demo_board < 8)%nat → ∃ st', r = Returns st').
Proof.
  apply (pieces_left_counts_returned_reveals 8 demo_board 0 2).
  exact (wf_rect _ demo_board_wf).
Defined.
